(** * Schema compliance and drift detection: a shallow embedding

    The development follows three source files:
    - [src/schemas/wsdl-validator.ts]   (module [Wsdl]),
    - [src/schemas/schema-validator.ts] (module [Schema]),
    - [scripts/schema-drift-check.ts]   (module [Drift]).

    The XML parser (fast-xml-parser), the JSON Schema compiler (Ajv), the
    file system, [path.resolve] and [fetch] are libraries of the platform;
    they enter as section variables or as fields of a world record, and the
    program text around them is embedded as it is written. *)

From Stdlib Require Import String Ascii List Bool Arith Lia DecimalString.
Import ListNotations.
Local Open Scope string_scope.
Local Open Scope list_scope.

(** ** Calls that return or throw *)

Inductive outcome (A : Type) : Type :=
| Ok (a : A)
| Throw (message : string).
Arguments Ok {A} a.
Arguments Throw {A} message.

Definition bind {A B : Type} (o : outcome A) (k : A -> outcome B) : outcome B :=
  match o with
  | Ok a => k a
  | Throw m => Throw m
  end.

Notation "x <- c ;; k" := (bind c (fun x => k))
  (at level 61, c at next level, right associativity).

(** Sequential loop whose body may throw. *)
Fixpoint for_each {S A : Type} (body : S -> A -> outcome S) (xs : list A) (s : S)
  : outcome S :=
  match xs with
  | [] => Ok s
  | x :: rest => s' <- body s x ;; for_each body rest s'
  end.

(** [xs.map(f)] for a callback that may throw. *)
Fixpoint map_each {A B : Type} (f : A -> outcome B) (xs : list A) : outcome (list B) :=
  match xs with
  | [] => Ok []
  | x :: rest => y <- f x ;; ys <- map_each f rest ;; Ok (y :: ys)
  end.

(** ** JavaScript values *)

Set Warnings "-register-all".

Module Js.

(** The values [XMLParser.parse] and [JSON.parse] build.  A number is kept
    as the text [Number.prototype.toString] prints for it ([JNum "299.97"],
    [JNum "NaN"]): the program only tests numbers for truthiness, compares
    them and prints them.  [JObj] lists the own enumerable properties in the
    order [Object.keys] reports them, one entry per key.  The length and the
    indices of a [JStr] count the characters of the string as it is held
    here, which is JavaScript's count on ASCII text. *)
Inductive JsVal : Type :=
| JUndefined
| JNull
| JBool (b : bool)
| JNum (image : string)
| JStr (s : string)
| JArr (items : list JsVal)
| JObj (props : list (string * JsVal)).

(** [!!v] *)
Definition truthy (v : JsVal) : bool :=
  match v with
  | JUndefined | JNull => false
  | JBool b => b
  | JNum image => negb (image =? "0") && negb (image =? "NaN")
  | JStr s => negb (s =? "")
  | JArr _ | JObj _ => true
  end.

Definition nullish (v : JsVal) : bool :=
  match v with
  | JUndefined | JNull => true
  | _ => false
  end.

Definition nat_to_string (n : nat) : string :=
  NilZero.string_of_uint (Nat.to_uint n).

(** The array index a property key denotes, below [n]. *)
Definition index_of (k : string) (n : nat) : option nat :=
  find (fun i => nat_to_string i =? k) (seq 0 n).

(** [v?.[k]]: [undefined] on [undefined] and [null], the own property
    otherwise ([length] and the indices of strings and arrays included).
    Members inherited from a prototype are outside the model; the program
    reads fixed element and attribute names and one computed name that ends
    in [Request] or [Response], none of which is inherited. *)
Definition read (v : JsVal) (k : string) : JsVal :=
  match v with
  | JObj props =>
      match find (fun p => fst p =? k) props with
      | Some p => snd p
      | None => JUndefined
      end
  | JArr items =>
      match index_of k (length items) with
      | Some i => nth i items JUndefined
      | None => if k =? "length" then JNum (nat_to_string (length items)) else JUndefined
      end
  | JStr s =>
      match index_of k (String.length s) with
      | Some i =>
          match String.get i s with
          | Some c => JStr (String c EmptyString)
          | None => JUndefined
          end
      | None => if k =? "length" then JNum (nat_to_string (String.length s)) else JUndefined
      end
  | _ => JUndefined
  end.

(** [v[k]] and [v.k]: a TypeError on [undefined] and [null]. *)
Definition get_prop (v : JsVal) (k : string) : outcome JsVal :=
  if nullish v
  then Throw ("Cannot read properties of undefined (reading '" ++ k ++ "')")
  else Ok (read v k).

(** [Object.keys(v)] *)
Definition object_keys (v : JsVal) : outcome (list string) :=
  match v with
  | JUndefined | JNull => Throw "Cannot convert undefined or null to object"
  | JObj props => Ok (map fst props)
  | JArr items => Ok (map nat_to_string (seq 0 (length items)))
  | JStr s => Ok (map nat_to_string (seq 0 (String.length s)))
  | JBool _ | JNum _ => Ok []
  end.

(** SameValueZero, the equality of [Array.prototype.includes] and of [Map]
    keys.  Objects and arrays are equal by reference only; wherever the
    program compares two values they come from different allocations (a key
    list against a field list, one parse against another), so two structured
    values are never the same. *)
Definition same_value_zero (a b : JsVal) : bool :=
  match a, b with
  | JUndefined, JUndefined => true
  | JNull, JNull => true
  | JBool x, JBool y => Bool.eqb x y
  | JNum x, JNum y => x =? y
  | JStr x, JStr y => x =? y
  | _, _ => false
  end.

(** [a === b] *)
Definition strict_equals (a b : JsVal) : bool :=
  match a, b with
  | JNum x, JNum y => (x =? y) && negb (x =? "NaN")
  | _, _ => same_value_zero a b
  end.

(** [xs.includes(x)] *)
Definition includes (xs : list JsVal) (x : JsVal) : bool :=
  existsb (fun y => same_value_zero y x) xs.

(** [xs.includes(x)] on an array of strings. *)
Definition includes_str (xs : list string) (x : string) : bool :=
  existsb (fun y => y =? x) xs.

(** [Array.isArray(v) ? v : [v]] *)
Definition as_array (v : JsVal) : list JsVal :=
  match v with
  | JArr items => items
  | _ => [v]
  end.

(** [a || b] *)
Definition or_else (a b : JsVal) : JsVal :=
  if truthy a then a else b.

(** ToString, as a template literal applies it. *)
Fixpoint to_string (v : JsVal) : string :=
  match v with
  | JUndefined => "undefined"
  | JNull => "null"
  | JBool true => "true"
  | JBool false => "false"
  | JNum image => image
  | JStr s => s
  | JArr items =>
      String.concat ","
        (map (fun x => match x with
                       | JUndefined | JNull => ""
                       | _ => to_string x
                       end) items)
  | JObj _ => "[object Object]"
  end.

(** [xs.join(sep)] *)
Definition join (sep : string) (xs : list JsVal) : string :=
  String.concat sep
    (map (fun x => match x with
                   | JUndefined | JNull => ""
                   | _ => to_string x
                   end) xs).

(** [k.startsWith(p)] *)
Definition startsWith (k p : string) : bool := String.prefix p k.

End Js.

(** ** The built-in [Map], in insertion order *)

Module JsMap.
Import Js.

Definition t (V : Type) : Type := list (JsVal * V).

Definition empty {V : Type} : t V := [].

Fixpoint get {V : Type} (k : JsVal) (m : t V) : option V :=
  match m with
  | [] => None
  | (k', v) :: rest => if same_value_zero k' k then Some v else get k rest
  end.

(** [m.set(k, v)]: an existing key keeps its place. *)
Fixpoint set {V : Type} (k : JsVal) (v : V) (m : t V) : t V :=
  match m with
  | [] => [(k, v)]
  | (k', v') :: rest =>
      if same_value_zero k' k then (k', v) :: rest else (k', v') :: set k v rest
  end.

Definition keys {V : Type} (m : t V) : list JsVal := map fst m.
Definition values {V : Type} (m : t V) : list V := map snd m.

End JsMap.

(** ** [src/schemas/wsdl-validator.ts] *)

Module Wsdl.
Import Js.

(** [children] is declared optional and no code path sets it. *)
Record WsdlElement : Type := {
  name : JsVal;
  type : JsVal;
  required : bool
}.

(** [op_name] is the member [name]; [WsdlElement] holds the projection of
    that name. *)
Record WsdlOperation : Type := {
  op_name : JsVal;
  soapAction : JsVal;
  input : list WsdlElement;
  output : list WsdlElement
}.

Record WsdlValidationResult : Type := {
  valid : bool;
  missingElements : list JsVal;
  unexpectedElements : list string;
  operation : string
}.

Inductive Direction : Type := DirInput | DirOutput.

(** The two private maps of a [WsdlValidator]. *)
Record WsdlValidator : Type := {
  operations : JsMap.t WsdlOperation;
  rawElements : JsMap.t JsVal
}.

Definition new_WsdlValidator : WsdlValidator :=
  {| operations := JsMap.empty; rawElements := JsMap.empty |}.

Definition extractElements (this : WsdlValidator) (parsed : JsVal)
  : outcome WsdlValidator :=
  definitions <- get_prop parsed "definitions" ;;
  let schema := read (read definitions "types") "schema" in
  if negb (truthy schema) then Ok this
  else
    let elements := as_array (read schema "element") in
    Ok (fold_left
          (fun st element =>
             if truthy (read element "@_name")
             then {| operations := operations st;
                     rawElements := JsMap.set (read element "@_name") element
                                      (rawElements st) |}
             else st)
          elements this).

(** The [filter] callback of [getElementFields]: [item?.["@_name"]]. *)
Definition has_name (item : JsVal) : bool :=
  truthy (read item "@_name").

(** The [map] callback of [getElementFields]. *)
Definition to_field (item : JsVal) : outcome WsdlElement :=
  n <- get_prop item "@_name" ;;
  t <- get_prop item "@_type" ;;
  m <- get_prop item "@_minOccurs" ;;
  Ok {| name := n;
        type := or_else t (JStr "complex");
        required := negb (strict_equals m (JStr "0")) |}.

(** [element.complexType?.sequence?.element || element.complexType?.sequence] *)
Definition sequence_of (element : JsVal) : JsVal :=
  let complexType := read element "complexType" in
  or_else (read (read complexType "sequence") "element")
          (read complexType "sequence").

Definition getElementFields (this : WsdlValidator) (elementName : string)
  : outcome (list WsdlElement) :=
  match JsMap.get (JStr elementName) (rawElements this) with
  | None => Ok []
  | Some element =>
      if negb (truthy element) then Ok []
      else
        let sequence := sequence_of element in
        if negb (truthy sequence) then Ok []
        else map_each to_field (filter has_name (as_array sequence))
  end.

(** The body of the loop of [extractOperations]. *)
Definition add_operation (this : WsdlValidator) (op : JsVal)
  : outcome WsdlValidator :=
  name <- get_prop op "@_name" ;;
  let soapAction := or_else (read (read op "operation") "@_soapAction") (JStr "") in
  inputElement <- getElementFields this (to_string name ++ "Request") ;;
  outputElement <- getElementFields this (to_string name ++ "Response") ;;
  Ok {| operations :=
          JsMap.set name
            {| op_name := name; soapAction := soapAction;
               input := inputElement; output := outputElement |}
            (operations this);
        rawElements := rawElements this |}.

Definition extractOperations (this : WsdlValidator) (parsed : JsVal)
  : outcome WsdlValidator :=
  definitions <- get_prop parsed "definitions" ;;
  let binding := read definitions "binding" in
  if negb (truthy binding) then Ok this
  else for_each add_operation (as_array (read binding "operation")) this.

Definition getOperations (this : WsdlValidator) : list WsdlOperation :=
  JsMap.values (operations this).

(** The loop that collects [missingElements]. *)
Definition missing_fields (expectedFields : list WsdlElement) (actualKeys : list string)
  : list JsVal :=
  map name
    (filter (fun field => required field && negb (includes (map JStr actualKeys) (name field)))
            expectedFields).

Definition unexpected_keys (expectedFields : list WsdlElement) (actualKeys : list string)
  : list string :=
  let expectedNames := map name expectedFields in
  filter (fun k => negb (includes expectedNames (JStr k)) && negb (startsWith k "@_"))
         actualKeys.

(** [direction === "input" ? operation.input : operation.output] *)
Definition expected_fields (operation : WsdlOperation) (direction : Direction)
  : list WsdlElement :=
  match direction with
  | DirInput => input operation
  | DirOutput => output operation
  end.

(** [direction === "input" ? `${operationName}Request` : `${operationName}Response`] *)
Definition wrapper_name (operationName : string) (direction : Direction) : string :=
  match direction with
  | DirInput => operationName ++ "Request"
  | DirOutput => operationName ++ "Response"
  end.

Section WithParser.

(** [xmlParser.parse], configured with [ignoreAttributes: false],
    [removeNSPrefix: true] and [attributeNamePrefix: "@_"]. *)
Variable parse : string -> outcome JsVal.

(** [readFileSync(path.resolve(wsdlPath), "utf-8")] *)
Variable readFile : string -> outcome string.

Definition loadWsdl (this : WsdlValidator) (wsdlPath : string) : outcome WsdlValidator :=
  wsdlContent <- readFile wsdlPath ;;
  parsed <- parse wsdlContent ;;
  this1 <- extractElements this parsed ;;
  extractOperations this1 parsed.

Definition validateSoapBody (this : WsdlValidator) (xml : string)
    (operationName : string) (direction : Direction)
  : outcome WsdlValidationResult :=
  match JsMap.get (JStr operationName) (operations this) with
  | None =>
      Ok {| valid := false;
            missingElements := [JStr ("Operation not found: " ++ operationName)];
            unexpectedElements := [];
            operation := operationName |}
  | Some operation =>
      let expectedFields := expected_fields operation direction in
      parsed <- parse xml ;;
      envelope <- get_prop parsed "Envelope" ;;
      let body := read envelope "Body" in
      if negb (truthy body) then
        Ok {| valid := false;
              missingElements := [JStr "SOAP Body not found"];
              unexpectedElements := [];
              operation := operationName |}
      else
        let responseName := wrapper_name operationName direction in
        let responseBody := read body responseName in
        if negb (truthy responseBody) then
          Ok {| valid := false;
                missingElements :=
                  [JStr (responseName ++ " element not found in SOAP Body")];
                unexpectedElements := [];
                operation := operationName |}
        else
          actualKeys <- object_keys responseBody ;;
          let missingElements := missing_fields expectedFields actualKeys in
          let unexpectedElements := unexpected_keys expectedFields actualKeys in
          Ok {| valid := Nat.eqb (length missingElements) 0;
                missingElements := missingElements;
                unexpectedElements := unexpectedElements;
                operation := operationName |}
  end.

End WithParser.

End Wsdl.

(** ** [src/schemas/schema-validator.ts] *)

Module Schema.
Import Js.

(** The two members of Ajv's [ErrorObject] the program reads
    ([message] is declared optional). *)
Record ErrorObject : Type := {
  instancePath : string;
  message : option string
}.

Record ValidationResult : Type := {
  valid : bool;
  errors : option (list ErrorObject);
  schemaId : string
}.

(** A compiled [ValidateFunction]: calling it gives a verdict and overwrites
    its own [errors] property ([None] stands for [null] and [undefined]).
    Every [compile] returns a fresh function object, so no two registry
    entries share one. *)
Record ValidateFunction : Type := {
  call : JsVal -> bool * option (list ErrorObject);
  fn_errors : option (list ErrorObject)
}.

(** [validate(payload)]: the verdict, and the function object afterwards. *)
Definition invoke (validate : ValidateFunction) (payload : JsVal)
  : bool * ValidateFunction :=
  let (verdict, errs) := call validate payload in
  (verdict, {| call := call validate; fn_errors := errs |}).

(** [s.endsWith(suffix)] *)
Definition endsWith (s suffix : string) : bool :=
  let n := String.length s in
  let m := String.length suffix in
  Nat.leb m n && (String.substring (n - m) m s =? suffix).

(** [s.replace(pattern, replacement)] for a string pattern: the first
    occurrence only. *)
Fixpoint replace (pattern replacement s : string) : string :=
  if String.prefix pattern s
  then replacement ++
       String.substring (String.length pattern)
         (String.length s - String.length pattern) s
  else match s with
       | EmptyString => EmptyString
       | String c rest => String c (replace pattern replacement rest)
       end.

Section WithLibraries.

(** The [Ajv] instance and its [compile], which may throw and which records
    the schema in the instance. *)
Variable Ajv : Type.
Variable compile : Ajv -> JsVal -> outcome (ValidateFunction * Ajv).

(** [path.resolve] and [path.join]. *)
Variable resolve : string -> string.
Variable path_join : string -> string -> string.

(** [JSON.parse(fs.readFileSync(p, "utf-8"))] and [fs.readdirSync]. *)
Variable readJson : string -> outcome JsVal.
Variable readdirSync : string -> outcome (list string).

Record SchemaValidator : Type := {
  ajv : Ajv;
  validators : JsMap.t ValidateFunction
}.

Definition new_SchemaValidator (fresh : Ajv) : SchemaValidator :=
  {| ajv := fresh; validators := JsMap.empty |}.

(** The optional parameter [schemaId?: string] as a value. *)
Definition optional (schemaId : option string) : JsVal :=
  match schemaId with
  | Some s => JStr s
  | None => JUndefined
  end.

(** [schemaId || schemaContent.$id || absolutePath], left to right. *)
Definition resolve_id (schemaId : option string) (schemaContent : JsVal)
    (absolutePath : string) : outcome JsVal :=
  if truthy (optional schemaId) then Ok (optional schemaId)
  else
    declared <- get_prop schemaContent "$id" ;;
    Ok (or_else declared (JStr absolutePath)).

Definition loadSchema (this : SchemaValidator) (schemaPath : string)
    (schemaId : option string) : outcome SchemaValidator :=
  let absolutePath := resolve schemaPath in
  schemaContent <- readJson absolutePath ;;
  id <- resolve_id schemaId schemaContent absolutePath ;;
  compiled <- compile (ajv this) schemaContent ;;
  Ok {| ajv := snd compiled;
        validators := JsMap.set id (fst compiled) (validators this) |}.

(** The body of the loop of [loadAllMessageSchemas]. *)
Definition load_file (absoluteDir : string) (this : SchemaValidator) (file : string)
  : outcome SchemaValidator :=
  let filePath := path_join absoluteDir file in
  let schemaId := replace ".schema.json" "" file in
  loadSchema this filePath (Some schemaId).

Definition loadAllMessageSchemas (this : SchemaValidator) (schemasDir : string)
  : outcome SchemaValidator :=
  let absoluteDir := resolve schemasDir in
  listing <- readdirSync absoluteDir ;;
  let files := filter (fun f => endsWith f ".json") listing in
  for_each (load_file absoluteDir) files this.

(** [validate]: the result, and the registry afterwards (the function that
    ran has its [errors] property overwritten; nothing else changes). *)
Definition validate (this : SchemaValidator) (schemaId : string) (payload : JsVal)
  : outcome (ValidationResult * SchemaValidator) :=
  match JsMap.get (JStr schemaId) (validators this) with
  | None =>
      Throw ("Schema not loaded: " ++ schemaId ++ ". Available: "
             ++ join ", " (JsMap.keys (validators this)))
  | Some validate =>
      let (valid, validate') := invoke validate payload in
      Ok ({| valid := valid;
             errors := if valid then None else fn_errors validate';
             schemaId := schemaId |},
          {| ajv := ajv this;
             validators := JsMap.set (JStr schemaId) validate' (validators this) |})
  end.

(** [`${e.instancePath} ${e.message}`] *)
Definition error_line (e : ErrorObject) : string :=
  instancePath e ++ " " ++
  match message e with
  | Some m => m
  | None => "undefined"
  end.

Definition assertValid (this : SchemaValidator) (schemaId : string) (payload : JsVal)
  : outcome SchemaValidator :=
  checked <- validate this schemaId payload ;;
  let result := fst checked in
  if negb (valid result) then
    let errorMessages :=
      match errors result with
      | Some es => String.concat "; " (map error_line es)
      | None => "undefined"
      end in
    Throw ("Schema validation failed for " ++ schemaId ++ ": " ++ errorMessages)
  else Ok (snd checked).

(** No schema is registered under the empty string. *)
Definition no_empty_id (this : SchemaValidator) : Prop :=
  JsMap.get (JStr "") (validators this) = None.

(** Registries a program can build: a fresh one, then any run of the
    public methods.  A method that throws keeps what it had done: a bulk
    load that stops at some file has loaded the files before it, and a
    [compile] that throws may still have touched the Ajv instance. *)
Inductive built : SchemaValidator -> Prop :=
| built_new (fresh : Ajv) : built (new_SchemaValidator fresh)
| built_loadSchema this schemaPath schemaId this' :
    built this -> loadSchema this schemaPath schemaId = Ok this' -> built this'
| built_loadAll this schemasDir this' :
    built this -> loadAllMessageSchemas this schemasDir = Ok this' -> built this'
| built_loadAll_stopped this schemasDir listing loaded rest this' :
    built this ->
    readdirSync (resolve schemasDir) = Ok listing ->
    filter (fun f => endsWith f ".json") listing = loaded ++ rest ->
    for_each (load_file (resolve schemasDir)) loaded this = Ok this' ->
    built this'
| built_validate this schemaId payload result this' :
    built this -> validate this schemaId payload = Ok (result, this') -> built this'
| built_compile_threw this instance :
    built this -> built {| ajv := instance; validators := validators this |}.

End WithLibraries.

End Schema.

(** ** [scripts/schema-drift-check.ts] *)

Module Drift.
Import Js.

Record DriftResult : Type := {
  schema : string;
  drifted : bool;
  details : list string
}.

(** [result.details.push(detail)] *)
Definition push (result : DriftResult) (detail : string) : DriftResult :=
  {| schema := schema result;
     drifted := drifted result;
     details := details result ++ [detail] |}.

(** [result.details.push(detail); result.drifted = true] *)
Definition push_drift (result : DriftResult) (detail : string) : DriftResult :=
  {| schema := schema result;
     drifted := true;
     details := details result ++ [detail] |}.

(** What the program reads of a [fetch] response; [text()] may reject. *)
Record Response : Type := {
  ok : bool;
  status : JsVal;
  text : outcome string
}.

(** The surroundings of one run: the file system, the two environment
    variables and the network.  A rejected [fetch] is a [Throw]. *)
Record World : Type := {
  existsSync : string -> bool;
  readFileSync : string -> outcome string;
  APP2_STAGING_URL : option string;
  INTEGRATION_LAYER_URL : option string;
  fetch : string -> outcome Response
}.

(** Both JSON documents of the message check are read through the type
    assertion [as { required?: string[] }]; the model takes them at that
    type. *)
Record MessageSchema : Type := {
  required : option (list string)
}.

(** [process.env.X], tested for truthiness. *)
Definition env_value (v : option string) : option string :=
  match v with
  | Some s => if s =? "" then None else Some s
  | None => None
  end.

Definition extractOperationNames (parsed : JsVal) : outcome (list JsVal) :=
  definitions <- get_prop parsed "definitions" ;;
  let binding := read definitions "binding" in
  if negb (truthy binding) then Ok []
  else
    let operations := as_array (read binding "operation") in
    names <- map_each (fun op => get_prop op "@_name") operations ;;
    Ok (filter truthy names).

(** The two loops and the closing test of [checkWsdlDrift]. *)
Definition compare_operations (result : DriftResult) (localOps liveOps : list JsVal)
  : DriftResult :=
  let removed :=
    fold_left
      (fun r op =>
         if negb (includes liveOps op)
         then push_drift r ("Operation REMOVED from live WSDL: " ++ to_string op)
         else r)
      localOps result in
  let added :=
    fold_left
      (fun r op =>
         if negb (includes localOps op)
         then push_drift r ("New operation in live WSDL: " ++ to_string op)
         else r)
      liveOps removed in
  if negb (drifted added) then push added "All operations match" else added.

(** The two loops and the closing test of [checkMessageSchemaDrift]. *)
Definition compare_required (result : DriftResult) (localRequired liveRequired : list string)
  : DriftResult :=
  let removed :=
    fold_left
      (fun r field =>
         if negb (includes_str liveRequired field)
         then push_drift r ("Required field removed from live schema: " ++ field)
         else r)
      localRequired result in
  let added :=
    fold_left
      (fun r field =>
         if negb (includes_str localRequired field)
         then push_drift r ("New required field in live schema: " ++ field)
         else r)
      liveRequired removed in
  if negb (drifted added) then push added "Message schemas match" else added.

(** [x.required || []] *)
Definition required_or_empty (doc : MessageSchema) : list string :=
  match required doc with
  | Some fields => fields
  | None => []
  end.

Section WithLibraries.

(** [new XMLParser({ ignoreAttributes: false, removeNSPrefix: true }).parse] *)
Variable parse : string -> outcome JsVal.

(** [JSON.parse] at the asserted type, and [path.resolve]. *)
Variable parseSchema : string -> outcome MessageSchema.
Variable resolve : string -> string.

(** The [try] block of [checkWsdlDrift].  Every step that can throw comes
    before the first write to [result], so the [catch] block sees [result]
    as it was initialised. *)
Definition wsdl_attempt (w : World) (result : DriftResult) (app2Url wsdlPath : string)
  : outcome DriftResult :=
  liveResponse <- fetch w (app2Url ++ "/ws/orders?wsdl") ;;
  if negb (ok liveResponse) then
    Ok (push_drift result
          ("Failed to fetch live WSDL: HTTP " ++ to_string (status liveResponse)))
  else
    liveWsdl <- text liveResponse ;;
    localWsdl <- readFileSync w wsdlPath ;;
    localParsed <- parse localWsdl ;;
    liveParsed <- parse liveWsdl ;;
    localOps <- extractOperationNames localParsed ;;
    liveOps <- extractOperationNames liveParsed ;;
    Ok (compare_operations result localOps liveOps).

Definition checkWsdlDrift (w : World) : DriftResult :=
  let result :=
    {| schema := "App2 WSDL (order-service.wsdl)"; drifted := false; details := [] |} in
  let wsdlPath := resolve "schemas/wsdl/order-service.wsdl" in
  if negb (existsSync w wsdlPath) then push_drift result "Local WSDL file not found"
  else
    match env_value (APP2_STAGING_URL w) with
    | None => push result "APP2_STAGING_URL not set — skipping live WSDL fetch"
    | Some app2Url =>
        match wsdl_attempt w result app2Url wsdlPath with
        | Ok finished => finished
        | Throw message => push result ("Error checking WSDL drift: " ++ message)
        end
    end.

(** The [try] block of [checkMessageSchemaDrift]; as above, nothing is
    written to [result] before the last step that can throw. *)
Definition message_attempt (w : World) (result : DriftResult) (integrationLayerUrl : string)
  : outcome DriftResult :=
  schemaResponse <- fetch w (integrationLayerUrl ++ "/api/schemas/order-events") ;;
  if negb (ok schemaResponse) then
    Ok (push result
          "Integration Layer does not expose schemas via API — manual check required")
  else
    liveText <- text schemaResponse ;;
    liveSchema <- parseSchema liveText ;;
    let localSchemaPath := resolve "schemas/messages/order-created-event.schema.json" in
    localText <- readFileSync w localSchemaPath ;;
    localSchema <- parseSchema localText ;;
    let localRequired := required_or_empty localSchema in
    let liveRequired := required_or_empty liveSchema in
    Ok (compare_required result localRequired liveRequired).

Definition checkMessageSchemaDrift (w : World) : DriftResult :=
  let result :=
    {| schema := "Integration Layer Message Schemas"; drifted := false; details := [] |} in
  match env_value (INTEGRATION_LAYER_URL w) with
  | None => push result "INTEGRATION_LAYER_URL not set — skipping live schema fetch"
  | Some integrationLayerUrl =>
      match message_attempt w result integrationLayerUrl with
      | Ok finished => finished
      | Throw message =>
          push result ("Error checking message schema drift: " ++ message)
      end
  end.

End WithLibraries.

End Drift.

(** ** Sample documents *)

Module Samples.
Import Js.

(** A parser given by a table of documents and their trees. *)
Definition table_parse (docs : list (string * JsVal)) (text : string) : outcome JsVal :=
  match find (fun d => fst d =? text) docs with
  | Some d => Ok (snd d)
  | None => Throw "Unexpected end of input"
  end.

Definition field (n t : string) : JsVal :=
  JObj [("@_name", JStr n); ("@_type", JStr t)].

Definition optional_field (n t : string) : JsVal :=
  JObj [("@_name", JStr n); ("@_type", JStr t); ("@_minOccurs", JStr "0")].

Definition element (n : string) (fields : list JsVal) : JsVal :=
  JObj [("@_name", JStr n);
        ("complexType", JObj [("sequence", JObj [("element", JArr fields)])])].

Definition bound_operation (n action : string) : JsVal :=
  JObj [("@_name", JStr n); ("operation", JObj [("@_soapAction", JStr action)])].

(** The tree of an order-service WSDL: [CreateOrder] and [GetOrderStatus]
    with their request and response elements, and [Ping], whose request and
    response elements the schema does not declare. *)
Definition wsdl_tree : JsVal :=
  JObj [("definitions",
     JObj [("@_name", JStr "OrderService");
           ("types", JObj [("schema", JObj [("element", JArr [
              element "CreateOrderRequest"
                [field "customerId" "xs:string";
                 field "orderDate" "xs:dateTime";
                 JObj [("@_name", JStr "items")];
                 field "shippingAddress" "tns:Address";
                 optional_field "notes" "xs:string"];
              element "CreateOrderResponse"
                [field "orderId" "xs:string";
                 field "status" "complex";
                 field "totalAmount" ""];
              element "GetOrderStatusRequest" [field "orderId" "xs:string"];
              element "GetOrderStatusResponse" [field "status" "xs:string"]])])]);
           ("binding", JObj [("@_name", JStr "OrderServiceBinding");
              ("operation", JArr [
                 bound_operation "CreateOrder" "http://app2.example.com/orders/CreateOrder";
                 bound_operation "GetOrderStatus" "http://app2.example.com/orders/GetOrderStatus";
                 JObj [("@_name", JStr "Ping")]])])])].

Definition envelope (wrapper : string) (content : JsVal) : JsVal :=
  JObj [("Envelope", JObj [("Body", JObj [(wrapper, content)])])].

Definition full_request_text : string :=
  "<Envelope><Body><CreateOrderRequest><customerId>CUST-12345</customerId><orderDate>2026-02-22T10:00:00Z</orderDate><items><item/></items><shippingAddress><city>Oslo</city></shippingAddress><notes>none</notes></CreateOrderRequest></Body></Envelope>".

Definition full_request_tree : JsVal :=
  envelope "CreateOrderRequest"
    (JObj [("customerId", JStr "CUST-12345");
           ("orderDate", JStr "2026-02-22T10:00:00Z");
           ("items", JObj [("item", JStr "")]);
           ("shippingAddress", JObj [("city", JStr "Oslo")]);
           ("notes", JStr "none")]).

Definition incomplete_request_text : string :=
  "<Envelope><Body><CreateOrderRequest><customerId>CUST-12345</customerId><orderDate>2026-02-22T10:00:00Z</orderDate><priority>1</priority></CreateOrderRequest></Body></Envelope>".

Definition incomplete_request_tree : JsVal :=
  envelope "CreateOrderRequest"
    (JObj [("customerId", JStr "CUST-12345");
           ("orderDate", JStr "2026-02-22T10:00:00Z");
           ("priority", JNum "1")]).

Definition ping_request_text : string :=
  "<Envelope><Body><PingRequest><nonce>abc</nonce></PingRequest></Body></Envelope>".

Definition ping_request_tree : JsVal :=
  envelope "PingRequest" (JObj [("nonce", JStr "abc")]).

(** An element with no attribute, child or text is parsed to the empty
    string. *)
Definition empty_ping_text : string :=
  "<Envelope><Body><PingRequest></PingRequest></Body></Envelope>".

Definition empty_ping_tree : JsVal :=
  envelope "PingRequest" (JStr "").

Definition documents : list (string * JsVal) :=
  [(full_request_text, full_request_tree);
   (incomplete_request_text, incomplete_request_tree);
   (ping_request_text, ping_request_tree);
   (empty_ping_text, empty_ping_tree)].

Definition parse : string -> outcome JsVal := table_parse documents.

(** The validator after the two extraction passes of [loadWsdl] over
    [wsdl_tree]. *)
Definition loaded : Wsdl.WsdlValidator :=
  match (this <- Wsdl.extractElements Wsdl.new_WsdlValidator wsdl_tree ;;
         Wsdl.extractOperations this wsdl_tree) with
  | Ok this => this
  | Throw _ => Wsdl.new_WsdlValidator
  end.

(** *** A staging world for the drift checks *)

(** [path.resolve] with [/repo] as the working directory. *)
Definition resolve (p : string) : string :=
  if String.prefix "/" p then p else "/repo/" ++ p.

Definition binding_of (operations : JsVal) : JsVal :=
  JObj [("definitions",
         JObj [("binding", JObj [("@_name", JStr "OrderServiceBinding");
                                 ("operation", operations)])])].

Definition local_wsdl_text : string :=
  "<definitions><binding name='OrderServiceBinding'><operation name='CreateOrder'/><operation name='GetOrderStatus'/></binding></definitions>".

Definition local_wsdl_tree : JsVal :=
  binding_of (JArr [JObj [("@_name", JStr "CreateOrder")];
                    JObj [("@_name", JStr "GetOrderStatus")]]).

Definition live_wsdl_text : string :=
  "<definitions><binding name='OrderServiceBinding'><operation name='CreateOrder'/></binding></definitions>".

Definition live_wsdl_tree : JsVal :=
  binding_of (JObj [("@_name", JStr "CreateOrder")]).

Definition drift_parse : string -> outcome JsVal :=
  table_parse [(local_wsdl_text, local_wsdl_tree); (live_wsdl_text, live_wsdl_tree)].

Definition quoted (s : string) : string :=
  String (ascii_of_nat 34) s ++ String (ascii_of_nat 34) EmptyString.

(** The JSON text of a schema document that declares [fields] required. *)
Definition required_document (fields : list string) : string :=
  "{" ++ quoted "required" ++ ":[" ++ String.concat "," (map quoted fields) ++ "]}".

Definition local_required : list string :=
  ["eventId"; "eventType"; "timestamp"; "source"; "payload"].

Definition live_required : list string :=
  ["eventId"; "eventType"; "timestamp"; "source"; "payload"; "priority"].

Definition parseSchema (text : string) : outcome Drift.MessageSchema :=
  if text =? required_document local_required
  then Ok {| Drift.required := Some local_required |}
  else if text =? required_document live_required
  then Ok {| Drift.required := Some live_required |}
  else Throw "Unexpected token in JSON".

Definition response (code : string) (body : string) : Drift.Response :=
  {| Drift.ok := code =? "200"; Drift.status := JNum code; Drift.text := Ok body |}.

(** Both baselines are on disk and both URLs are set; the two endpoints
    answer as given. *)
Definition world (wsdl_endpoint schema_endpoint : outcome Drift.Response) : Drift.World :=
  {| Drift.existsSync := fun p => p =? resolve "schemas/wsdl/order-service.wsdl";
     Drift.readFileSync := fun p =>
       if p =? resolve "schemas/wsdl/order-service.wsdl" then Ok local_wsdl_text
       else if p =? resolve "schemas/messages/order-created-event.schema.json"
       then Ok (required_document local_required)
       else Throw "ENOENT: no such file or directory";
     Drift.APP2_STAGING_URL := Some "https://app2-staging.example.com:8443";
     Drift.INTEGRATION_LAYER_URL := Some "https://il-staging.example.com:8080";
     Drift.fetch := fun url =>
       if url =? "https://app2-staging.example.com:8443/ws/orders?wsdl"
       then wsdl_endpoint
       else if url =? "https://il-staging.example.com:8080/api/schemas/order-events"
       then schema_endpoint
       else Throw "fetch failed" |}.

(** *** A registry for the JSON Schema validator *)

(** A stand-in for [ajv.compile] that honours [required] only: one
    violation for every required property the payload lacks.  The instance
    keeps no state. *)
Definition violation (property : JsVal) : Schema.ErrorObject :=
  {| Schema.instancePath := "";
     Schema.message :=
       Some ("must have required property '" ++ to_string property ++ "'")%string |}.

Definition check_required (schema payload : JsVal)
  : bool * option (list Schema.ErrorObject) :=
  match filter (fun property => negb (truthy (read payload (to_string property))))
               (as_array (read schema "required")) with
  | [] => (true, None)
  | lacking => (false, Some (map violation lacking))
  end.

Definition compile (instance : unit) (schema : JsVal)
  : outcome (Schema.ValidateFunction * unit) :=
  Ok ({| Schema.call := check_required schema; Schema.fn_errors := None |}, instance).

Definition path_join (dir file : string) : string := dir ++ "/" ++ file.

Definition order_created_schema (id : JsVal) : JsVal :=
  JObj [("$id", id);
        ("type", JStr "object");
        ("required", JArr (map JStr local_required))].

(** The schema file of the repository, and a copy whose [$id] is empty. *)
Definition readJson (path : string) : outcome JsVal :=
  if path =? resolve "schemas/messages/order-created-event.schema.json"
  then Ok (order_created_schema (JStr "https://example.com/schemas/order-created-event"))
  else if path =? resolve "schemas/messages/anonymous.schema.json"
  then Ok (order_created_schema (JStr ""))
  else Throw "ENOENT: no such file or directory".

Definition readdirSync (dir : string) : outcome (list string) :=
  if dir =? resolve "schemas/messages"
  then Ok ["order-created-event.schema.json"; "README.md"]
  else Throw "ENOENT: no such file or directory".

(** The registry of the message-schema tests: one schema, loaded under the
    id the caller gives. *)
Definition registry : Schema.SchemaValidator unit :=
  match Schema.loadSchema unit compile resolve readJson (Schema.new_SchemaValidator unit tt)
          "schemas/messages/order-created-event.schema.json"
          (Some "order-created-event") with
  | Ok this => this
  | Throw _ => Schema.new_SchemaValidator unit tt
  end.

Definition complete_event : JsVal :=
  JObj [("eventId", JStr "evt-001"); ("eventType", JStr "OrderCreated");
        ("timestamp", JStr "2026-02-22T10:00:00Z"); ("source", JStr "App1");
        ("payload", JObj [("orderId", JStr "ORD-2026-00042")])].

Definition event_without_id : JsVal :=
  JObj [("eventType", JStr "OrderCreated");
        ("timestamp", JStr "2026-02-22T10:00:00Z"); ("source", JStr "App1");
        ("payload", JObj [("orderId", JStr "ORD-2026-00042")])].

End Samples.

(** ** Loops and registries that keep what was done before a throw *)

(** A sequential loop over a mutable object: the state reached, and the
    message of the error that stopped the loop, if one did. *)
Fixpoint for_each_kept {S A : Type} (body : S -> A -> outcome S) (xs : list A) (s : S)
  : S * option string :=
  match xs with
  | [] => (s, None)
  | x :: rest =>
      match body s x with
      | Ok s' => for_each_kept body rest s'
      | Throw message => (s, Some message)
      end
  end.

(** The module-level [defaultValidator] of [schema-validator.ts]. *)
Module Default.
Import Js.

Section WithLibraries.

Variable Ajv : Type.
Variable compile : Ajv -> JsVal -> outcome (Schema.ValidateFunction * Ajv).
Variable resolve : string -> string.
Variable path_join : string -> string -> string.
Variable readJson : string -> outcome JsVal.
Variable readdirSync : string -> outcome (list string).

(** [loadAllMessageSchemas] as it leaves the registry: the files loaded
    before a throw stay registered (a [loadSchema] that throws has not
    reached its [set]). *)
Definition loadAllMessageSchemas_kept (this : Schema.SchemaValidator Ajv)
    (schemasDir : string) : Schema.SchemaValidator Ajv * option string :=
  let absoluteDir := resolve schemasDir in
  match readdirSync absoluteDir with
  | Throw message => (this, Some message)
  | Ok listing =>
      let files := filter (fun f => Schema.endsWith f ".json") listing in
      for_each_kept
        (Schema.load_file Ajv compile resolve path_join readJson absoluteDir)
        files this
  end.

(** [getSchemaValidator]: what the call returns or throws, and the slot
    [defaultValidator] afterwards.  The slot is assigned before the bulk
    load runs, and holds the object the load mutates.  [fresh] is the Ajv
    instance the constructor builds. *)
Definition getSchemaValidator (fresh : Ajv)
    (defaultValidator : option (Schema.SchemaValidator Ajv))
  : outcome (Schema.SchemaValidator Ajv) * option (Schema.SchemaValidator Ajv) :=
  match defaultValidator with
  | Some this => (Ok this, Some this)
  | None =>
      match loadAllMessageSchemas_kept (Schema.new_SchemaValidator Ajv fresh)
              "schemas/messages" with
      | (this, None) => (Ok this, Some this)
      | (this, Some message) => (Throw message, Some this)
      end
  end.

End WithLibraries.

End Default.

(** ** [scripts/schema-drift-check.ts]: the report and the run *)

Module Report.
Import Js.

(** A line written with [console.log] or with [console.error]. *)
Inductive Line : Type :=
| Log (text : string)
| Error (text : string).

Record Summary : Type := {
  total : nat;
  drifted : nat;
  clean : nat
}.

Record DriftReport : Type := {
  timestamp : string;
  results : list Drift.DriftResult;
  summary : Summary
}.

(** The two file-system calls of [generateReport]. *)
Record Disk : Type := {
  mkdirSync : string -> outcome unit;
  writeFileSync : string -> string -> outcome unit
}.

(** What a run leaves: the exit status of the process, the console, and
    the files written ([path], [content]). *)
Record Run : Type := {
  exit : nat;
  console : list Line;
  written : list (string * string)
}.

Definition newline : string := String "010"%char EmptyString.

(** [s.replace(/[:.]/g, "-")] *)
Fixpoint dashes (s : string) : string :=
  match s with
  | EmptyString => EmptyString
  | String c rest =>
      String (if (Ascii.eqb c ":" || Ascii.eqb c ".")%bool then "-"%char else c)
             (dashes rest)
  end.

Definition summarize (results : list Drift.DriftResult) : Summary :=
  {| total := length results;
     drifted := length (filter (fun r => Drift.drifted r) results);
     clean := length (filter (fun r => negb (Drift.drifted r)) results) |}.

Definition bar : string := "═══════════════════════════════════════════════════════════".
Definition box_top : string := "┌─────────────────────────────────────────────┐".
Definition box_title : string := "│  Drift Detection Summary                    │".
Definition box_rule : string := "├─────────────────────────────────────────────┤".
Definition box_bottom : string := "└─────────────────────────────────────────────┘".

Section WithLibraries.

Variable parse : string -> outcome JsVal.
Variable parseSchema : string -> outcome Drift.MessageSchema.
Variable resolve : string -> string.
Variable path_join : string -> string -> string.

(** [JSON.stringify(report, null, 2)], [String.prototype.padEnd], and the
    text [console.error] prints for a caught error. *)
Variable stringify : DriftReport -> string.
Variable padEnd : string -> nat -> string.
Variable inspect : string -> string.

(** The lines of the summary box for one result. *)
Definition result_lines (result : Drift.DriftResult) : list Line :=
  let icon := if Drift.drifted result then "❌" else "✅" in
  Log ("│  " ++ icon ++ " " ++ padEnd (Drift.schema result) 40 ++ " │")
  :: map (fun detail => Log ("│     " ++ padEnd detail 38 ++ " │"))
         (Drift.details result).

(** [generateReport]; [clock] holds the two readings of
    [new Date().toISOString()], in the order they are taken. *)
Definition generateReport (disk : Disk) (clock : string * string)
    (results : list Drift.DriftResult) : outcome (list Line * (string * string)) :=
  let reportDir := resolve "reports/drift" in
  _ <- mkdirSync disk reportDir ;;
  let timestamp := dashes (fst clock) in
  let reportPath := path_join reportDir ("drift-report-" ++ timestamp ++ ".json") in
  let report :=
    {| timestamp := snd clock; results := results; summary := summarize results |} in
  _ <- writeFileSync disk reportPath (stringify report) ;;
  Ok ([Log (newline ++ "Report saved to: " ++ reportPath);
       Log (newline ++ box_top); Log box_title; Log box_rule]
      ++ flat_map result_lines results
      ++ [Log box_bottom],
      (reportPath, stringify report)).

(** [main], with the handler [main().catch(...)] that ends the process
    with status 1. *)
Definition main (w : Drift.World) (disk : Disk) (clock : string * string) : Run :=
  let banner :=
    [Log bar; Log "  Schema Drift Detection"; Log (bar ++ newline)] in
  let results :=
    [Drift.checkWsdlDrift parse resolve w;
     Drift.checkMessageSchemaDrift parseSchema resolve w] in
  match generateReport disk clock results with
  | Throw message =>
      {| exit := 1;
         console := banner ++ [Error ("Fatal error: " ++ inspect message)];
         written := [] |}
  | Ok (lines, file) =>
      let hasDrift := existsb (fun r => Drift.drifted r) results in
      if hasDrift then
        {| exit := 1;
           console := banner ++ lines ++ [Error (newline ++ "⚠️  Schema drift detected! Review the report above.")];
           written := [file] |}
      else
        {| exit := 0;
           console := banner ++ lines ++ [Log (newline ++ "✅ No schema drift detected.")];
           written := [file] |}
  end.

End WithLibraries.

End Report.

(** ** The Pact publishing script *)

Module Pact.
Import Js.
Import Report.

Record Request : Type := {
  url : string;
  method : string;
  headers : list (string * string);
  body : string
}.

(** What the script reads of a [fetch] response. *)
Record Response : Type := {
  ok : bool;
  status : JsVal;
  statusText : string
}.

(** The surroundings of one run; [now] is [Date.now()] as a template
    literal prints it. *)
Record World : Type := {
  existsSync : string -> bool;
  readdirSync : string -> outcome (list string);
  readFileSync : string -> outcome string;
  PACT_BROKER_URL : option string;
  PACT_BROKER_TOKEN : option string;
  GITHUB_SHA : option string;
  GITHUB_REF_NAME : option string;
  now : string;
  fetch : Request -> outcome Response
}.

(** The world [w] with a broker that answers as [answers] does. *)
Definition answered (w : World) (answers : Request -> outcome Response) : World :=
  {| existsSync := existsSync w;
     readdirSync := readdirSync w;
     readFileSync := readFileSync w;
     PACT_BROKER_URL := PACT_BROKER_URL w;
     PACT_BROKER_TOKEN := PACT_BROKER_TOKEN w;
     GITHUB_SHA := GITHUB_SHA w;
     GITHUB_REF_NAME := GITHUB_REF_NAME w;
     now := now w;
     fetch := answers |}.

(** The exit status, the console, and the requests sent, in order. *)
Record Run : Type := {
  exit : nat;
  console : list Line;
  requests : list Request
}.

(** [process.env.GITHUB_SHA?.substring(0, 8) || `local-${Date.now()}`] *)
Definition version_of (w : World) : string :=
  match Drift.env_value (option_map (String.substring 0 8) (GITHUB_SHA w)) with
  | Some short => short
  | None => ("local-" ++ now w)%string
  end.

(** [process.env.GITHUB_REF_NAME || "local"] *)
Definition branch_of (w : World) : string :=
  match Drift.env_value (GITHUB_REF_NAME w) with
  | Some name => name
  | None => "local"
  end.

(** The [headers] object of the request. *)
Definition headers_of (w : World) : list (string * string) :=
  ("Content-Type", "application/json")
  :: match Drift.env_value (PACT_BROKER_TOKEN w) with
     | Some brokerToken => [("Authorization", ("Bearer " ++ brokerToken)%string)]
     | None => []
     end.

Section WithLibraries.

Variable resolve : string -> string.
Variable path_join : string -> string -> string.
Variable json_parse : string -> outcome JsVal.
Variable encodeURIComponent : string -> outcome string.
Variable inspect : string -> string.

(** The body of the publishing loop: the console and the requests sent so
    far, before and after one file. *)
Definition publish_file (w : World) (pactDir brokerUrl version : string)
    (sofar : list Line * list Request) (file : string)
  : outcome (list Line * list Request) :=
  pactContent <- readFileSync w (path_join pactDir file) ;;
  pact <- json_parse pactContent ;;
  consumerNode <- get_prop pact "consumer" ;;
  let consumer := or_else (read consumerNode "name") (JStr "unknown") in
  providerNode <- get_prop pact "provider" ;;
  let provider := or_else (read providerNode "name") (JStr "unknown") in
  providerPart <- encodeURIComponent (to_string provider) ;;
  consumerPart <- encodeURIComponent (to_string consumer) ;;
  let publishUrl :=
    (brokerUrl ++ "/pacts/provider/" ++ providerPart ++ "/consumer/" ++ consumerPart
     ++ "/version/" ++ version)%string in
  let request :=
    {| url := publishUrl; method := "PUT"; headers := headers_of w;
       body := pactContent |} in
  let line :=
    match fetch w request with
    | Ok response =>
        if ok response
        then Log ("  ✅ Published: " ++ to_string consumer ++ " → "
                  ++ to_string provider)
        else Error ("  ❌ Failed to publish " ++ file ++ ": "
                    ++ to_string (status response) ++ " " ++ statusText response)
    | Throw message =>
        Error ("  ❌ Error publishing " ++ file ++ ": " ++ message)
    end in
  Ok (fst sofar ++ [line], snd sofar ++ [request]).

(** [main], with the handler [main().catch(...)] that ends the process
    with status 1. *)
Definition main (w : World) : Run :=
  let pactDir := resolve "pacts" in
  if negb (existsSync w pactDir) then
    {| exit := 0;
       console := [Log "No pact files found. Run 'npm run test:contract' first."];
       requests := [] |}
  else
    match readdirSync w pactDir with
    | Throw message =>
        {| exit := 1;
           console := [Error ("Fatal error: " ++ inspect message)];
           requests := [] |}
    | Ok listing =>
        let pactFiles := filter (fun f => Schema.endsWith f ".json") listing in
        if Nat.eqb (length pactFiles) 0 then
          {| exit := 0;
             console := [Log "No pact files found in pacts/ directory."];
             requests := [] |}
        else
          let found :=
            Log ("Found " ++ nat_to_string (length pactFiles) ++ " Pact contract(s):")
            :: map (fun file => Log ("  - " ++ file)) pactFiles in
          match Drift.env_value (PACT_BROKER_URL w) with
          | None =>
              {| exit := 0;
                 console :=
                   found
                   ++ [Log (newline ++ "PACT_BROKER_URL not set. Contracts saved locally in pacts/ directory.");
                       Log "To publish to a broker, set PACT_BROKER_URL and PACT_BROKER_TOKEN."];
                 requests := [] |}
          | Some brokerUrl =>
              let version := version_of w in
              let branch := branch_of w in
              let announced :=
                found
                ++ [Log (newline ++ "Publishing to Pact Broker: " ++ brokerUrl);
                    Log ("  Version: " ++ version);
                    Log ("  Branch: " ++ branch)] in
              match for_each_kept (publish_file w pactDir brokerUrl version)
                      pactFiles (announced, []) with
              | (done, None) =>
                  {| exit := 0; console := fst done; requests := snd done |}
              | (done, Some message) =>
                  {| exit := 1;
                     console := fst done ++ [Error ("Fatal error: " ++ inspect message)];
                     requests := snd done |}
              end
          end
    end.

End WithLibraries.

End Pact.

(** ** More sample documents *)

Module MoreSamples.
Import Js.

(** A WSDL that declares [PingRequest] twice, with an item that has no
    name in the first declaration and an optional item in the second, and
    binds the one operation [Ping]. *)
Definition ping_wsdl_text : string :=
  "<definitions><types><schema><element name='PingRequest'><complexType><sequence><element name='nonce' type='xs:string'/><element ref='tns:skipped'/></sequence></complexType></element><element name='PingRequest'><complexType><sequence><element name='token' type='xs:string'/><element ref='tns:skipped'/><element name='ttl' type='xs:int' minOccurs='0'/></sequence></complexType></element></schema></types><binding name='PingBinding'><operation name='Ping'/></binding></definitions>".

Definition declared (fields : list JsVal) : JsVal :=
  JObj [("complexType", JObj [("sequence", JObj [("element", JArr fields)])]);
        ("@_name", JStr "PingRequest")].

Definition first_declaration : JsVal :=
  declared [JObj [("@_name", JStr "nonce"); ("@_type", JStr "xs:string")];
            JObj [("@_ref", JStr "tns:skipped")]].

Definition second_declaration : JsVal :=
  declared [JObj [("@_name", JStr "token"); ("@_type", JStr "xs:string")];
            JObj [("@_ref", JStr "tns:skipped")];
            JObj [("@_name", JStr "ttl"); ("@_type", JStr "xs:int");
                  ("@_minOccurs", JStr "0")]].

Definition ping_wsdl_tree : JsVal :=
  JObj [("definitions",
         JObj [("types",
                JObj [("schema",
                       JObj [("element",
                              JArr [first_declaration; second_declaration])])]);
               ("binding",
                JObj [("operation", JObj [("@_name", JStr "Ping")]);
                      ("@_name", JStr "PingBinding")])])].

(** A WSDL whose binding lists no operation, and one with no binding. *)
Definition emptied_wsdl_text : string :=
  "<definitions><binding name='OrderServiceBinding'/></definitions>".

Definition emptied_wsdl_tree : JsVal :=
  JObj [("definitions",
         JObj [("binding", JObj [("@_name", JStr "OrderServiceBinding")])])].

Definition unbound_wsdl_text : string :=
  "<definitions name='OrderService'/>".

Definition unbound_wsdl_tree : JsVal :=
  JObj [("definitions", JObj [("@_name", JStr "OrderService")])].

(** A request for [Ping] with the children of the second declaration, an
    attribute and one child more. *)
Definition ping_token_text : string :=
  "<Envelope><Body><PingRequest id='7'><token>abc</token><trace>on</trace></PingRequest></Body></Envelope>".

Definition ping_token_tree : JsVal :=
  Samples.envelope "PingRequest"
    (JObj [("token", JStr "abc"); ("trace", JStr "on"); ("@_id", JStr "7")]).

Definition parse : string -> outcome JsVal :=
  Samples.table_parse
    [(ping_wsdl_text, ping_wsdl_tree);
     (emptied_wsdl_text, emptied_wsdl_tree);
     (unbound_wsdl_text, unbound_wsdl_tree);
     (ping_token_text, ping_token_tree);
     (Samples.local_wsdl_text, Samples.local_wsdl_tree);
     (Samples.live_wsdl_text, Samples.live_wsdl_tree)].

Definition readFile (path : string) : outcome string :=
  if path =? "schemas/wsdl/ping.wsdl" then Ok ping_wsdl_text
  else if path =? "schemas/wsdl/emptied.wsdl" then Ok emptied_wsdl_text
  else if path =? "schemas/wsdl/unbound.wsdl" then Ok unbound_wsdl_text
  else Throw "ENOENT: no such file or directory".

(** The validator after [loadWsdl("schemas/wsdl/ping.wsdl")]. *)
Definition ping_validator : Wsdl.WsdlValidator :=
  match Wsdl.loadWsdl parse readFile Wsdl.new_WsdlValidator "schemas/wsdl/ping.wsdl" with
  | Ok this => this
  | Throw _ => Wsdl.new_WsdlValidator
  end.

(** The validator between the two passes of that load. *)
Definition ping_elements : Wsdl.WsdlValidator :=
  match Wsdl.extractElements Wsdl.new_WsdlValidator ping_wsdl_tree with
  | Ok this => this
  | Throw _ => Wsdl.new_WsdlValidator
  end.

(** *** The drift run *)

(** The live WSDL equals the baseline, and the Integration Layer exposes
    no schema. *)
Definition clean_world : Drift.World :=
  Samples.world (Ok (Samples.response "200" Samples.local_wsdl_text))
    (Ok (Samples.response "404" "")).

(** The live WSDL has lost the operations of its binding. *)
Definition emptied_world : Drift.World :=
  Samples.world (Ok (Samples.response "200" emptied_wsdl_text))
    (Ok (Samples.response "404" "")).

Definition disk : Report.Disk :=
  {| Report.mkdirSync := fun _ => Ok tt;
     Report.writeFileSync := fun _ _ => Ok tt |}.

Definition read_only_disk : Report.Disk :=
  {| Report.mkdirSync := fun _ => Ok tt;
     Report.writeFileSync := fun _ _ => Throw "EROFS: read-only file system" |}.

Definition clock : string * string :=
  ("2026-02-22T02:00:00.123Z", "2026-02-22T02:00:00.124Z").

Definition spaces (n : nat) : string := string_of_list_ascii (repeat " "%char n).

(** [padEnd] on ASCII text. *)
Definition padEnd (s : string) (n : nat) : string :=
  s ++ spaces (n - String.length s).

(** A rendering of the report that shows its summary. *)
Definition stringify (report : Report.DriftReport) : string :=
  "{timestamp: " ++ Report.timestamp report
  ++ ", total: " ++ nat_to_string (Report.total (Report.summary report))
  ++ ", drifted: " ++ nat_to_string (Report.drifted (Report.summary report))
  ++ ", clean: " ++ nat_to_string (Report.clean (Report.summary report)) ++ "}".

Definition inspect (message : string) : string := "Error: " ++ message.

Definition clean_run : Report.Run :=
  Report.main Samples.drift_parse Samples.parseSchema Samples.resolve Samples.path_join
    stringify padEnd inspect clean_world disk clock.

(** *** The pacts directory *)

Definition pact_document (consumer provider : string) : string :=
  "{" ++ Samples.quoted "consumer" ++ ":{" ++ Samples.quoted "name" ++ ":"
  ++ Samples.quoted consumer ++ "}," ++ Samples.quoted "provider" ++ ":{"
  ++ Samples.quoted "name" ++ ":" ++ Samples.quoted provider ++ "}}".

Definition pact_tree (consumer provider : string) : JsVal :=
  JObj [("consumer", JObj [("name", JStr consumer)]);
        ("provider", JObj [("name", JStr provider)])].

Definition json_parse (text : string) : outcome JsVal :=
  if text =? pact_document "App1" "App2" then Ok (pact_tree "App1" "App2")
  else if text =? pact_document "App1" "Siebel" then Ok (pact_tree "App1" "Siebel")
  else Throw "Unexpected token in JSON".

(** [encodeURIComponent] on names that need no escaping. *)
Definition encodeURIComponent (s : string) : outcome string := Ok s.

(** Three files in [pacts], the second one not a pact; the third cannot
    be read when [locked] is set. *)
Definition pact_world (broker : option string) (locked : bool)
    (answers : Pact.Request -> outcome Pact.Response) : Pact.World :=
  {| Pact.existsSync := fun p => p =? Samples.resolve "pacts";
     Pact.readdirSync := fun p =>
       if p =? Samples.resolve "pacts"
       then Ok ["app1-app2.json"; "notes.txt"; "app1-siebel.json"]
       else Throw "ENOENT: no such file or directory";
     Pact.readFileSync := fun p =>
       if p =? "/repo/pacts/app1-app2.json" then Ok (pact_document "App1" "App2")
       else if (p =? "/repo/pacts/app1-siebel.json") && negb locked
       then Ok (pact_document "App1" "Siebel")
       else Throw "EACCES: permission denied";
     Pact.PACT_BROKER_URL := broker;
     Pact.PACT_BROKER_TOKEN := Some "s3cret";
     Pact.GITHUB_SHA := Some "0123456789abcdef";
     Pact.GITHUB_REF_NAME := None;
     Pact.now := "1771725600000";
     Pact.fetch := answers |}.

Definition accepts (request : Pact.Request) : outcome Pact.Response :=
  Ok {| Pact.ok := true; Pact.status := JNum "200"; Pact.statusText := "OK" |}.

Definition unreachable (request : Pact.Request) : outcome Pact.Response :=
  Throw "fetch failed".

Definition broker_world : Pact.World :=
  pact_world (Some "https://broker.example.com") false accepts.

End MoreSamples.

(** * Properties *)

Import Js.

(** ** Values and maps *)

Lemma same_value_zero_eq (a b : JsVal) : same_value_zero a b = true -> a = b.
Proof.
  destruct a, b; simpl; try discriminate; intro H; try reflexivity.
  - apply Bool.eqb_prop in H. now subst.
  - apply String.eqb_eq in H. now subst.
  - apply String.eqb_eq in H. now subst.
Qed.

Lemma same_value_zero_str (x y : string) :
  same_value_zero (JStr x) (JStr y) = (x =? y).
Proof. reflexivity. Qed.

Lemma strict_equals_str (v : JsVal) (s : string) :
  strict_equals v (JStr s) = true <-> v = JStr s.
Proof.
  split.
  - destruct v; simpl; try discriminate.
    intro H. apply String.eqb_eq in H. now subst.
  - intros ->. simpl. apply String.eqb_refl.
Qed.

Lemma includes_In (xs : list JsVal) (x : JsVal) :
  includes xs x = true -> In x xs.
Proof.
  unfold includes. rewrite existsb_exists.
  intros [y [Hy Heq]]. apply same_value_zero_eq in Heq. now subst.
Qed.

Lemma includes_strings (keys : list string) (k : string) :
  includes (map JStr keys) (JStr k) = true <-> In k keys.
Proof.
  unfold includes. rewrite existsb_exists. split.
  - intros [y [Hy Heq]]. apply in_map_iff in Hy as [k' [<- Hk']].
    simpl in Heq. apply String.eqb_eq in Heq. now subst.
  - intro Hk. exists (JStr k). split.
    + now apply in_map.
    + simpl. apply String.eqb_refl.
Qed.

Lemma includes_str_In (xs : list string) (x : string) :
  includes_str xs x = true <-> In x xs.
Proof.
  unfold includes_str. rewrite existsb_exists. split.
  - intros [y [Hy Heq]]. apply String.eqb_eq in Heq. now subst.
  - intro Hx. exists x. split; [assumption | apply String.eqb_refl].
Qed.

Lemma get_set_same {V : Type} (k : JsVal) (v : V) (m : JsMap.t V) :
  same_value_zero k k = true -> JsMap.get k (JsMap.set k v m) = Some v.
Proof.
  intro Hk. induction m as [| [k' v'] rest IH]; simpl.
  - now rewrite Hk.
  - destruct (same_value_zero k' k) eqn:E; simpl; rewrite E; [reflexivity | exact IH].
Qed.

Lemma get_set_other {V : Type} (k k0 : JsVal) (v : V) (m : JsMap.t V) :
  k <> k0 -> JsMap.get k0 (JsMap.set k v m) = JsMap.get k0 m.
Proof.
  intro Hne. induction m as [| [k' v'] rest IH]; simpl.
  - destruct (same_value_zero k k0) eqn:E; [| reflexivity].
    apply same_value_zero_eq in E. contradiction.
  - destruct (same_value_zero k' k) eqn:E; simpl.
    + apply same_value_zero_eq in E. subst k'.
      destruct (same_value_zero k k0) eqn:E0; [| reflexivity].
      apply same_value_zero_eq in E0. contradiction.
    + destruct (same_value_zero k' k0); [reflexivity | exact IH].
Qed.

Lemma truthy_read (v : JsVal) (k : string) :
  truthy (read v k) = true -> truthy v = true.
Proof.
  destruct v; simpl; try discriminate; try reflexivity.
  destruct s as [| c s']; [| reflexivity].
  simpl. destruct (k =? "length"); discriminate.
Qed.

Lemma truthy_not_nullish (v : JsVal) : truthy v = true -> nullish v = false.
Proof. destruct v; simpl; try discriminate; reflexivity. Qed.

Lemma object_keys_truthy (v : JsVal) :
  truthy v = true -> exists keys, object_keys v = Ok keys.
Proof. destruct v; simpl; try discriminate; intros _; eexists; reflexivity. Qed.

(** ** The SOAP body validator *)

(** On every path that returns, [valid] is computed from [missingElements]
    alone. *)
Lemma validateSoapBody_valid (parse : string -> outcome JsVal)
    (this : Wsdl.WsdlValidator) (xml operationName : string)
    (direction : Wsdl.Direction) (r : Wsdl.WsdlValidationResult) :
  Wsdl.validateSoapBody parse this xml operationName direction = Ok r ->
  Wsdl.valid r = Nat.eqb (length (Wsdl.missingElements r)) 0.
Proof.
  unfold Wsdl.validateSoapBody.
  destruct (JsMap.get _ _) as [op |]; [| intro H; injection H as <-; reflexivity].
  destruct (parse xml) as [parsed |]; simpl; [| discriminate].
  destruct (get_prop parsed "Envelope") as [envelope |]; simpl; [| discriminate].
  destruct (truthy (read envelope "Body")); simpl;
    [| intro H; injection H as <-; reflexivity].
  destruct (truthy (read (read envelope "Body") _)); simpl;
    [| intro H; injection H as <-; reflexivity].
  destruct (object_keys _) as [keys |]; simpl; [| discriminate].
  intro H; injection H as <-; reflexivity.
Qed.

(** [validateSoapBody] returns whenever the parser returns a tree. *)
Lemma validateSoapBody_returns (parse : string -> outcome JsVal)
    (this : Wsdl.WsdlValidator) (xml operationName : string)
    (direction : Wsdl.Direction) (parsed : JsVal) :
  parse xml = Ok parsed ->
  nullish parsed = false ->
  exists r, Wsdl.validateSoapBody parse this xml operationName direction = Ok r.
Proof.
  intros Hparse Htree. unfold Wsdl.validateSoapBody, get_prop.
  destruct (JsMap.get _ _) as [op |]; [| eexists; reflexivity].
  rewrite Hparse. simpl. rewrite Htree. simpl.
  destruct (truthy (read (read parsed "Envelope") "Body")); simpl;
    [| eexists; reflexivity].
  destruct (truthy (read (read (read parsed "Envelope") "Body") _)) eqn:Ew; simpl;
    [| eexists; reflexivity].
  destruct (object_keys_truthy _ Ew) as [keys Hkeys]. rewrite Hkeys. simpl.
  eexists; reflexivity.
Qed.

(** C1: [validateSoapBody] returns a result whenever the parser returns a
    tree; in every result it returns, [valid] is true exactly when
    [missingElements] is empty; and any two returned results with the same
    [missingElements] have the same [valid], whatever their
    [unexpectedElements] hold. *)
Theorem validateSoapBody_valid_iff_nothing_missing
    (parse : string -> outcome JsVal) (this : Wsdl.WsdlValidator)
    (xml operationName : string) (direction : Wsdl.Direction) :
  (forall parsed,
      parse xml = Ok parsed -> nullish parsed = false ->
      exists r, Wsdl.validateSoapBody parse this xml operationName direction = Ok r)
  /\ (forall r,
        Wsdl.validateSoapBody parse this xml operationName direction = Ok r ->
        (Wsdl.valid r = true <-> Wsdl.missingElements r = [])
        /\ (forall this' xml' operationName' direction' r',
              Wsdl.validateSoapBody parse this' xml' operationName' direction' = Ok r' ->
              Wsdl.missingElements r' = Wsdl.missingElements r ->
              Wsdl.valid r' = Wsdl.valid r)).
Proof.
  split; [apply validateSoapBody_returns |].
  intros r H. apply validateSoapBody_valid in H. split.
  - rewrite H. destruct (Wsdl.missingElements r); simpl; split;
      intro; try discriminate; reflexivity.
  - intros this' xml' operationName' direction' r' H' Hsame.
    apply validateSoapBody_valid in H'. now rewrite H', H, Hsame.
Qed.

Lemma validateSoapBody_valid_iff_nothing_missing_witness :
  Wsdl.validateSoapBody Samples.parse Samples.loaded
    Samples.incomplete_request_text "CreateOrder" Wsdl.DirInput
  = Ok {| Wsdl.valid := false;
          Wsdl.missingElements := [JStr "items"; JStr "shippingAddress"];
          Wsdl.unexpectedElements := ["priority"];
          Wsdl.operation := "CreateOrder" |}
  /\ (false = true <-> [JStr "items"; JStr "shippingAddress"] = []).
Proof.
  split; [reflexivity |].
  exact (proj1 (proj2 (validateSoapBody_valid_iff_nothing_missing
                         Samples.parse Samples.loaded Samples.incomplete_request_text
                         "CreateOrder" Wsdl.DirInput) _ eq_refl)).
Defined.

(** C6: for an operation name that the loaded model does not hold,
    [validateSoapBody] returns (it does not throw, whatever the envelope is)
    a result with [valid = false], one [missingElements] entry that names
    the operation, and no [unexpectedElements]. *)
Theorem validateSoapBody_unknown_operation
    (parse : string -> outcome JsVal) (this : Wsdl.WsdlValidator)
    (xml operationName : string) (direction : Wsdl.Direction) :
  JsMap.get (JStr operationName) (Wsdl.operations this) = None ->
  Wsdl.validateSoapBody parse this xml operationName direction
  = Ok {| Wsdl.valid := false;
          Wsdl.missingElements := [JStr ("Operation not found: " ++ operationName)];
          Wsdl.unexpectedElements := [];
          Wsdl.operation := operationName |}.
Proof.
  intro H. unfold Wsdl.validateSoapBody. now rewrite H.
Qed.

Lemma validateSoapBody_unknown_operation_witness :
  Wsdl.validateSoapBody Samples.parse Samples.loaded
    "not even XML" "CancelOrder" Wsdl.DirOutput
  = Ok {| Wsdl.valid := false;
          Wsdl.missingElements := [JStr "Operation not found: CancelOrder"];
          Wsdl.unexpectedElements := [];
          Wsdl.operation := "CancelOrder" |}.
Proof.
  exact (validateSoapBody_unknown_operation Samples.parse Samples.loaded
           "not even XML" "CancelOrder" Wsdl.DirOutput eq_refl).
Defined.

(** ** Field descriptors *)

Lemma map_each_In {A B : Type} (f : A -> outcome B) (xs : list A) (ys : list B) :
  map_each f xs = Ok ys ->
  forall y, In y ys -> exists x, In x xs /\ f x = Ok y.
Proof.
  revert ys. induction xs as [| x rest IH]; simpl; intros ys H y Hy.
  - injection H as <-. destruct Hy.
  - destruct (f x) as [y0 |] eqn:Ex; simpl in H; [| discriminate].
    destruct (map_each f rest) as [ys0 |] eqn:Er; simpl in H; [| discriminate].
    injection H as <-. destruct Hy as [<- | Hy].
    + exists x. auto.
    + destruct (IH ys0 eq_refl y Hy) as [x' [Hin Hx']]. exists x'. auto.
Qed.

Lemma map_each_returns {A B : Type} (f : A -> outcome B) (xs : list A) :
  (forall x, In x xs -> exists y, f x = Ok y) ->
  exists ys, map_each f xs = Ok ys.
Proof.
  induction xs as [| x rest IH]; simpl; intro H.
  - eexists; reflexivity.
  - destruct (H x (or_introl eq_refl)) as [y Hy]. rewrite Hy. simpl.
    destruct IH as [ys Hys]; [intros x' Hx'; apply H; now right |].
    rewrite Hys. simpl. eexists; reflexivity.
Qed.

(** After the [filter], the [map] callback reads three attributes of an
    item that is neither [undefined] nor [null]. *)
Lemma to_field_named (item : JsVal) :
  Wsdl.has_name item = true ->
  Wsdl.to_field item
  = Ok {| Wsdl.name := read item "@_name";
          Wsdl.type := or_else (read item "@_type") (JStr "complex");
          Wsdl.required := negb (strict_equals (read item "@_minOccurs") (JStr "0")) |}.
Proof.
  unfold Wsdl.has_name. intro H.
  apply truthy_read, truthy_not_nullish in H.
  unfold Wsdl.to_field, get_prop. now rewrite H.
Qed.

Lemma getElementFields_returns (this : Wsdl.WsdlValidator) (elementName : string) :
  exists fields, Wsdl.getElementFields this elementName = Ok fields.
Proof.
  unfold Wsdl.getElementFields.
  destruct (JsMap.get _ _) as [element |]; [| eexists; reflexivity].
  destruct (truthy element); simpl; [| eexists; reflexivity].
  destruct (truthy (Wsdl.sequence_of element)); simpl; [| eexists; reflexivity].
  apply map_each_returns. intros item Hitem.
  apply filter_In in Hitem as [_ Hnamed].
  rewrite (to_field_named item Hnamed). eexists; reflexivity.
Qed.

Lemma getElementFields_absent (this : Wsdl.WsdlValidator) (elementName : string) :
  JsMap.get (JStr elementName) (Wsdl.rawElements this) = None ->
  Wsdl.getElementFields this elementName = Ok [].
Proof. intro H. unfold Wsdl.getElementFields. now rewrite H. Qed.

Lemma getElementFields_item (this : Wsdl.WsdlValidator) (elementName : string)
    (fields : list Wsdl.WsdlElement) (d : Wsdl.WsdlElement) :
  Wsdl.getElementFields this elementName = Ok fields ->
  In d fields ->
  exists element item,
    JsMap.get (JStr elementName) (Wsdl.rawElements this) = Some element
    /\ In item (as_array (Wsdl.sequence_of element))
    /\ Wsdl.has_name item = true
    /\ Wsdl.to_field item = Ok d.
Proof.
  unfold Wsdl.getElementFields.
  destruct (JsMap.get _ _) as [element |];
    [| intro H; injection H as <-; intros []].
  destruct (truthy element); simpl; [| intro H; injection H as <-; intros []].
  destruct (truthy (Wsdl.sequence_of element)); simpl;
    [| intro H; injection H as <-; intros []].
  intros H Hd.
  destruct (map_each_In _ _ _ H d Hd) as [item [Hin Hitem]].
  apply filter_In in Hin as [Hin Hnamed].
  exists element, item. auto.
Qed.

Lemma fields_of_items (items : list JsVal) (fields : list Wsdl.WsdlElement) :
  map_each Wsdl.to_field (filter Wsdl.has_name items) = Ok fields ->
  Forall2 (fun item d =>
             Wsdl.name d = read item "@_name"
             /\ (Wsdl.required d = false <-> read item "@_minOccurs" = JStr "0")
             /\ Wsdl.type d = (if truthy (read item "@_type")
                               then read item "@_type" else JStr "complex")
             /\ (read item "@_type" = JUndefined -> Wsdl.type d = JStr "complex"))
          (filter Wsdl.has_name items) fields.
Proof.
  revert fields. induction items as [| item rest IH]; simpl; intros fields H.
  - injection H as <-. constructor.
  - destruct (Wsdl.has_name item) eqn:Hnamed; [| now apply IH].
    simpl in H. rewrite (to_field_named item Hnamed) in H. simpl in H.
    destruct (map_each Wsdl.to_field (filter Wsdl.has_name rest)) as [ds |] eqn:Hrest;
      simpl in H; [| discriminate].
    injection H as <-. constructor; [| now apply IH].
    simpl. split; [reflexivity |]. split; [| split; [reflexivity |]].
    + split; intro Hmin.
      * apply negb_false_iff in Hmin. now apply strict_equals_str.
      * apply negb_false_iff. now apply strict_equals_str.
    + intros ->. reflexivity.
Qed.

(** C4 (as amended): [getElementFields] returns, and what it returns
    describes the named items of the element's sequence one for one, in
    document order: every such item has its descriptor, and every
    descriptor comes from such an item.  The descriptor carries the name of
    its item; its [required] is false exactly when the item's [minOccurs]
    attribute is the string "0"; its [type] is the item's [type] attribute
    when that attribute is declared and not empty, and "complex" otherwise,
    in particular when no [type] attribute is declared. *)
Theorem getElementFields_descriptor (this : Wsdl.WsdlValidator) (elementName : string) :
  exists fields,
    Wsdl.getElementFields this elementName = Ok fields
    /\ (forall element,
          JsMap.get (JStr elementName) (Wsdl.rawElements this) = Some element ->
          truthy element = true ->
          truthy (Wsdl.sequence_of element) = true ->
          Forall2 (fun item d =>
                     Wsdl.name d = read item "@_name"
                     /\ (Wsdl.required d = false <-> read item "@_minOccurs" = JStr "0")
                     /\ Wsdl.type d = (if truthy (read item "@_type")
                                       then read item "@_type" else JStr "complex")
                     /\ (read item "@_type" = JUndefined -> Wsdl.type d = JStr "complex"))
                  (filter Wsdl.has_name (as_array (Wsdl.sequence_of element))) fields)
    /\ (forall d, In d fields ->
          exists element item,
            JsMap.get (JStr elementName) (Wsdl.rawElements this) = Some element
            /\ In item (as_array (Wsdl.sequence_of element))
            /\ Wsdl.name d = read item "@_name"
            /\ (Wsdl.required d = false <-> read item "@_minOccurs" = JStr "0")
            /\ Wsdl.type d = (if truthy (read item "@_type")
                              then read item "@_type" else JStr "complex")
            /\ (read item "@_type" = JUndefined -> Wsdl.type d = JStr "complex")).
Proof.
  destruct (getElementFields_returns this elementName) as [fields Hret].
  exists fields. split; [exact Hret |]. split.
  - intros element Hget Helement Hsequence.
    apply fields_of_items.
    unfold Wsdl.getElementFields in Hret.
    now rewrite Hget, Helement, Hsequence in Hret.
  - intros d Hd.
    destruct (getElementFields_item this elementName fields d Hret Hd)
      as [element [item [Hget [Hin [Hnamed Hfield]]]]].
    rewrite (to_field_named item Hnamed) in Hfield. injection Hfield as <-.
    exists element, item. simpl.
    repeat split; try assumption.
    + intro Hreq. apply negb_false_iff in Hreq. now apply strict_equals_str.
    + intro Hmin. apply negb_false_iff. now apply strict_equals_str.
    + intros ->. reflexivity.
Qed.

Lemma getElementFields_descriptor_witness :
  exists fields,
    Wsdl.getElementFields Samples.loaded "CreateOrderRequest" = Ok fields
    /\ Forall2 (fun item d =>
                  Wsdl.name d = read item "@_name"
                  /\ (Wsdl.required d = false <-> read item "@_minOccurs" = JStr "0")
                  /\ Wsdl.type d = (if truthy (read item "@_type")
                                    then read item "@_type" else JStr "complex")
                  /\ (read item "@_type" = JUndefined -> Wsdl.type d = JStr "complex"))
               [Samples.field "customerId" "xs:string";
                Samples.field "orderDate" "xs:dateTime";
                JObj [("@_name", JStr "items")];
                Samples.field "shippingAddress" "tns:Address";
                Samples.optional_field "notes" "xs:string"]
               fields.
Proof.
  destruct (getElementFields_descriptor Samples.loaded "CreateOrderRequest")
    as (fields & Hret & Hitems & _).
  exists fields. split; [exact Hret |].
  exact (Hitems
           (Samples.element "CreateOrderRequest"
              [Samples.field "customerId" "xs:string";
               Samples.field "orderDate" "xs:dateTime";
               JObj [("@_name", JStr "items")];
               Samples.field "shippingAddress" "tns:Address";
               Samples.optional_field "notes" "xs:string"])
           eq_refl eq_refl eq_refl).
Defined.

(** C4, as stated, fails: the [status] and [totalAmount] items of
    [CreateOrderResponse] each declare a [type] attribute (the text
    "complex", and the empty text), and both descriptors have [type]
    "complex". *)
Lemma declared_type_yields_complex :
  Wsdl.getElementFields Samples.loaded "CreateOrderResponse"
  = Ok [ {| Wsdl.name := JStr "orderId"; Wsdl.type := JStr "xs:string";
            Wsdl.required := true |};
         {| Wsdl.name := JStr "status"; Wsdl.type := JStr "complex";
            Wsdl.required := true |};
         {| Wsdl.name := JStr "totalAmount"; Wsdl.type := JStr "complex";
            Wsdl.required := true |} ]
  /\ read (Samples.field "status" "complex") "@_type" = JStr "complex"
  /\ read (Samples.field "totalAmount" "") "@_type" = JStr "".
Proof. repeat split. Qed.

(** ** Operations whose element is not declared *)

Lemma filter_none {A : Type} (p : A -> bool) (xs : list A) :
  (forall x, In x xs -> p x = false) -> filter p xs = [].
Proof.
  induction xs as [| x rest IH]; simpl; intro H; [reflexivity |].
  rewrite (H x (or_introl eq_refl)). apply IH. intros y Hy. apply H. now right.
Qed.

Lemma unexpected_keys_nothing_expected (actualKeys : list string) :
  Wsdl.unexpected_keys [] actualKeys
  = filter (fun k => negb (startsWith k "@_")) actualKeys.
Proof. reflexivity. Qed.

Lemma add_operation_returns (this : Wsdl.WsdlValidator) (op : JsVal) :
  nullish op = false ->
  exists inputElement outputElement,
    Wsdl.getElementFields this (to_string (read op "@_name") ++ "Request")
    = Ok inputElement
    /\ Wsdl.getElementFields this (to_string (read op "@_name") ++ "Response")
       = Ok outputElement
    /\ Wsdl.add_operation this op
       = Ok {| Wsdl.operations :=
                 JsMap.set (read op "@_name")
                   {| Wsdl.op_name := read op "@_name";
                      Wsdl.soapAction :=
                        or_else (read (read op "operation") "@_soapAction") (JStr "");
                      Wsdl.input := inputElement;
                      Wsdl.output := outputElement |}
                   (Wsdl.operations this);
               Wsdl.rawElements := Wsdl.rawElements this |}.
Proof.
  intros Hop.
  destruct (getElementFields_returns this (to_string (read op "@_name") ++ "Request"))
    as [i Hi].
  destruct (getElementFields_returns this (to_string (read op "@_name") ++ "Response"))
    as [o Ho].
  exists i, o. repeat split; try assumption.
  unfold Wsdl.add_operation, get_prop. rewrite Hop. simpl.
  rewrite Hi. simpl. rewrite Ho. reflexivity.
Qed.

(** Whatever elements the schema declares, the second pass of [loadWsdl]
    returns as long as the binding lists operations that are there. *)
Lemma extractOperations_returns (this : Wsdl.WsdlValidator) (parsed : JsVal) :
  nullish parsed = false ->
  (forall op,
      In op (as_array (read (read (read parsed "definitions") "binding") "operation")) ->
      nullish op = false) ->
  exists this', Wsdl.extractOperations this parsed = Ok this'.
Proof.
  intros Htree Hops. unfold Wsdl.extractOperations, get_prop. rewrite Htree. simpl.
  destruct (truthy (read (read parsed "definitions") "binding")); simpl;
    [| eexists; reflexivity].
  revert this Hops.
  induction (as_array (read (read (read parsed "definitions") "binding") "operation"))
    as [| op rest IH]; intros this Hops; simpl.
  - eexists; reflexivity.
  - destruct (add_operation_returns this op (Hops op (or_introl eq_refl)))
      as [i [o [_ [_ Hadd]]]].
    rewrite Hadd. simpl. apply IH. intros op' Hop'. apply Hops. now right.
Qed.

(** C5 (as amended): the pass that records the operations does not fail for
    want of a request or response element; an operation whose element is
    not in the element table is recorded with an empty field list for that
    direction; and whenever [validateSoapBody] returns for an operation and
    direction whose field list is empty, no field is reported missing:
    either the body or the wrapper was not found, or the result is valid
    with empty [missingElements] and lists every child of the wrapper that
    is not an attribute as unexpected. *)
Theorem undeclared_element_empty_fields (parse : string -> outcome JsVal) :
  (forall (this : Wsdl.WsdlValidator) (parsed : JsVal),
      nullish parsed = false ->
      (forall op,
          In op (as_array (read (read (read parsed "definitions") "binding") "operation")) ->
          nullish op = false) ->
      exists this', Wsdl.extractOperations this parsed = Ok this')
  /\ (forall (this : Wsdl.WsdlValidator) (op : JsVal) (n : string),
      nullish op = false ->
      read op "@_name" = JStr n ->
      exists this' O,
        Wsdl.add_operation this op = Ok this'
        /\ JsMap.get (JStr n) (Wsdl.operations this') = Some O
        /\ forall direction,
             JsMap.get (JStr (Wsdl.wrapper_name n direction)) (Wsdl.rawElements this) = None ->
             Wsdl.expected_fields O direction = [])
  /\ (forall (this : Wsdl.WsdlValidator) (n : string) (O : Wsdl.WsdlOperation)
             (direction : Wsdl.Direction) (xml : string) (r : Wsdl.WsdlValidationResult),
      JsMap.get (JStr n) (Wsdl.operations this) = Some O ->
      Wsdl.expected_fields O direction = [] ->
      Wsdl.validateSoapBody parse this xml n direction = Ok r ->
      Wsdl.missingElements r = [JStr "SOAP Body not found"]
      \/ Wsdl.missingElements r
           = [JStr (Wsdl.wrapper_name n direction ++ " element not found in SOAP Body")]
      \/ (Wsdl.valid r = true
           /\ Wsdl.missingElements r = []
           /\ exists parsed envelope actualKeys,
                parse xml = Ok parsed
                /\ get_prop parsed "Envelope" = Ok envelope
                /\ object_keys (read (read envelope "Body") (Wsdl.wrapper_name n direction))
                   = Ok actualKeys
                /\ Wsdl.unexpectedElements r
                   = filter (fun k => negb (startsWith k "@_")) actualKeys)).
Proof.
  split; [exact extractOperations_returns |]. split.
  - intros this op n Hop Hname.
    destruct (add_operation_returns this op Hop) as [i [o [Hi [Ho Hadd]]]].
    rewrite Hname in *. simpl in Hi, Ho.
    eexists; eexists. split; [exact Hadd |]. split.
    + simpl. apply get_set_same. simpl. apply String.eqb_refl.
    + intros [|] Habsent; simpl in *.
      * rewrite (getElementFields_absent this _ Habsent) in Hi. now injection Hi as <-.
      * rewrite (getElementFields_absent this _ Habsent) in Ho. now injection Ho as <-.
  - intros this n O direction xml r Hget Hempty.
    unfold Wsdl.validateSoapBody. rewrite Hget, Hempty.
    destruct (parse xml) as [parsed |] eqn:Eparse; simpl; [| discriminate].
    destruct (get_prop parsed "Envelope") as [envelope |] eqn:Eenv; simpl;
      [| discriminate].
    destruct (truthy (read envelope "Body")); simpl;
      [| intro H; injection H as <-; now left].
    destruct (truthy (read (read envelope "Body") _)); simpl;
      [| intro H; injection H as <-; right; now left].
    destruct (object_keys _) as [actualKeys |] eqn:Ekeys; simpl; [| discriminate].
    intro H; injection H as <-. right; right. simpl.
    split; [reflexivity |]. split; [reflexivity |].
    exists parsed, envelope, actualKeys. repeat split; assumption.
Qed.

Lemma undeclared_element_empty_fields_witness :
  (exists this' O,
      Wsdl.add_operation Wsdl.new_WsdlValidator (JObj [("@_name", JStr "Ping")]) = Ok this'
      /\ JsMap.get (JStr "Ping") (Wsdl.operations this') = Some O
      /\ forall direction,
           JsMap.get (JStr (Wsdl.wrapper_name "Ping" direction))
             (Wsdl.rawElements Wsdl.new_WsdlValidator) = None ->
           Wsdl.expected_fields O direction = [])
  /\ (Wsdl.validateSoapBody Samples.parse Samples.loaded Samples.ping_request_text
        "Ping" Wsdl.DirInput
      = Ok {| Wsdl.valid := true;
              Wsdl.missingElements := [];
              Wsdl.unexpectedElements := ["nonce"];
              Wsdl.operation := "Ping" |}).
Proof.
  split.
  - exact (proj1 (proj2 (undeclared_element_empty_fields Samples.parse))
             Wsdl.new_WsdlValidator (JObj [("@_name", JStr "Ping")]) "Ping"
             eq_refl eq_refl).
  - reflexivity.
Defined.

(** C5, as stated, fails: [Ping] is bound but [PingRequest] is not declared;
    its input field list is empty, and a request whose wrapper holds the
    child [nonce] validates with nothing reported missing (the child is
    reported as unexpected). *)
Lemma undeclared_element_reports_nothing_missing :
  JsMap.get (JStr "PingRequest") (Wsdl.rawElements Samples.loaded) = None
  /\ JsMap.get (JStr "Ping") (Wsdl.operations Samples.loaded)
     = Some {| Wsdl.op_name := JStr "Ping"; Wsdl.soapAction := JStr "";
               Wsdl.input := []; Wsdl.output := [] |}
  /\ Samples.parse Samples.ping_request_text
     = Ok (Samples.envelope "PingRequest" (JObj [("nonce", JStr "abc")]))
  /\ Wsdl.validateSoapBody Samples.parse Samples.loaded Samples.ping_request_text
       "Ping" Wsdl.DirInput
     = Ok {| Wsdl.valid := true;
             Wsdl.missingElements := [];
             Wsdl.unexpectedElements := ["nonce"];
             Wsdl.operation := "Ping" |}.
Proof. repeat split. Qed.

(** ** Round trip of a request body *)

Lemma In_includes_str (xs : list JsVal) (k : string) :
  In (JStr k) xs -> includes xs (JStr k) = true.
Proof.
  intro H. unfold includes. apply existsb_exists.
  exists (JStr k). split; [assumption | simpl; apply String.eqb_refl].
Qed.

Lemma object_keys_nonempty (v : JsVal) (k : string) (ks : list string) :
  object_keys v = Ok (k :: ks) -> truthy v = true.
Proof.
  destruct v; simpl; try discriminate; try reflexivity.
  destruct s; simpl; [discriminate | reflexivity].
Qed.

Lemma missing_fields_all_present (expectedFields : list Wsdl.WsdlElement)
    (actualKeys : list string) :
  (forall v, In v (map Wsdl.name expectedFields) -> In v (map JStr actualKeys)) ->
  Wsdl.missing_fields expectedFields actualKeys = [].
Proof.
  intro H. unfold Wsdl.missing_fields. rewrite filter_none; [reflexivity |].
  intros f Hf.
  assert (Hin : In (Wsdl.name f) (map JStr actualKeys))
    by (apply H; now apply in_map).
  apply in_map_iff in Hin as [k [Hk Hin]]. rewrite <- Hk.
  apply includes_strings in Hin. rewrite Hin. simpl. apply andb_false_r.
Qed.

Lemma unexpected_keys_all_expected (expectedFields : list Wsdl.WsdlElement)
    (actualKeys : list string) :
  (forall v, In v (map JStr actualKeys) -> In v (map Wsdl.name expectedFields)) ->
  Wsdl.unexpected_keys expectedFields actualKeys = [].
Proof.
  intro H. unfold Wsdl.unexpected_keys. apply filter_none.
  intros k Hk.
  assert (Hin : In (JStr k) (map Wsdl.name expectedFields))
    by (apply H; now apply in_map).
  now rewrite (In_includes_str _ _ Hin).
Qed.

(** X25: for an operation [O] of the loaded model and an envelope whose
    [{O}Request] wrapper has exactly the names of [O]'s input field list as
    its keys, [validateSoapBody] for direction input returns [valid = true]
    with empty [missingElements] and [unexpectedElements], when [O] has at
    least one input field or the wrapper is otherwise parsed to a value
    that is not empty. *)
Theorem request_round_trip (parse : string -> outcome JsVal)
    (this : Wsdl.WsdlValidator) (xml operationName : string)
    (O : Wsdl.WsdlOperation) (parsed envelope : JsVal) (actualKeys : list string) :
  JsMap.get (JStr operationName) (Wsdl.operations this) = Some O ->
  parse xml = Ok parsed ->
  get_prop parsed "Envelope" = Ok envelope ->
  object_keys (read (read envelope "Body") (operationName ++ "Request")) = Ok actualKeys ->
  (forall v, In v (map JStr actualKeys) <-> In v (map Wsdl.name (Wsdl.input O))) ->
  Wsdl.input O <> []
  \/ truthy (read (read envelope "Body") (operationName ++ "Request")) = true ->
  Wsdl.validateSoapBody parse this xml operationName Wsdl.DirInput
  = Ok {| Wsdl.valid := true;
          Wsdl.missingElements := [];
          Wsdl.unexpectedElements := [];
          Wsdl.operation := operationName |}.
Proof.
  intros Hget Hparse Henv Hkeys Hsame Hfound.
  assert (Hwrapper : truthy (read (read envelope "Body") (operationName ++ "Request")) = true).
  { destruct Hfound as [Hfields | Ht]; [| exact Ht].
    destruct actualKeys as [| k ks].
    - destruct (Wsdl.input O) as [| f fs]; [now contradiction Hfields |].
      exfalso. apply (proj2 (Hsame (Wsdl.name f))). now left.
    - exact (object_keys_nonempty _ _ _ Hkeys). }
  unfold Wsdl.validateSoapBody. rewrite Hget, Hparse. simpl. rewrite Henv. simpl.
  rewrite (truthy_read _ _ Hwrapper). simpl. rewrite Hwrapper. simpl.
  rewrite Hkeys. simpl.
  rewrite missing_fields_all_present by (intro v; apply Hsame).
  rewrite unexpected_keys_all_expected by (intro v; apply Hsame).
  reflexivity.
Qed.

Lemma request_round_trip_witness :
  Wsdl.validateSoapBody Samples.parse Samples.loaded Samples.full_request_text
    "CreateOrder" Wsdl.DirInput
  = Ok {| Wsdl.valid := true;
          Wsdl.missingElements := [];
          Wsdl.unexpectedElements := [];
          Wsdl.operation := "CreateOrder" |}.
Proof.
  refine (request_round_trip Samples.parse Samples.loaded Samples.full_request_text
            "CreateOrder" _ _ _ _ eq_refl eq_refl eq_refl eq_refl _ _).
  - intro v. simpl. tauto.
  - left. discriminate.
Defined.

(** C8: [Ping] is loaded with an empty input field list, and a request
    whose [PingRequest] wrapper holds exactly those (no) fields is parsed to
    an empty wrapper.  The wrapper is in the body, yet the test
    [!responseBody] takes the empty string for an absent wrapper: the
    validator answers that the wrapper was not found, with
    [valid = false]. *)
Lemma empty_request_round_trip_fails :
  JsMap.get (JStr "Ping") (Wsdl.operations Samples.loaded)
  = Some {| Wsdl.op_name := JStr "Ping"; Wsdl.soapAction := JStr "";
            Wsdl.input := []; Wsdl.output := [] |}
  /\ Samples.parse Samples.empty_ping_text
     = Ok (Samples.envelope "PingRequest" (JStr ""))
  /\ object_keys (JStr "") = Ok []
  /\ Wsdl.validateSoapBody Samples.parse Samples.loaded Samples.empty_ping_text
       "Ping" Wsdl.DirInput
     = Ok {| Wsdl.valid := false;
             Wsdl.missingElements :=
               [JStr "PingRequest element not found in SOAP Body"];
             Wsdl.unexpectedElements := [];
             Wsdl.operation := "Ping" |}.
Proof. repeat split. Qed.

(** ** The drift checks *)

Section DriftLoops.

Context {A : Type} (absent : A -> bool) (report : A -> string).

(** A loop that flags and reports every element that passes [absent]. *)
Lemma flag_loop (xs : list A) (r : Drift.DriftResult) :
  fold_left (fun r x => if absent x then Drift.push_drift r (report x) else r) xs r
  = {| Drift.schema := Drift.schema r;
       Drift.drifted := Drift.drifted r || existsb absent xs;
       Drift.details := Drift.details r ++ map report (filter absent xs) |}.
Proof.
  revert r. induction xs as [| x rest IH]; intro r; simpl.
  - destruct r; simpl. now rewrite orb_false_r, app_nil_r.
  - rewrite IH. destruct (absent x); simpl.
    + now rewrite <- app_assoc, orb_true_r.
    + reflexivity.
Qed.

End DriftLoops.

Lemma compare_operations_eq (r : Drift.DriftResult) (localOps liveOps : list JsVal) :
  Drift.compare_operations r localOps liveOps
  = let d := Drift.drifted r
             || existsb (fun op => negb (includes liveOps op)) localOps
             || existsb (fun op => negb (includes localOps op)) liveOps in
    {| Drift.schema := Drift.schema r;
       Drift.drifted := d;
       Drift.details :=
         Drift.details r
         ++ map (fun op => ("Operation REMOVED from live WSDL: " ++ to_string op)%string)
              (filter (fun op => negb (includes liveOps op)) localOps)
         ++ map (fun op => ("New operation in live WSDL: " ++ to_string op)%string)
              (filter (fun op => negb (includes localOps op)) liveOps)
         ++ (if d then [] else ["All operations match"]) |}.
Proof.
  unfold Drift.compare_operations.
  rewrite (flag_loop (fun op => negb (includes liveOps op))
             (fun op => ("Operation REMOVED from live WSDL: " ++ to_string op)%string)).
  rewrite (flag_loop (fun op => negb (includes localOps op))
             (fun op => ("New operation in live WSDL: " ++ to_string op)%string)).
  simpl.
  destruct (Drift.drifted r || existsb _ localOps || existsb _ liveOps); simpl.
  - now rewrite app_nil_r, app_assoc.
  - unfold Drift.push. simpl. now rewrite <- !app_assoc.
Qed.

Lemma compare_required_eq (r : Drift.DriftResult) (localRequired liveRequired : list string) :
  Drift.compare_required r localRequired liveRequired
  = let d := Drift.drifted r
             || existsb (fun f => negb (includes_str liveRequired f)) localRequired
             || existsb (fun f => negb (includes_str localRequired f)) liveRequired in
    {| Drift.schema := Drift.schema r;
       Drift.drifted := d;
       Drift.details :=
         Drift.details r
         ++ map (fun f => ("Required field removed from live schema: " ++ f)%string)
              (filter (fun f => negb (includes_str liveRequired f)) localRequired)
         ++ map (fun f => ("New required field in live schema: " ++ f)%string)
              (filter (fun f => negb (includes_str localRequired f)) liveRequired)
         ++ (if d then [] else ["Message schemas match"]) |}.
Proof.
  unfold Drift.compare_required.
  rewrite (flag_loop (fun f => negb (includes_str liveRequired f))
             (fun f => ("Required field removed from live schema: " ++ f)%string)).
  rewrite (flag_loop (fun f => negb (includes_str localRequired f))
             (fun f => ("New required field in live schema: " ++ f)%string)).
  simpl.
  destruct (Drift.drifted r || existsb _ localRequired || existsb _ liveRequired); simpl.
  - now rewrite app_nil_r, app_assoc.
  - unfold Drift.push. simpl. now rewrite <- !app_assoc.
Qed.

Lemma existsb_none {A : Type} (p : A -> bool) (xs : list A) :
  (forall x, In x xs -> p x = false) -> existsb p xs = false.
Proof.
  intro H. destruct (existsb p xs) eqn:E; [| reflexivity].
  apply existsb_exists in E as [x [Hx Hp]]. now rewrite (H x Hx) in Hp.
Qed.








(** C3 (as amended): in the WSDL check a live endpoint that answers with a
    status that is not a success gives [drifted = true] and a detail that
    reports the status; in the message check a schema endpoint that answers
    with a status that is not a success gives [drifted = false] and the
    advisory detail that a manual check is required. *)
Theorem unsuccessful_response (parse : string -> outcome JsVal)
    (parseSchema : string -> outcome Drift.MessageSchema)
    (resolve : string -> string) (w : Drift.World) :
  (forall (app2Url : string) (liveResponse : Drift.Response),
      Drift.existsSync w (resolve "schemas/wsdl/order-service.wsdl") = true ->
      Drift.env_value (Drift.APP2_STAGING_URL w) = Some app2Url ->
      Drift.fetch w (app2Url ++ "/ws/orders?wsdl") = Ok liveResponse ->
      Drift.ok liveResponse = false ->
      Drift.checkWsdlDrift parse resolve w
      = {| Drift.schema := "App2 WSDL (order-service.wsdl)";
           Drift.drifted := true;
           Drift.details :=
             [("Failed to fetch live WSDL: HTTP "
               ++ to_string (Drift.status liveResponse))%string] |})
  /\ (forall (integrationLayerUrl : string) (schemaResponse : Drift.Response),
      Drift.env_value (Drift.INTEGRATION_LAYER_URL w) = Some integrationLayerUrl ->
      Drift.fetch w (integrationLayerUrl ++ "/api/schemas/order-events") = Ok schemaResponse ->
      Drift.ok schemaResponse = false ->
      Drift.checkMessageSchemaDrift parseSchema resolve w
      = {| Drift.schema := "Integration Layer Message Schemas";
           Drift.drifted := false;
           Drift.details :=
             ["Integration Layer does not expose schemas via API — manual check required"] |}).
Proof.
  split.
  - intros app2Url liveResponse Hex Henv Hfetch Hok.
    unfold Drift.checkWsdlDrift, Drift.wsdl_attempt.
    rewrite Hex, Henv, Hfetch. simpl. now rewrite Hok.
  - intros integrationLayerUrl schemaResponse Henv Hfetch Hok.
    unfold Drift.checkMessageSchemaDrift, Drift.message_attempt.
    rewrite Henv, Hfetch. simpl. now rewrite Hok.
Qed.

Lemma unsuccessful_response_witness :
  Drift.checkWsdlDrift Samples.drift_parse Samples.resolve
    (Samples.world (Ok (Samples.response "503" "")) (Ok (Samples.response "404" "")))
  = {| Drift.schema := "App2 WSDL (order-service.wsdl)";
       Drift.drifted := true;
       Drift.details := ["Failed to fetch live WSDL: HTTP 503"] |}
  /\ Drift.checkMessageSchemaDrift Samples.parseSchema Samples.resolve
       (Samples.world (Ok (Samples.response "503" "")) (Ok (Samples.response "404" "")))
     = {| Drift.schema := "Integration Layer Message Schemas";
          Drift.drifted := false;
          Drift.details :=
            ["Integration Layer does not expose schemas via API — manual check required"] |}.
Proof.
  pose proof (unsuccessful_response Samples.drift_parse Samples.parseSchema
                Samples.resolve
                (Samples.world (Ok (Samples.response "503" ""))
                   (Ok (Samples.response "404" "")))) as [Hwsdl Hmessage].
  split.
  - exact (Hwsdl _ _ eq_refl eq_refl eq_refl eq_refl).
  - exact (Hmessage _ _ eq_refl eq_refl eq_refl).
Defined.

(** A [fetch] that rejects is caught: the WSDL check reports the error and
    leaves [drifted] as it was initialised. *)
Lemma checkWsdlDrift_fetch_throws (parse : string -> outcome JsVal)
    (resolve : string -> string) (w : Drift.World) (app2Url message : string) :
  Drift.existsSync w (resolve "schemas/wsdl/order-service.wsdl") = true ->
  Drift.env_value (Drift.APP2_STAGING_URL w) = Some app2Url ->
  Drift.fetch w (app2Url ++ "/ws/orders?wsdl") = Throw message ->
  Drift.checkWsdlDrift parse resolve w
  = {| Drift.schema := "App2 WSDL (order-service.wsdl)";
       Drift.drifted := false;
       Drift.details := [("Error checking WSDL drift: " ++ message)%string] |}.
Proof.
  intros Hex Henv Hfetch.
  unfold Drift.checkWsdlDrift, Drift.wsdl_attempt.
  now rewrite Hex, Henv, Hfetch.
Qed.

(** C3, as stated, fails: with the baseline on disk and the URL set, a live
    endpoint that cannot be reached makes [fetch] reject, and the WSDL check
    returns [drifted = false]. *)
Lemma unreachable_endpoint_is_not_drift :
  Drift.checkWsdlDrift Samples.drift_parse Samples.resolve
    (Samples.world (Throw "fetch failed") (Throw "fetch failed"))
  = {| Drift.schema := "App2 WSDL (order-service.wsdl)";
       Drift.drifted := false;
       Drift.details := ["Error checking WSDL drift: fetch failed"] |}.
Proof. reflexivity. Qed.

(** ** The JSON Schema registry *)

(** C7: [validate(id, payload)] throws, with a message that lists the
    registered ids, when [id] is not registered; when a compiled function is
    registered under [id] it returns a result whose [schemaId] is [id],
    whose [valid] is the verdict of that function on the payload, and whose
    [errors] is [null] when valid and the function's violation list
    otherwise. *)
Theorem validate_contract (Ajv : Type) (this : Schema.SchemaValidator Ajv)
    (schemaId : string) (payload : JsVal) :
  (JsMap.get (JStr schemaId) (Schema.validators Ajv this) = None ->
   Schema.validate Ajv this schemaId payload
   = Throw ("Schema not loaded: " ++ schemaId ++ ". Available: "
            ++ join ", " (JsMap.keys (Schema.validators Ajv this))))
  /\ (forall compiled,
        JsMap.get (JStr schemaId) (Schema.validators Ajv this) = Some compiled ->
        exists result this',
          Schema.validate Ajv this schemaId payload = Ok (result, this')
          /\ Schema.schemaId result = schemaId
          /\ Schema.valid result = fst (Schema.call compiled payload)
          /\ Schema.errors result
             = if fst (Schema.call compiled payload) then None
               else snd (Schema.call compiled payload)).
Proof.
  split.
  - intro H. unfold Schema.validate. now rewrite H.
  - intros compiled H. unfold Schema.validate, Schema.invoke. rewrite H.
    destruct (Schema.call compiled payload) as [verdict errs].
    eexists; eexists. split; [reflexivity |]. simpl. auto.
Qed.

Lemma validate_contract_witness :
  Schema.validate unit Samples.registry "order-updated-event" Samples.complete_event
  = Throw "Schema not loaded: order-updated-event. Available: order-created-event"
  /\ exists result this',
       Schema.validate unit Samples.registry "order-created-event"
         Samples.event_without_id = Ok (result, this')
       /\ Schema.schemaId result = "order-created-event"
       /\ Schema.valid result = false
       /\ Schema.errors result = Some [Samples.violation (JStr "eventId")].
Proof.
  split.
  - exact (proj1 (validate_contract unit Samples.registry "order-updated-event"
                    Samples.complete_event) eq_refl).
  - exact (proj2 (validate_contract unit Samples.registry "order-created-event"
                    Samples.event_without_id) _ eq_refl).
Defined.

(** A call to [validate] that returns leaves, under the same id, a function
    that behaves as before; only its [errors] property is new. *)
Lemma validate_keeps_function (Ajv : Type) (this this' : Schema.SchemaValidator Ajv)
    (schemaId : string) (payload : JsVal) (result : Schema.ValidationResult) :
  Schema.validate Ajv this schemaId payload = Ok (result, this') ->
  exists compiled compiled',
    JsMap.get (JStr schemaId) (Schema.validators Ajv this) = Some compiled
    /\ JsMap.get (JStr schemaId) (Schema.validators Ajv this') = Some compiled'
    /\ Schema.call compiled' = Schema.call compiled.
Proof.
  unfold Schema.validate, Schema.invoke.
  destruct (JsMap.get _ _) as [compiled |] eqn:E; [| discriminate].
  destruct (Schema.call compiled payload) as [verdict errs] eqn:Ecall.
  intro H. injection H as _ <-.
  eexists; eexists. split; [reflexivity |]. split.
  - simpl. apply get_set_same. simpl. apply String.eqb_refl.
  - reflexivity.
Qed.

Lemma validate_by_function (Ajv : Type) (this this' : Schema.SchemaValidator Ajv)
    (schemaId : string) (payload : JsVal)
    (compiled compiled' : Schema.ValidateFunction) :
  JsMap.get (JStr schemaId) (Schema.validators Ajv this) = Some compiled ->
  JsMap.get (JStr schemaId) (Schema.validators Ajv this') = Some compiled' ->
  Schema.call compiled payload = Schema.call compiled' payload ->
  exists result next next',
    Schema.validate Ajv this schemaId payload = Ok (result, next)
    /\ Schema.validate Ajv this' schemaId payload = Ok (result, next').
Proof.
  intros H H' Hcall. unfold Schema.validate, Schema.invoke.
  rewrite H, H', Hcall.
  destruct (Schema.call compiled' payload) as [verdict errs].
  eexists; eexists; eexists. split; reflexivity.
Qed.

(** C9: a second [validate(id, payload)] right after a first one that
    returned returns the same result ([valid], [errors] and [schemaId]
    alike); and two registries that hold, under [id], compiled functions
    with the same behaviour on [payload] return the same result, whatever
    else they hold. *)
Theorem validate_deterministic (Ajv : Type) (schemaId : string) (payload : JsVal) :
  (forall (this this1 : Schema.SchemaValidator Ajv) (first : Schema.ValidationResult),
      Schema.validate Ajv this schemaId payload = Ok (first, this1) ->
      exists this2, Schema.validate Ajv this1 schemaId payload = Ok (first, this2))
  /\ (forall (this this' : Schema.SchemaValidator Ajv)
            (compiled compiled' : Schema.ValidateFunction),
        JsMap.get (JStr schemaId) (Schema.validators Ajv this) = Some compiled ->
        JsMap.get (JStr schemaId) (Schema.validators Ajv this') = Some compiled' ->
        Schema.call compiled payload = Schema.call compiled' payload ->
        exists result next next',
          Schema.validate Ajv this schemaId payload = Ok (result, next)
          /\ Schema.validate Ajv this' schemaId payload = Ok (result, next')).
Proof.
  split.
  - intros this this1 first H.
    destruct (validate_keeps_function Ajv this this1 schemaId payload first H)
      as [compiled [compiled' [Hget [Hget' Hcall]]]].
    destruct (validate_by_function Ajv this this1 schemaId payload compiled compiled'
                Hget Hget' (eq_sym (f_equal (fun f => f payload) Hcall)))
      as [result [next [next' [H1 H2]]]].
    rewrite H in H1. injection H1 as -> _. now exists next'.
  - intros this this' compiled compiled'. apply validate_by_function.
Qed.

Lemma validate_deterministic_witness :
  exists this1 this2,
    Schema.validate unit Samples.registry "order-created-event" Samples.event_without_id
    = Ok ({| Schema.valid := false;
             Schema.errors := Some [Samples.violation (JStr "eventId")];
             Schema.schemaId := "order-created-event" |}, this1)
    /\ Schema.validate unit this1 "order-created-event" Samples.event_without_id
       = Ok ({| Schema.valid := false;
                Schema.errors := Some [Samples.violation (JStr "eventId")];
                Schema.schemaId := "order-created-event" |}, this2).
Proof.
  eexists.
  destruct (proj1 (validate_deterministic unit "order-created-event"
                     Samples.event_without_id)
              Samples.registry _ _ eq_refl) as [this2 H2].
  exists this2. split; [reflexivity | exact H2].
Defined.

(** ** Schema identifiers *)

Lemma resolve_id_not_empty (schemaId : option string) (schemaContent : JsVal)
    (absolutePath : string) (id : JsVal) :
  absolutePath <> "" ->
  Schema.resolve_id schemaId schemaContent absolutePath = Ok id ->
  truthy id = true.
Proof.
  intros Hpath. unfold Schema.resolve_id.
  destruct (truthy (Schema.optional schemaId)) eqn:Et.
  - intro H. injection H as <-. exact Et.
  - destruct (get_prop schemaContent "$id") as [declared |]; simpl; [| discriminate].
    intro H. injection H as <-. unfold or_else.
    destruct (truthy declared) eqn:Ed; [exact Ed |].
    simpl. apply negb_true_iff. now apply String.eqb_neq.
Qed.

Section Registry.

Variable Ajv : Type.
Variable compile : Ajv -> JsVal -> outcome (Schema.ValidateFunction * Ajv).
Variable resolve : string -> string.
Variable path_join : string -> string -> string.
Variable readJson : string -> outcome JsVal.
Variable readdirSync : string -> outcome (list string).

(** [path.resolve] returns an absolute path, which is never empty. *)
Hypothesis resolve_not_empty : forall p, resolve p <> "".

Lemma loadSchema_no_empty_id (this this' : Schema.SchemaValidator Ajv)
    (schemaPath : string) (schemaId : option string) :
  Schema.no_empty_id Ajv this ->
  Schema.loadSchema Ajv compile resolve readJson this schemaPath schemaId = Ok this' ->
  Schema.no_empty_id Ajv this'.
Proof.
  unfold Schema.no_empty_id, Schema.loadSchema. intro Hinv.
  destruct (readJson (resolve schemaPath)) as [schemaContent |]; simpl; [| discriminate].
  destruct (Schema.resolve_id schemaId schemaContent (resolve schemaPath))
    as [id |] eqn:Eid; simpl; [| discriminate].
  destruct (compile (Schema.ajv Ajv this) schemaContent) as [compiled |]; simpl;
    [| discriminate].
  intro H. injection H as <-. simpl.
  rewrite get_set_other; [exact Hinv |].
  intros ->. apply resolve_id_not_empty in Eid; [discriminate | apply resolve_not_empty].
Qed.

Lemma for_each_invariant {S A : Type} (P : S -> Prop) (body : S -> A -> outcome S) :
  (forall s x s', P s -> body s x = Ok s' -> P s') ->
  forall xs s s', P s -> for_each body xs s = Ok s' -> P s'.
Proof.
  intros Hstep. induction xs as [| x rest IH]; simpl; intros s s' Hs H.
  - now injection H as <-.
  - destruct (body s x) as [s1 |] eqn:E; simpl in H; [| discriminate].
    exact (IH s1 s' (Hstep s x s1 Hs E) H).
Qed.

Lemma built_no_empty_id (this : Schema.SchemaValidator Ajv) :
  Schema.built Ajv compile resolve path_join readJson readdirSync this ->
  Schema.no_empty_id Ajv this.
Proof.
  induction 1 as [fresh
                 | this schemaPath schemaId this' _ IH Hload
                 | this schemasDir this' _ IH Hload
                 | this schemasDir listing loaded rest this' _ IH _ _ Hloop
                 | this schemaId payload result this' _ IH Hvalidate
                 | this instance _ IH].
  - reflexivity.
  - exact (loadSchema_no_empty_id this this' schemaPath schemaId IH Hload).
  - unfold Schema.loadAllMessageSchemas in Hload.
    destruct (readdirSync (resolve schemasDir)) as [listing |]; simpl in Hload;
      [| discriminate].
    refine (for_each_invariant (Schema.no_empty_id Ajv) _ _ _ this this' IH Hload).
    intros s file s' Hs Hstep.
    exact (loadSchema_no_empty_id s s' _ _ Hs Hstep).
  - refine (for_each_invariant (Schema.no_empty_id Ajv) _ _ _ this this' IH Hloop).
    intros s file s' Hs Hstep.
    exact (loadSchema_no_empty_id s s' _ _ Hs Hstep).
  - unfold Schema.no_empty_id in *. unfold Schema.validate, Schema.invoke in Hvalidate.
    destruct (JsMap.get (JStr schemaId) _) as [compiled |] eqn:E; [| discriminate].
    destruct (Schema.call compiled payload) as [verdict errs].
    injection Hvalidate as _ <-. simpl.
    rewrite get_set_other; [exact IH |].
    intro Heq. injection Heq as ->. rewrite IH in E. discriminate.
  - exact IH.
Qed.

End Registry.

(** C10: [loadSchema] ignores a caller-supplied id that is the empty string
    and resolves the id as if none had been given (the document's [$id],
    then the absolute path); a [$id] that is the empty string falls through
    to the absolute path; the id under which [loadSchema] registers is never
    the empty string; and no registry built from a fresh one by the public
    methods holds an entry under the empty string. *)
Theorem empty_id_is_never_registered (Ajv : Type)
    (compile : Ajv -> JsVal -> outcome (Schema.ValidateFunction * Ajv))
    (resolve : string -> string) (path_join : string -> string -> string)
    (readJson : string -> outcome JsVal)
    (readdirSync : string -> outcome (list string)) :
  (forall p, resolve p <> "") ->
  (forall this schemaPath,
      Schema.loadSchema Ajv compile resolve readJson this schemaPath (Some "")
      = Schema.loadSchema Ajv compile resolve readJson this schemaPath None)
  /\ (forall schemaContent absolutePath,
        Schema.resolve_id (Some "") schemaContent absolutePath
        = (declared <- get_prop schemaContent "$id" ;;
           Ok (if truthy declared then declared else JStr absolutePath)))
  /\ (forall schemaId schemaContent absolutePath,
        truthy (Schema.optional schemaId) = false ->
        get_prop schemaContent "$id" = Ok (JStr "") ->
        Schema.resolve_id schemaId schemaContent absolutePath = Ok (JStr absolutePath))
  /\ (forall schemaId schemaContent schemaPath id,
        Schema.resolve_id schemaId schemaContent (resolve schemaPath) = Ok id ->
        id <> JStr "")
  /\ (forall this,
        Schema.built Ajv compile resolve path_join readJson readdirSync this ->
        JsMap.get (JStr "") (Schema.validators Ajv this) = None).
Proof.
  intro Hresolve. repeat split.
  - intros schemaId schemaContent absolutePath Hid Hdeclared.
    unfold Schema.resolve_id. now rewrite Hid, Hdeclared.
  - intros schemaId schemaContent schemaPath id Hid ->.
    apply resolve_id_not_empty in Hid; [discriminate | apply Hresolve].
  - intros this Hbuilt.
    exact (built_no_empty_id Ajv compile resolve path_join readJson readdirSync
             Hresolve this Hbuilt).
Qed.

Lemma sample_resolve_not_empty (p : string) : Samples.resolve p <> "".
Proof.
  unfold Samples.resolve. destruct p as [| c rest]; [discriminate |].
  destruct (String.prefix "/" (String c rest)); discriminate.
Qed.

Lemma empty_id_is_never_registered_witness :
  Schema.loadSchema unit Samples.compile Samples.resolve Samples.readJson
    Samples.registry "schemas/messages/anonymous.schema.json" (Some "")
  = Schema.loadSchema unit Samples.compile Samples.resolve Samples.readJson
      Samples.registry "schemas/messages/anonymous.schema.json" None
  /\ JsMap.get (JStr "") (Schema.validators unit Samples.registry) = None.
Proof.
  pose proof (empty_id_is_never_registered unit Samples.compile Samples.resolve
                Samples.path_join Samples.readJson Samples.readdirSync
                sample_resolve_not_empty) as [Hignored [_ [_ [_ Hbuilt]]]].
  split.
  - apply Hignored.
  - apply Hbuilt.
    apply (Schema.built_loadSchema unit Samples.compile Samples.resolve
             Samples.path_join Samples.readJson Samples.readdirSync
             (Schema.new_SchemaValidator unit tt)
             "schemas/messages/order-created-event.schema.json"
             (Some "order-created-event")).
    + apply Schema.built_new.
    + reflexivity.
Defined.

(** ** Further properties of the three components *)

(** X1: when the wrapper is found and lacks a child for a required field of
    the operation, [validateSoapBody] returns [valid = false] and the
    field's name is in [missingElements]. *)
Theorem missing_required_field_is_reported (parse : string -> outcome JsVal)
    (this : Wsdl.WsdlValidator) (xml operationName : string)
    (direction : Wsdl.Direction) (O : Wsdl.WsdlOperation)
    (parsed envelope : JsVal) (actualKeys : list string)
    (f : Wsdl.WsdlElement) (k : string) :
  JsMap.get (JStr operationName) (Wsdl.operations this) = Some O ->
  parse xml = Ok parsed ->
  get_prop parsed "Envelope" = Ok envelope ->
  truthy (read (read envelope "Body") (Wsdl.wrapper_name operationName direction)) = true ->
  object_keys (read (read envelope "Body") (Wsdl.wrapper_name operationName direction))
  = Ok actualKeys ->
  In f (Wsdl.expected_fields O direction) ->
  Wsdl.required f = true ->
  Wsdl.name f = JStr k ->
  ~ In k actualKeys ->
  exists r,
    Wsdl.validateSoapBody parse this xml operationName direction = Ok r
    /\ Wsdl.valid r = false
    /\ In (JStr k) (Wsdl.missingElements r).
Proof.
  intros Hget Hparse Henv Hwrapper Hkeys Hf Hreq Hname Habsent.
  unfold Wsdl.validateSoapBody. rewrite Hget, Hparse. simpl. rewrite Henv. simpl.
  rewrite (truthy_read _ _ Hwrapper). simpl. rewrite Hwrapper. simpl.
  rewrite Hkeys. simpl. eexists. split; [reflexivity |]. simpl.
  assert (Hin : In (JStr k) (Wsdl.missing_fields (Wsdl.expected_fields O direction) actualKeys)).
  { unfold Wsdl.missing_fields. rewrite <- Hname. apply in_map, filter_In.
    split; [assumption |]. rewrite Hreq, Hname. simpl.
    apply negb_true_iff.
    destruct (includes (map JStr actualKeys) (JStr k)) eqn:E; [| reflexivity].
    apply includes_strings in E. contradiction. }
  split; [| exact Hin].
  destruct (Wsdl.missing_fields _ _); [destruct Hin | reflexivity].
Qed.

Lemma missing_required_field_is_reported_witness :
  exists r,
    Wsdl.validateSoapBody Samples.parse Samples.loaded Samples.incomplete_request_text
      "CreateOrder" Wsdl.DirInput = Ok r
    /\ Wsdl.valid r = false
    /\ In (JStr "shippingAddress") (Wsdl.missingElements r).
Proof.
  refine (missing_required_field_is_reported Samples.parse Samples.loaded
            Samples.incomplete_request_text "CreateOrder" Wsdl.DirInput _ _ _ _
            {| Wsdl.name := JStr "shippingAddress"; Wsdl.type := JStr "tns:Address";
               Wsdl.required := true |}
            "shippingAddress" eq_refl eq_refl eq_refl eq_refl eq_refl _ eq_refl eq_refl _).
  - simpl. tauto.
  - simpl. intuition discriminate.
Defined.

(** X2: the WSDL check reports drift when the local baseline file does not
    exist; with the baseline there and [APP2_STAGING_URL] unset or empty it
    skips the live fetch and reports no drift; the message check skips the
    live fetch and reports no drift when [INTEGRATION_LAYER_URL] is unset or
    empty. *)
Theorem drift_check_without_inputs (parse : string -> outcome JsVal)
    (parseSchema : string -> outcome Drift.MessageSchema)
    (resolve : string -> string) (w : Drift.World) :
  (Drift.existsSync w (resolve "schemas/wsdl/order-service.wsdl") = false ->
   Drift.checkWsdlDrift parse resolve w
   = {| Drift.schema := "App2 WSDL (order-service.wsdl)";
        Drift.drifted := true;
        Drift.details := ["Local WSDL file not found"] |})
  /\ (Drift.existsSync w (resolve "schemas/wsdl/order-service.wsdl") = true ->
      Drift.env_value (Drift.APP2_STAGING_URL w) = None ->
      Drift.checkWsdlDrift parse resolve w
      = {| Drift.schema := "App2 WSDL (order-service.wsdl)";
           Drift.drifted := false;
           Drift.details := ["APP2_STAGING_URL not set — skipping live WSDL fetch"] |})
  /\ (Drift.env_value (Drift.INTEGRATION_LAYER_URL w) = None ->
      Drift.checkMessageSchemaDrift parseSchema resolve w
      = {| Drift.schema := "Integration Layer Message Schemas";
           Drift.drifted := false;
           Drift.details :=
             ["INTEGRATION_LAYER_URL not set — skipping live schema fetch"] |}).
Proof.
  repeat split.
  - intro Hex. unfold Drift.checkWsdlDrift. now rewrite Hex.
  - intros Hex Henv. unfold Drift.checkWsdlDrift. now rewrite Hex, Henv.
  - intro Henv. unfold Drift.checkMessageSchemaDrift. now rewrite Henv.
Qed.

Lemma drift_check_without_inputs_witness :
  Drift.checkWsdlDrift Samples.drift_parse Samples.resolve
    {| Drift.existsSync := fun _ => false;
       Drift.readFileSync := fun _ => Throw "ENOENT: no such file or directory";
       Drift.APP2_STAGING_URL := Some "";
       Drift.INTEGRATION_LAYER_URL := None;
       Drift.fetch := fun _ => Throw "fetch failed" |}
  = {| Drift.schema := "App2 WSDL (order-service.wsdl)";
       Drift.drifted := true;
       Drift.details := ["Local WSDL file not found"] |}
  /\ Drift.checkMessageSchemaDrift Samples.parseSchema Samples.resolve
       {| Drift.existsSync := fun _ => false;
          Drift.readFileSync := fun _ => Throw "ENOENT: no such file or directory";
          Drift.APP2_STAGING_URL := Some "";
          Drift.INTEGRATION_LAYER_URL := None;
          Drift.fetch := fun _ => Throw "fetch failed" |}
     = {| Drift.schema := "Integration Layer Message Schemas";
          Drift.drifted := false;
          Drift.details :=
            ["INTEGRATION_LAYER_URL not set — skipping live schema fetch"] |}.
Proof.
  pose proof (drift_check_without_inputs Samples.drift_parse Samples.parseSchema
                Samples.resolve
                {| Drift.existsSync := fun _ => false;
                   Drift.readFileSync := fun _ => Throw "ENOENT: no such file or directory";
                   Drift.APP2_STAGING_URL := Some "";
                   Drift.INTEGRATION_LAYER_URL := None;
                   Drift.fetch := fun _ => Throw "fetch failed" |})
    as [Hbaseline [_ Hmessage]].
  split.
  - exact (Hbaseline eq_refl).
  - exact (Hmessage eq_refl).
Defined.

(** X3: for a registered id, [assertValid] returns when the compiled
    function accepts the payload, and throws an error that joins the path
    and message of every violation when it rejects the payload. *)
Theorem assertValid_contract (Ajv : Type) (this : Schema.SchemaValidator Ajv)
    (schemaId : string) (payload : JsVal) (compiled : Schema.ValidateFunction) :
  JsMap.get (JStr schemaId) (Schema.validators Ajv this) = Some compiled ->
  (fst (Schema.call compiled payload) = true ->
   exists this', Schema.assertValid Ajv this schemaId payload = Ok this')
  /\ (fst (Schema.call compiled payload) = false ->
      Schema.assertValid Ajv this schemaId payload
      = Throw ("Schema validation failed for " ++ schemaId ++ ": "
               ++ match snd (Schema.call compiled payload) with
                  | Some es => String.concat "; " (map Schema.error_line es)
                  | None => "undefined"
                  end)).
Proof.
  intro Hget. unfold Schema.assertValid, Schema.validate, Schema.invoke. rewrite Hget.
  destruct (Schema.call compiled payload) as [verdict errs]. simpl.
  split; intros ->; simpl; [eexists |]; reflexivity.
Qed.

Lemma assertValid_contract_witness :
  Schema.assertValid unit Samples.registry "order-created-event" Samples.event_without_id
  = Throw "Schema validation failed for order-created-event:  must have required property 'eventId'".
Proof.
  exact (proj2 (assertValid_contract unit Samples.registry "order-created-event"
                  Samples.event_without_id _ eq_refl) eq_refl).
Defined.

(** ** The element table and the operation table *)

Lemma find_app {A : Type} (p : A -> bool) (xs ys : list A) :
  find p (xs ++ ys) = match find p xs with
                      | Some x => Some x
                      | None => find p ys
                      end.
Proof.
  induction xs as [| x rest IH]; simpl; [reflexivity |].
  destruct (p x); [reflexivity | exact IH].
Qed.

Lemma same_value_zero_str_refl (n : string) :
  same_value_zero (JStr n) (JStr n) = true.
Proof. simpl. apply String.eqb_refl. Qed.

Lemma same_value_zero_ne (k : JsVal) (n : string) :
  same_value_zero k (JStr n) = false -> k <> JStr n.
Proof. intros H ->. now rewrite same_value_zero_str_refl in H. Qed.

(** The loop of [extractElements]. *)
Lemma record_elements (n : string) (elements : list JsVal) (this : Wsdl.WsdlValidator) :
  n <> "" ->
  let this' :=
    fold_left
      (fun st element =>
         if truthy (read element "@_name")
         then {| Wsdl.operations := Wsdl.operations st;
                 Wsdl.rawElements :=
                   JsMap.set (read element "@_name") element (Wsdl.rawElements st) |}
         else st)
      elements this in
  Wsdl.operations this' = Wsdl.operations this
  /\ JsMap.get (JStr n) (Wsdl.rawElements this')
     = match find (fun e => same_value_zero (read e "@_name") (JStr n)) (rev elements) with
       | Some e => Some e
       | None => JsMap.get (JStr n) (Wsdl.rawElements this)
       end.
Proof.
  intro Hn. revert this. induction elements as [| e rest IH]; intro this; simpl.
  - split; reflexivity.
  - destruct (IH (if truthy (read e "@_name")
                  then {| Wsdl.operations := Wsdl.operations this;
                          Wsdl.rawElements :=
                            JsMap.set (read e "@_name") e (Wsdl.rawElements this) |}
                  else this)) as [Hops Hget].
    split.
    + rewrite Hops. now destruct (truthy (read e "@_name")).
    + rewrite Hget, find_app. simpl.
      destruct (find _ (rev rest)); [reflexivity |].
      destruct (same_value_zero (read e "@_name") (JStr n)) eqn:E.
      * apply same_value_zero_eq in E. rewrite E. simpl.
        assert (Ht : negb (n =? "") = true)
          by (apply negb_true_iff; now apply String.eqb_neq).
        rewrite Ht. simpl. apply get_set_same, same_value_zero_str_refl.
      * destruct (truthy (read e "@_name")); [| reflexivity].
        simpl. apply get_set_other. now apply same_value_zero_ne.
Qed.

Lemma falsy_has_no_element (v : JsVal) :
  truthy v = false -> read v "element" = JUndefined.
Proof.
  destruct v; simpl; try reflexivity; try discriminate.
  intro H. apply negb_false_iff, String.eqb_eq in H. subst. reflexivity.
Qed.

(** X4: [extractElements] leaves the operation table alone, and afterwards
    the element table answers a name that is not empty with the last
    top-level element of the schema that declares it, or, when the schema
    declares none, with what it held before. *)
Theorem extractElements_lookup (this this' : Wsdl.WsdlValidator) (parsed : JsVal)
    (n : string) :
  n <> "" ->
  Wsdl.extractElements this parsed = Ok this' ->
  Wsdl.operations this' = Wsdl.operations this
  /\ JsMap.get (JStr n) (Wsdl.rawElements this')
     = match find (fun e => same_value_zero (read e "@_name") (JStr n))
               (rev (as_array
                       (read (read (read (read parsed "definitions") "types") "schema")
                          "element"))) with
       | Some e => Some e
       | None => JsMap.get (JStr n) (Wsdl.rawElements this)
       end.
Proof.
  intros Hn. unfold Wsdl.extractElements, get_prop.
  destruct (nullish parsed); simpl; [discriminate |].
  destruct (truthy (read (read (read parsed "definitions") "types") "schema")) eqn:Es;
    simpl; intro H; injection H as <-.
  - exact (record_elements n _ this Hn).
  - split; [reflexivity |].
    now rewrite (falsy_has_no_element _ Es).
Qed.

Lemma extractElements_lookup_witness :
  exists this',
    Wsdl.extractElements Wsdl.new_WsdlValidator MoreSamples.ping_wsdl_tree = Ok this'
    /\ Wsdl.operations this' = JsMap.empty
    /\ JsMap.get (JStr "PingRequest") (Wsdl.rawElements this')
       = Some MoreSamples.second_declaration.
Proof.
  eexists. split; [reflexivity |].
  refine (extractElements_lookup Wsdl.new_WsdlValidator _ MoreSamples.ping_wsdl_tree
            "PingRequest" _ eq_refl).
  discriminate.
Defined.

Lemma map_each_named (items : list JsVal) :
  (forall item, In item items -> Wsdl.has_name item = true) ->
  map_each Wsdl.to_field items
  = Ok (map (fun item =>
               {| Wsdl.name := read item "@_name";
                  Wsdl.type := or_else (read item "@_type") (JStr "complex");
                  Wsdl.required :=
                    negb (strict_equals (read item "@_minOccurs") (JStr "0")) |})
            items).
Proof.
  induction items as [| item rest IH]; intro H; simpl; [reflexivity |].
  rewrite (to_field_named item (H item (or_introl eq_refl))). simpl.
  rewrite IH by (intros i Hi; apply H; now right). reflexivity.
Qed.

Lemma or_else_truthy (a b : JsVal) : truthy b = true -> truthy (or_else a b) = true.
Proof. intro Hb. unfold or_else. now destruct (truthy a) eqn:E. Qed.

(** X5: the field list of an element follows the sequence of the element:
    one descriptor for every item that has a name, in document order, items
    without a name left out; and no descriptor has an empty name or an
    empty type. *)
Theorem getElementFields_in_document_order (this : Wsdl.WsdlValidator)
    (elementName : string) (fields : list Wsdl.WsdlElement) :
  Wsdl.getElementFields this elementName = Ok fields ->
  (forall element,
      JsMap.get (JStr elementName) (Wsdl.rawElements this) = Some element ->
      truthy element = true ->
      truthy (Wsdl.sequence_of element) = true ->
      map Wsdl.name fields
      = map (fun item => read item "@_name")
          (filter Wsdl.has_name (as_array (Wsdl.sequence_of element))))
  /\ (forall f, In f fields ->
        truthy (Wsdl.name f) = true /\ truthy (Wsdl.type f) = true).
Proof.
  intro H. split.
  - intros element Hget Helement Hseq. revert H.
    unfold Wsdl.getElementFields. rewrite Hget, Helement, Hseq. simpl.
    rewrite map_each_named by (intros i Hi; now apply filter_In in Hi).
    intro H. injection H as <-. now rewrite map_map.
  - intros f Hf.
    destruct (getElementFields_item this elementName fields f H Hf)
      as [element [item [_ [_ [Hnamed Hfield]]]]].
    rewrite (to_field_named item Hnamed) in Hfield. injection Hfield as <-. simpl.
    split; [exact Hnamed | now apply or_else_truthy].
Qed.

Lemma getElementFields_in_document_order_witness :
  exists fields,
    Wsdl.getElementFields MoreSamples.ping_elements "PingRequest" = Ok fields
    /\ map Wsdl.name fields = [JStr "token"; JStr "ttl"].
Proof.
  eexists. split; [reflexivity |].
  exact (proj1 (getElementFields_in_document_order MoreSamples.ping_elements
                  "PingRequest" _ eq_refl)
           MoreSamples.second_declaration eq_refl eq_refl eq_refl).
Defined.

(** ** Operations after the second pass *)

Lemma getElementFields_same_table (a b : Wsdl.WsdlValidator) (elementName : string) :
  Wsdl.rawElements a = Wsdl.rawElements b ->
  Wsdl.getElementFields a elementName = Wsdl.getElementFields b elementName.
Proof. intro H. unfold Wsdl.getElementFields. now rewrite H. Qed.

Lemma add_operation_step (this this' : Wsdl.WsdlValidator) (op : JsVal) :
  Wsdl.add_operation this op = Ok this' ->
  Wsdl.rawElements this' = Wsdl.rawElements this
  /\ exists O,
       Wsdl.operations this' = JsMap.set (read op "@_name") O (Wsdl.operations this)
       /\ Wsdl.op_name O = read op "@_name"
       /\ Wsdl.getElementFields this (to_string (read op "@_name") ++ "Request")
          = Ok (Wsdl.input O)
       /\ Wsdl.getElementFields this (to_string (read op "@_name") ++ "Response")
          = Ok (Wsdl.output O).
Proof.
  unfold Wsdl.add_operation, get_prop.
  destruct (nullish op); simpl; [discriminate |].
  destruct (Wsdl.getElementFields this (to_string (read op "@_name") ++ "Request"))
    as [i |]; simpl; [| discriminate].
  destruct (Wsdl.getElementFields this (to_string (read op "@_name") ++ "Response"))
    as [o |]; simpl; [| discriminate].
  intro H. injection H as <-. simpl. split; [reflexivity |].
  eexists. split; [reflexivity |]. simpl. auto.
Qed.

Lemma record_operations (base : Wsdl.WsdlValidator) (n : string) (ops : list JsVal) :
  forall this this',
    Wsdl.rawElements this = Wsdl.rawElements base ->
    for_each Wsdl.add_operation ops this = Ok this' ->
    Wsdl.rawElements this' = Wsdl.rawElements base
    /\ ((exists O,
           JsMap.get (JStr n) (Wsdl.operations this) = Some O
           /\ Wsdl.op_name O = JStr n
           /\ Wsdl.getElementFields base (n ++ "Request") = Ok (Wsdl.input O)
           /\ Wsdl.getElementFields base (n ++ "Response") = Ok (Wsdl.output O))
        \/ (exists op, In op ops /\ read op "@_name" = JStr n) ->
        exists O,
          JsMap.get (JStr n) (Wsdl.operations this') = Some O
          /\ Wsdl.op_name O = JStr n
          /\ Wsdl.getElementFields base (n ++ "Request") = Ok (Wsdl.input O)
          /\ Wsdl.getElementFields base (n ++ "Response") = Ok (Wsdl.output O)).
Proof.
  induction ops as [| op rest IH]; simpl; intros this this' Hraw H.
  - injection H as <-. split; [exact Hraw |].
    intros [Hrec | [op [[] _]]]. exact Hrec.
  - destruct (Wsdl.add_operation this op) as [next |] eqn:Estep; simpl in H;
      [| discriminate].
    destruct (add_operation_step this next op Estep)
      as [Hnext [O [Hops [Hname [Hin Hout]]]]].
    destruct (IH next this' (eq_trans Hnext Hraw) H) as [Hraw' Hkeep].
    split; [exact Hraw' |]. intro Hcase. apply Hkeep.
    destruct (same_value_zero (read op "@_name") (JStr n)) eqn:E.
    + left. apply same_value_zero_eq in E. rewrite E in *. simpl in Hin, Hout.
      exists O. rewrite Hops.
      rewrite (getElementFields_same_table this base _ Hraw) in Hin.
      rewrite (getElementFields_same_table this base _ Hraw) in Hout.
      split; [apply get_set_same, same_value_zero_str_refl | auto].
    + apply same_value_zero_ne in E.
      destruct Hcase as [[O0 [Hget HO0]] | [op0 [[<- | Hin0] Hname0]]].
      * left. exists O0. rewrite Hops, get_set_other by exact E. auto.
      * contradiction.
      * right. exists op0. auto.
Qed.

(** X6: when [extractOperations] returns, the element table is as it was,
    and every operation of the binding that has a string name is in the
    operation table under that name, with the field lists of the elements
    [{name}Request] and [{name}Response]. *)
Theorem extractOperations_registers (this this' : Wsdl.WsdlValidator)
    (parsed op : JsVal) (n : string) :
  Wsdl.extractOperations this parsed = Ok this' ->
  truthy (read (read parsed "definitions") "binding") = true ->
  In op (as_array (read (read (read parsed "definitions") "binding") "operation")) ->
  read op "@_name" = JStr n ->
  Wsdl.rawElements this' = Wsdl.rawElements this
  /\ exists O,
       JsMap.get (JStr n) (Wsdl.operations this') = Some O
       /\ Wsdl.op_name O = JStr n
       /\ Wsdl.getElementFields this (n ++ "Request") = Ok (Wsdl.input O)
       /\ Wsdl.getElementFields this (n ++ "Response") = Ok (Wsdl.output O).
Proof.
  unfold Wsdl.extractOperations, get_prop.
  destruct (nullish parsed); simpl; [discriminate |].
  intros H Hbinding Hop Hname. rewrite Hbinding in H. simpl in H.
  destruct (record_operations this n _ this this' eq_refl H) as [Hraw Hrec].
  split; [exact Hraw |]. apply Hrec. right. exists op. auto.
Qed.

Lemma extractOperations_registers_witness :
  exists this',
    Wsdl.extractOperations MoreSamples.ping_elements MoreSamples.ping_wsdl_tree = Ok this'
    /\ Wsdl.rawElements this' = Wsdl.rawElements MoreSamples.ping_elements
    /\ exists O,
         JsMap.get (JStr "Ping") (Wsdl.operations this') = Some O
         /\ Wsdl.op_name O = JStr "Ping"
         /\ Wsdl.getElementFields MoreSamples.ping_elements "PingRequest"
            = Ok (Wsdl.input O)
         /\ Wsdl.getElementFields MoreSamples.ping_elements "PingResponse"
            = Ok (Wsdl.output O).
Proof.
  eexists. split; [reflexivity |].
  refine (extractOperations_registers MoreSamples.ping_elements _
            MoreSamples.ping_wsdl_tree (JObj [("@_name", JStr "Ping")]) "Ping"
            eq_refl eq_refl _ eq_refl).
  simpl. tauto.
Defined.

(** ** What a validation result says *)

(** The last return of [validateSoapBody]: the operation is known and the
    wrapper is found. *)
Lemma validateSoapBody_compared (parse : string -> outcome JsVal)
    (this : Wsdl.WsdlValidator) (xml operationName : string)
    (direction : Wsdl.Direction) (O : Wsdl.WsdlOperation)
    (parsed envelope : JsVal) (actualKeys : list string) :
  JsMap.get (JStr operationName) (Wsdl.operations this) = Some O ->
  parse xml = Ok parsed ->
  get_prop parsed "Envelope" = Ok envelope ->
  truthy (read (read envelope "Body") (Wsdl.wrapper_name operationName direction)) = true ->
  object_keys (read (read envelope "Body") (Wsdl.wrapper_name operationName direction))
  = Ok actualKeys ->
  Wsdl.validateSoapBody parse this xml operationName direction
  = Ok {| Wsdl.valid :=
            Nat.eqb (length (Wsdl.missing_fields (Wsdl.expected_fields O direction)
                               actualKeys)) 0;
          Wsdl.missingElements :=
            Wsdl.missing_fields (Wsdl.expected_fields O direction) actualKeys;
          Wsdl.unexpectedElements :=
            Wsdl.unexpected_keys (Wsdl.expected_fields O direction) actualKeys;
          Wsdl.operation := operationName |}.
Proof.
  intros Hget Hparse Henv Hwrapper Hkeys.
  unfold Wsdl.validateSoapBody. rewrite Hget, Hparse. simpl. rewrite Henv. simpl.
  rewrite (truthy_read _ _ Hwrapper). simpl. rewrite Hwrapper. simpl.
  now rewrite Hkeys.
Qed.

Lemma includes_keys (keys : list string) (m : JsVal) :
  includes (map JStr keys) m = true <-> In m (map JStr keys).
Proof.
  split; [apply includes_In |].
  intro H. apply in_map_iff in H as [k [<- Hk]]. now apply includes_strings.
Qed.

Lemma in_missing_fields (expectedFields : list Wsdl.WsdlElement)
    (actualKeys : list string) (m : JsVal) :
  In m (Wsdl.missing_fields expectedFields actualKeys)
  <-> exists f, In f expectedFields /\ Wsdl.required f = true /\ Wsdl.name f = m
                /\ ~ In m (map JStr actualKeys).
Proof.
  unfold Wsdl.missing_fields. rewrite in_map_iff. split.
  - intros [f [<- Hf]]. apply filter_In in Hf as [Hf Hp].
    apply andb_true_iff in Hp as [Hreq Hnot]. apply negb_true_iff in Hnot.
    exists f. repeat split; try assumption.
    intro Hin. apply includes_keys in Hin. congruence.
  - intros [f [Hf [Hreq [<- Hnot]]]]. exists f. split; [reflexivity |].
    apply filter_In. split; [assumption |]. rewrite Hreq. simpl.
    apply negb_true_iff.
    destruct (includes (map JStr actualKeys) (Wsdl.name f)) eqn:E; [| reflexivity].
    apply includes_keys in E. contradiction.
Qed.

Lemma in_unexpected_keys (expectedFields : list Wsdl.WsdlElement)
    (actualKeys : list string) (k : string) :
  In k (Wsdl.unexpected_keys expectedFields actualKeys)
  <-> In k actualKeys /\ startsWith k "@_" = false
      /\ ~ In (JStr k) (map Wsdl.name expectedFields).
Proof.
  unfold Wsdl.unexpected_keys. rewrite filter_In. split.
  - intros [Hk Hp]. apply andb_true_iff in Hp as [Hnot Hattr].
    apply negb_true_iff in Hnot, Hattr. repeat split; try assumption.
    intro Hin. apply In_includes_str in Hin. congruence.
  - intros [Hk [Hattr Hnot]]. split; [assumption |]. rewrite Hattr. simpl.
    rewrite andb_true_r. apply negb_true_iff.
    destruct (includes (map Wsdl.name expectedFields) (JStr k)) eqn:E; [| reflexivity].
    apply includes_In in E. contradiction.
Qed.

(** X7: for a known operation, a result is valid exactly when the body and
    the wrapper were found and every required field of the direction has a
    string name that is among the children of the wrapper. *)
Theorem valid_means_required_present (parse : string -> outcome JsVal)
    (this : Wsdl.WsdlValidator) (xml operationName : string)
    (direction : Wsdl.Direction) (O : Wsdl.WsdlOperation)
    (r : Wsdl.WsdlValidationResult) :
  JsMap.get (JStr operationName) (Wsdl.operations this) = Some O ->
  Wsdl.validateSoapBody parse this xml operationName direction = Ok r ->
  (Wsdl.valid r = true
   <-> exists parsed envelope actualKeys,
         parse xml = Ok parsed
         /\ get_prop parsed "Envelope" = Ok envelope
         /\ truthy (read (read envelope "Body")
                      (Wsdl.wrapper_name operationName direction)) = true
         /\ object_keys (read (read envelope "Body")
                           (Wsdl.wrapper_name operationName direction)) = Ok actualKeys
         /\ forall f, In f (Wsdl.expected_fields O direction) ->
                      Wsdl.required f = true ->
                      exists k, Wsdl.name f = JStr k /\ In k actualKeys).
Proof.
  intros Hget Hrun. split.
  - revert Hrun. unfold Wsdl.validateSoapBody. rewrite Hget.
    destruct (parse xml) as [parsed |] eqn:Eparse; simpl; [| discriminate].
    destruct (get_prop parsed "Envelope") as [envelope |] eqn:Eenv; simpl;
      [| discriminate].
    destruct (truthy (read envelope "Body")); simpl;
      [| intro H; injection H as <-; discriminate].
    destruct (truthy (read (read envelope "Body") _)) eqn:Ew; simpl;
      [| intro H; injection H as <-; discriminate].
    destruct (object_keys _) as [actualKeys |] eqn:Ekeys; simpl; [| discriminate].
    intro H; injection H as <-. simpl. intro Hvalid.
    exists parsed, envelope, actualKeys. repeat split; try assumption.
    intros f Hf Hreq.
    destruct (includes (map JStr actualKeys) (Wsdl.name f)) eqn:E.
    + apply includes_keys, in_map_iff in E as [k [Hk Hin]]. exists k. auto.
    + exfalso.
      assert (Hout : ~ In (Wsdl.name f) (map JStr actualKeys))
        by (intro Hin; apply includes_keys in Hin; congruence).
      assert (Hm : In (Wsdl.name f)
                     (Wsdl.missing_fields (Wsdl.expected_fields O direction) actualKeys))
        by (apply in_missing_fields; exists f; auto).
      destruct (Wsdl.missing_fields _ _); [destruct Hm | discriminate].
  - intros [parsed [envelope [actualKeys [Hparse [Henv [Hw [Hkeys Hall]]]]]]].
    rewrite (validateSoapBody_compared parse this xml operationName direction O
               parsed envelope actualKeys Hget Hparse Henv Hw Hkeys) in Hrun.
    injection Hrun as <-. simpl.
    destruct (Wsdl.missing_fields (Wsdl.expected_fields O direction) actualKeys)
      as [| m rest] eqn:Em; [reflexivity |].
    exfalso.
    assert (Hm : In m (Wsdl.missing_fields (Wsdl.expected_fields O direction) actualKeys))
      by (rewrite Em; now left).
    apply in_missing_fields in Hm as [f [Hf [Hreq [Hname Hnot]]]].
    destruct (Hall f Hf Hreq) as [k [Hk Hin]]. apply Hnot.
    rewrite <- Hname, Hk. now apply in_map.
Qed.

Lemma valid_means_required_present_witness :
  exists r,
    Wsdl.validateSoapBody MoreSamples.parse MoreSamples.ping_validator
      MoreSamples.ping_token_text "Ping" Wsdl.DirInput = Ok r
    /\ Wsdl.valid r = true
    /\ exists parsed envelope actualKeys,
         MoreSamples.parse MoreSamples.ping_token_text = Ok parsed
         /\ get_prop parsed "Envelope" = Ok envelope
         /\ truthy (read (read envelope "Body") "PingRequest") = true
         /\ object_keys (read (read envelope "Body") "PingRequest") = Ok actualKeys
         /\ forall f,
              In f [{| Wsdl.name := JStr "token"; Wsdl.type := JStr "xs:string";
                       Wsdl.required := true |};
                    {| Wsdl.name := JStr "ttl"; Wsdl.type := JStr "xs:int";
                       Wsdl.required := false |}] ->
              Wsdl.required f = true ->
              exists k, Wsdl.name f = JStr k /\ In k actualKeys.
Proof.
  eexists. split; [reflexivity |]. split; [reflexivity |].
  exact (proj1 (valid_means_required_present MoreSamples.parse MoreSamples.ping_validator
                  MoreSamples.ping_token_text "Ping" Wsdl.DirInput _ _ eq_refl eq_refl)
           eq_refl).
Defined.

(** X8: when the wrapper is found, the result names the operation it was
    asked about; [unexpectedElements] holds exactly the children of the
    wrapper that are neither attributes nor names of expected fields, and
    [missingElements] holds exactly the names of the required fields that
    are not among the children.  An optional field is never reported
    missing, and an attribute never unexpected. *)
Theorem reports_are_exact (parse : string -> outcome JsVal)
    (this : Wsdl.WsdlValidator) (xml operationName : string)
    (direction : Wsdl.Direction) (O : Wsdl.WsdlOperation)
    (parsed envelope : JsVal) (actualKeys : list string) :
  JsMap.get (JStr operationName) (Wsdl.operations this) = Some O ->
  parse xml = Ok parsed ->
  get_prop parsed "Envelope" = Ok envelope ->
  truthy (read (read envelope "Body") (Wsdl.wrapper_name operationName direction)) = true ->
  object_keys (read (read envelope "Body") (Wsdl.wrapper_name operationName direction))
  = Ok actualKeys ->
  exists r,
    Wsdl.validateSoapBody parse this xml operationName direction = Ok r
    /\ Wsdl.operation r = operationName
    /\ (forall k,
          In k (Wsdl.unexpectedElements r)
          <-> In k actualKeys /\ startsWith k "@_" = false
              /\ ~ In (JStr k) (map Wsdl.name (Wsdl.expected_fields O direction)))
    /\ (forall m,
          In m (Wsdl.missingElements r)
          <-> exists f, In f (Wsdl.expected_fields O direction)
                        /\ Wsdl.required f = true /\ Wsdl.name f = m
                        /\ ~ In m (map JStr actualKeys)).
Proof.
  intros Hget Hparse Henv Hw Hkeys.
  rewrite (validateSoapBody_compared parse this xml operationName direction O
             parsed envelope actualKeys Hget Hparse Henv Hw Hkeys).
  eexists. split; [reflexivity |]. simpl. split; [reflexivity |]. split.
  - intro k. apply in_unexpected_keys.
  - intro m. apply in_missing_fields.
Qed.

Lemma reports_are_exact_witness :
  exists r,
    Wsdl.validateSoapBody MoreSamples.parse MoreSamples.ping_validator
      MoreSamples.ping_token_text "Ping" Wsdl.DirInput = Ok r
    /\ Wsdl.operation r = "Ping"
    /\ (forall k,
          In k (Wsdl.unexpectedElements r)
          <-> In k ["token"; "trace"; "@_id"] /\ startsWith k "@_" = false
              /\ ~ In (JStr k) [JStr "token"; JStr "ttl"])
    /\ (forall m,
          In m (Wsdl.missingElements r)
          <-> exists f,
                In f [{| Wsdl.name := JStr "token"; Wsdl.type := JStr "xs:string";
                         Wsdl.required := true |};
                      {| Wsdl.name := JStr "ttl"; Wsdl.type := JStr "xs:int";
                         Wsdl.required := false |}]
                /\ Wsdl.required f = true /\ Wsdl.name f = m
                /\ ~ In m [JStr "token"; JStr "trace"; JStr "@_id"]).
Proof.
  exact (reports_are_exact MoreSamples.parse MoreSamples.ping_validator
           MoreSamples.ping_token_text "Ping" Wsdl.DirInput _ _ _ _
           eq_refl eq_refl eq_refl eq_refl eq_refl).
Defined.

(** ** Loading into the registry *)

Lemma keys_set_present {V : Type} (k : JsVal) (v v0 : V) (m : JsMap.t V) :
  JsMap.get k m = Some v0 -> JsMap.keys (JsMap.set k v m) = JsMap.keys m.
Proof.
  unfold JsMap.keys.
  induction m as [| [k' v'] rest IH]; simpl; [discriminate |].
  destruct (same_value_zero k' k); simpl; [reflexivity |].
  intro H. now rewrite IH.
Qed.

Lemma keys_set_absent {V : Type} (k : JsVal) (v : V) (m : JsMap.t V) :
  JsMap.get k m = None -> JsMap.keys (JsMap.set k v m) = JsMap.keys m ++ [k].
Proof.
  unfold JsMap.keys.
  induction m as [| [k' v'] rest IH]; simpl; [reflexivity |].
  destruct (same_value_zero k' k); simpl; [discriminate |].
  intro H. now rewrite IH.
Qed.

Lemma get_set_present {V : Type} (k : JsVal) (v v0 : V) (m : JsMap.t V) :
  JsMap.get k m = Some v0 -> JsMap.get k (JsMap.set k v m) = Some v.
Proof.
  induction m as [| [k' v'] rest IH]; simpl; [discriminate |].
  destruct (same_value_zero k' k) eqn:E; simpl; rewrite E; [reflexivity | exact IH].
Qed.

Lemma get_set_keeps {V : Type} (k k0 : JsVal) (v : V) (m : JsMap.t V) :
  JsMap.get k0 m <> None -> JsMap.get k0 (JsMap.set k v m) <> None.
Proof.
  induction m as [| [k' v'] rest IH]; simpl; [congruence |].
  destruct (same_value_zero k' k) eqn:E; simpl.
  - destruct (same_value_zero k' k0); [discriminate | auto].
  - destruct (same_value_zero k' k0); [discriminate | exact IH].
Qed.

(** [loadSchema], step by step. *)
Lemma loadSchema_steps (Ajv : Type)
    (compile : Ajv -> JsVal -> outcome (Schema.ValidateFunction * Ajv))
    (resolve : string -> string) (readJson : string -> outcome JsVal)
    (this this' : Schema.SchemaValidator Ajv) (schemaPath : string)
    (schemaId : option string) :
  Schema.loadSchema Ajv compile resolve readJson this schemaPath schemaId = Ok this' ->
  exists schemaContent id compiled instance,
    readJson (resolve schemaPath) = Ok schemaContent
    /\ Schema.resolve_id schemaId schemaContent (resolve schemaPath) = Ok id
    /\ compile (Schema.ajv Ajv this) schemaContent = Ok (compiled, instance)
    /\ this' = {| Schema.ajv := instance;
                  Schema.validators :=
                    JsMap.set id compiled (Schema.validators Ajv this) |}.
Proof.
  unfold Schema.loadSchema.
  destruct (readJson (resolve schemaPath)) as [schemaContent |] eqn:Eread; simpl;
    [| discriminate].
  destruct (Schema.resolve_id schemaId schemaContent (resolve schemaPath)) as [id |]
    eqn:Eid; simpl; [| discriminate].
  destruct (compile (Schema.ajv Ajv this) schemaContent) as [[compiled instance] |]
    eqn:Ecompile; simpl; [| discriminate].
  intro H. injection H as <-.
  exists schemaContent, id, compiled, instance. repeat split; assumption.
Qed.

(** X9: a schema loaded under an id the caller gives (not the empty
    string) can be validated against at once: [validate] with that id
    returns the verdict and the violations of the function [compile]
    returned for the document. *)
Theorem loadSchema_then_validate (Ajv : Type)
    (compile : Ajv -> JsVal -> outcome (Schema.ValidateFunction * Ajv))
    (resolve : string -> string) (readJson : string -> outcome JsVal)
    (this this' : Schema.SchemaValidator Ajv) (schemaPath id : string)
    (payload : JsVal) :
  id <> "" ->
  Schema.loadSchema Ajv compile resolve readJson this schemaPath (Some id) = Ok this' ->
  exists schemaContent compiled instance next,
    readJson (resolve schemaPath) = Ok schemaContent
    /\ compile (Schema.ajv Ajv this) schemaContent = Ok (compiled, instance)
    /\ Schema.validate Ajv this' id payload
       = Ok ({| Schema.valid := fst (Schema.call compiled payload);
                Schema.errors :=
                  if fst (Schema.call compiled payload) then None
                  else snd (Schema.call compiled payload);
                Schema.schemaId := id |}, next).
Proof.
  intros Hid Hload.
  destruct (loadSchema_steps Ajv compile resolve readJson this this' schemaPath
              (Some id) Hload)
    as [schemaContent [key [compiled [instance [Hread [Hkey [Hcompile ->]]]]]]].
  assert (Hkey' : key = JStr id).
  { unfold Schema.resolve_id in Hkey. simpl in Hkey.
    assert (Ht : negb (id =? "") = true)
      by (apply negb_true_iff; now apply String.eqb_neq).
    rewrite Ht in Hkey. now injection Hkey as <-. }
  subst key. exists schemaContent, compiled, instance.
  unfold Schema.validate, Schema.invoke. simpl.
  rewrite (get_set_same (JStr id) compiled _ (same_value_zero_str_refl id)).
  destruct (Schema.call compiled payload) as [verdict errs]. simpl.
  eexists. repeat split; assumption.
Qed.

Lemma loadSchema_then_validate_witness :
  exists this' schemaContent compiled instance next,
    Schema.loadSchema unit Samples.compile Samples.resolve Samples.readJson
      (Schema.new_SchemaValidator unit tt)
      "schemas/messages/order-created-event.schema.json" (Some "order-created") = Ok this'
    /\ Samples.readJson (Samples.resolve "schemas/messages/order-created-event.schema.json")
       = Ok schemaContent
    /\ Samples.compile tt schemaContent = Ok (compiled, instance)
    /\ Schema.validate unit this' "order-created" Samples.event_without_id
       = Ok ({| Schema.valid := fst (Schema.call compiled Samples.event_without_id);
                Schema.errors :=
                  if fst (Schema.call compiled Samples.event_without_id) then None
                  else snd (Schema.call compiled Samples.event_without_id);
                Schema.schemaId := "order-created" |}, next).
Proof.
  eexists.
  destruct (loadSchema_then_validate unit Samples.compile Samples.resolve Samples.readJson
              (Schema.new_SchemaValidator unit tt) _
              "schemas/messages/order-created-event.schema.json" "order-created"
              Samples.event_without_id ltac:(discriminate) eq_refl)
    as (schemaContent & compiled & instance & next & Hread & Hcompile & Hvalidate).
  exists schemaContent, compiled, instance, next.
  split; [reflexivity |]. split; [exact Hread |]. split; [exact Hcompile | exact Hvalidate].
Defined.

(** X10: [loadSchema] changes the registry at one id only, the one it
    resolves: every other id keeps its function; an id that was registered
    keeps its place in the enumeration and gets the new function; an id
    that was not registered is appended. *)
Theorem loadSchema_changes_one_id (Ajv : Type)
    (compile : Ajv -> JsVal -> outcome (Schema.ValidateFunction * Ajv))
    (resolve : string -> string) (readJson : string -> outcome JsVal)
    (this this' : Schema.SchemaValidator Ajv) (schemaPath : string)
    (schemaId : option string) :
  Schema.loadSchema Ajv compile resolve readJson this schemaPath schemaId = Ok this' ->
  exists schemaContent id,
    readJson (resolve schemaPath) = Ok schemaContent
    /\ Schema.resolve_id schemaId schemaContent (resolve schemaPath) = Ok id
    /\ (forall other, other <> id ->
          JsMap.get other (Schema.validators Ajv this')
          = JsMap.get other (Schema.validators Ajv this))
    /\ (forall old, JsMap.get id (Schema.validators Ajv this) = Some old ->
          JsMap.keys (Schema.validators Ajv this') = JsMap.keys (Schema.validators Ajv this)
          /\ exists compiled instance,
               compile (Schema.ajv Ajv this) schemaContent = Ok (compiled, instance)
               /\ JsMap.get id (Schema.validators Ajv this') = Some compiled)
    /\ (JsMap.get id (Schema.validators Ajv this) = None ->
        JsMap.keys (Schema.validators Ajv this')
        = JsMap.keys (Schema.validators Ajv this) ++ [id]).
Proof.
  intro Hload.
  destruct (loadSchema_steps Ajv compile resolve readJson this this' schemaPath
              schemaId Hload)
    as [schemaContent [id [compiled [instance [Hread [Hid [Hcompile ->]]]]]]].
  exists schemaContent, id. simpl. repeat split; try assumption.
  - intros other Hother. apply get_set_other. congruence.
  - now apply keys_set_present with (v0 := old).
  - exists compiled, instance. split; [assumption |].
    now apply get_set_present with (v0 := old).
  - apply keys_set_absent.
Qed.

Lemma loadSchema_changes_one_id_witness :
  exists this',
    Schema.loadSchema unit Samples.compile Samples.resolve Samples.readJson
      Samples.registry "schemas/messages/order-created-event.schema.json" None = Ok this'
    /\ JsMap.keys (Schema.validators unit this')
       = [JStr "order-created-event";
          JStr "https://example.com/schemas/order-created-event"]
    /\ JsMap.get (JStr "order-created-event") (Schema.validators unit this')
       = JsMap.get (JStr "order-created-event") (Schema.validators unit Samples.registry).
Proof.
  eexists. split; [reflexivity |].
  destruct (loadSchema_changes_one_id unit Samples.compile Samples.resolve Samples.readJson
              Samples.registry _ "schemas/messages/order-created-event.schema.json" None
              eq_refl)
    as (schemaContent & id & Hread & Hid & Hother & _ & Hnew).
  injection Hread as <-. injection Hid as <-.
  split.
  - exact (Hnew eq_refl).
  - apply Hother. discriminate.
Defined.

(** X11: a [validate] that returns leaves the registry with the same ids
    in the same order and the same Ajv instance, and every other id with
    the function it had. *)
Theorem validate_keeps_registrations (Ajv : Type)
    (this this' : Schema.SchemaValidator Ajv) (schemaId : string) (payload : JsVal)
    (result : Schema.ValidationResult) :
  Schema.validate Ajv this schemaId payload = Ok (result, this') ->
  JsMap.keys (Schema.validators Ajv this') = JsMap.keys (Schema.validators Ajv this)
  /\ Schema.ajv Ajv this' = Schema.ajv Ajv this
  /\ forall other, other <> JStr schemaId ->
       JsMap.get other (Schema.validators Ajv this')
       = JsMap.get other (Schema.validators Ajv this).
Proof.
  unfold Schema.validate, Schema.invoke.
  destruct (JsMap.get (JStr schemaId) _) as [compiled |] eqn:E; [| discriminate].
  destruct (Schema.call compiled payload) as [verdict errs].
  intro H. injection H as _ <-. simpl. repeat split.
  - now apply keys_set_present with (v0 := compiled).
  - intros other Hother. apply get_set_other. congruence.
Qed.

Lemma validate_keeps_registrations_witness :
  exists result this',
    Schema.validate unit Samples.registry "order-created-event" Samples.event_without_id
    = Ok (result, this')
    /\ JsMap.keys (Schema.validators unit this')
       = JsMap.keys (Schema.validators unit Samples.registry)
    /\ Schema.ajv unit this' = Schema.ajv unit Samples.registry
    /\ forall other, other <> JStr "order-created-event" ->
         JsMap.get other (Schema.validators unit this')
         = JsMap.get other (Schema.validators unit Samples.registry).
Proof.
  eexists. eexists. split; [reflexivity |].
  exact (validate_keeps_registrations unit Samples.registry _ "order-created-event"
           Samples.event_without_id _ eq_refl).
Defined.

(** ** Bulk loading *)

Lemma length_append (s t : string) :
  String.length (s ++ t) = String.length s + String.length t.
Proof. induction s as [| c s IH]; simpl; [reflexivity | now rewrite IH]. Qed.

Lemma substring_all (t : string) : String.substring 0 (String.length t) t = t.
Proof. induction t as [| c t IH]; simpl; [reflexivity | now rewrite IH]. Qed.

Lemma substring_skip (s t : string) (m : nat) :
  String.substring (String.length s) m (s ++ t) = String.substring 0 m t.
Proof. induction s as [| c s IH]; simpl; [reflexivity | exact IH]. Qed.

Lemma endsWith_append (s suffix : string) : Schema.endsWith (s ++ suffix) suffix = true.
Proof.
  unfold Schema.endsWith. rewrite length_append.
  replace (String.length s + String.length suffix - String.length suffix)
    with (String.length s) by lia.
  rewrite substring_skip, substring_all, String.eqb_refl.
  assert (H : Nat.leb (String.length suffix) (String.length s + String.length suffix) = true)
    by (apply Nat.leb_le; lia).
  now rewrite H.
Qed.

Lemma append_assoc (a b c : string) : ((a ++ b) ++ c)%string = (a ++ (b ++ c))%string.
Proof. induction a as [| x a IH]; simpl; [reflexivity | now rewrite IH]. Qed.

(** A file name [base.schema.json] whose base has no dot is a [.json] file
    and gives the id [base]. *)
Lemma schema_file_id (base : string) :
  (forall c, In c (list_ascii_of_string base) -> c <> "."%char) ->
  Schema.endsWith (base ++ ".schema.json") ".json" = true
  /\ Schema.replace ".schema.json" "" (base ++ ".schema.json") = base.
Proof.
  intro Hdots. split.
  - change ".schema.json" with (".schema" ++ ".json")%string.
    rewrite <- append_assoc. apply endsWith_append.
  - induction base as [| c base IH]; [reflexivity |].
    cbn [append Schema.replace String.prefix].
    destruct (ascii_dec "." c) as [<- | _].
    + exfalso. apply (Hdots "."%char); [now left | reflexivity].
    + rewrite IH; [reflexivity |]. intros x Hx. apply Hdots. now right.
Qed.

Lemma for_each_reaches {S A : Type} (P : S -> Prop) (body : S -> A -> outcome S)
    (x0 : A) :
  (forall s x s', body s x = Ok s' -> P s -> P s') ->
  (forall s s', body s x0 = Ok s' -> P s') ->
  forall xs s s', In x0 xs -> for_each body xs s = Ok s' -> P s'.
Proof.
  intros Hkeep Hhit. induction xs as [| x rest IH]; simpl; intros s s' Hin H;
    [destruct Hin |].
  destruct (body s x) as [s1 |] eqn:E; simpl in H; [| discriminate].
  destruct Hin as [-> | Hin].
  - refine (for_each_invariant P body _ rest s1 s' (Hhit s s1 E) H).
    intros a b c Ha Hb. exact (Hkeep a b c Hb Ha).
  - exact (IH s1 s' Hin H).
Qed.

Lemma loadSchema_keeps_ids (Ajv : Type)
    (compile : Ajv -> JsVal -> outcome (Schema.ValidateFunction * Ajv))
    (resolve : string -> string) (readJson : string -> outcome JsVal)
    (this this' : Schema.SchemaValidator Ajv) (schemaPath : string)
    (schemaId : option string) (k : JsVal) :
  Schema.loadSchema Ajv compile resolve readJson this schemaPath schemaId = Ok this' ->
  JsMap.get k (Schema.validators Ajv this) <> None ->
  JsMap.get k (Schema.validators Ajv this') <> None.
Proof.
  intros Hload Hk.
  destruct (loadSchema_steps Ajv compile resolve readJson this this' schemaPath
              schemaId Hload) as [_ [id [compiled [instance [_ [_ [_ ->]]]]]]].
  simpl. now apply get_set_keeps.
Qed.

(** X12: when [loadAllMessageSchemas] returns, every file [base.schema.json]
    of the directory whose base is not empty and has no dot is registered
    under the id [base]; every id registered before is still registered;
    and a directory with no [.json] file leaves the registry as it was. *)
Theorem loadAllMessageSchemas_registers (Ajv : Type)
    (compile : Ajv -> JsVal -> outcome (Schema.ValidateFunction * Ajv))
    (resolve : string -> string) (path_join : string -> string -> string)
    (readJson : string -> outcome JsVal)
    (readdirSync : string -> outcome (list string))
    (this this' : Schema.SchemaValidator Ajv) (schemasDir : string)
    (listing : list string) :
  readdirSync (resolve schemasDir) = Ok listing ->
  Schema.loadAllMessageSchemas Ajv compile resolve path_join readJson readdirSync
    this schemasDir = Ok this' ->
  (forall base,
      In (base ++ ".schema.json")%string listing ->
      base <> "" ->
      (forall c, In c (list_ascii_of_string base) -> c <> "."%char) ->
      JsMap.get (JStr base) (Schema.validators Ajv this') <> None)
  /\ (forall k,
        JsMap.get k (Schema.validators Ajv this) <> None ->
        JsMap.get k (Schema.validators Ajv this') <> None)
  /\ (filter (fun f => Schema.endsWith f ".json") listing = [] -> this' = this).
Proof.
  intros Hlist. unfold Schema.loadAllMessageSchemas. rewrite Hlist. simpl.
  intro Hloop. repeat split.
  - intros base Hin Hbase Hdots.
    destruct (schema_file_id base Hdots) as [Hjson Hid].
    refine (for_each_reaches
              (fun st => JsMap.get (JStr base) (Schema.validators Ajv st) <> None)
              _ (base ++ ".schema.json")%string _ _ _ this this' _ Hloop).
    + intros s x s' Hstep. unfold Schema.load_file in Hstep.
      exact (loadSchema_keeps_ids Ajv compile resolve readJson s s' _ _ _ Hstep).
    + intros s s' Hstep. unfold Schema.load_file in Hstep. rewrite Hid in Hstep.
      destruct (loadSchema_steps Ajv compile resolve readJson s s' _ _ Hstep)
        as [content [id [compiled [instance [_ [Hkey [_ ->]]]]]]].
      unfold Schema.resolve_id in Hkey. simpl in Hkey.
      assert (Ht : negb (base =? "") = true)
        by (apply negb_true_iff; now apply String.eqb_neq).
      rewrite Ht in Hkey. injection Hkey as <-. simpl.
      rewrite (get_set_same (JStr base) compiled _ (same_value_zero_str_refl base)).
      discriminate.
    + apply filter_In. auto.
  - intros k Hk.
    refine (for_each_invariant
              (fun st => JsMap.get k (Schema.validators Ajv st) <> None)
              _ _ _ this this' Hk Hloop).
    intros s x s' Hs Hstep. unfold Schema.load_file in Hstep.
    exact (loadSchema_keeps_ids Ajv compile resolve readJson s s' _ _ _ Hstep Hs).
  - intro Hnone. rewrite Hnone in Hloop. simpl in Hloop. now injection Hloop as <-.
Qed.

Lemma loadAllMessageSchemas_registers_witness :
  exists this',
    Schema.loadAllMessageSchemas unit Samples.compile Samples.resolve Samples.path_join
      Samples.readJson Samples.readdirSync (Schema.new_SchemaValidator unit tt)
      "schemas/messages" = Ok this'
    /\ JsMap.get (JStr "order-created-event") (Schema.validators unit this') <> None.
Proof.
  eexists. split; [reflexivity |].
  refine (proj1 (loadAllMessageSchemas_registers unit Samples.compile Samples.resolve
                   Samples.path_join Samples.readJson Samples.readdirSync
                   (Schema.new_SchemaValidator unit tt) _ "schemas/messages" _
                   eq_refl eq_refl)
            "order-created-event" _ _ _).
  - simpl. tauto.
  - discriminate.
  - simpl. intros c H.
    repeat (destruct H as [H | H]; [subst c; discriminate |]). destruct H.
Defined.

(** ** The shared default registry *)

Lemma for_each_kept_returns {S A : Type} (body : S -> A -> outcome S) (xs : list A)
    (s s' : S) :
  for_each body xs s = Ok s' <-> for_each_kept body xs s = (s', None).
Proof.
  revert s. induction xs as [| x rest IH]; intro s; simpl.
  - split; intro H; injection H as <-; reflexivity.
  - destruct (body s x) as [s1 |]; simpl; [apply IH |].
    split; discriminate.
Qed.

(** X13: after any call of [getSchemaValidator], also one that threw, the
    slot holds a registry, and every later call returns that registry
    without reading the disk or compiling; a first call returns exactly
    when the bulk load of [schemas/messages] into a new registry returns;
    and when that directory cannot be listed the first call throws and
    leaves an empty registry in the slot, on which every [validate]
    throws with an empty list of available ids. *)
Theorem getSchemaValidator_initialises_once (Ajv : Type)
    (compile : Ajv -> JsVal -> outcome (Schema.ValidateFunction * Ajv))
    (resolve : string -> string) (path_join : string -> string -> string)
    (readJson : string -> outcome JsVal)
    (readdirSync : string -> outcome (list string)) (fresh : Ajv) :
  (forall slot,
      exists this,
        snd (Default.getSchemaValidator Ajv compile resolve path_join readJson
               readdirSync fresh slot) = Some this
        /\ forall compile' resolve' path_join' readJson' readdirSync' fresh',
             Default.getSchemaValidator Ajv compile' resolve' path_join' readJson'
               readdirSync' fresh' (Some this)
             = (Ok this, Some this))
  /\ (forall this,
        fst (Default.getSchemaValidator Ajv compile resolve path_join readJson
               readdirSync fresh None) = Ok this
        <-> Schema.loadAllMessageSchemas Ajv compile resolve path_join readJson
              readdirSync (Schema.new_SchemaValidator Ajv fresh) "schemas/messages"
            = Ok this)
  /\ (forall message,
        readdirSync (resolve "schemas/messages") = Throw message ->
        Default.getSchemaValidator Ajv compile resolve path_join readJson
          readdirSync fresh None
        = (Throw message, Some (Schema.new_SchemaValidator Ajv fresh))
        /\ forall schemaId payload,
             Schema.validate Ajv (Schema.new_SchemaValidator Ajv fresh) schemaId payload
             = Throw ("Schema not loaded: " ++ schemaId ++ ". Available: ")).
Proof.
  split; [| split].
  - intros [this |]; simpl.
    + exists this. split; reflexivity.
    + destruct (Default.loadAllMessageSchemas_kept _ _ _ _ _ _ _ _) as [this [m |]];
        exists this; split; reflexivity.
  - intro this. unfold Default.getSchemaValidator, Default.loadAllMessageSchemas_kept,
      Schema.loadAllMessageSchemas.
    destruct (readdirSync (resolve "schemas/messages")) as [listing |]; simpl.
    + rewrite for_each_kept_returns.
      destruct (for_each_kept _ _ _) as [reached [m |]]; simpl.
      * split; discriminate.
      * split; intro H; injection H as <-; reflexivity.
    + split; discriminate.
  - intros message Hlist. split.
    + unfold Default.getSchemaValidator, Default.loadAllMessageSchemas_kept.
      now rewrite Hlist.
    + intros schemaId payload. reflexivity.
Qed.

Lemma getSchemaValidator_initialises_once_witness :
  Default.getSchemaValidator unit Samples.compile Samples.resolve Samples.path_join
    Samples.readJson (fun _ => Throw "ENOENT: no such file or directory") tt None
  = (Throw "ENOENT: no such file or directory", Some (Schema.new_SchemaValidator unit tt))
  /\ forall schemaId payload,
       Schema.validate unit (Schema.new_SchemaValidator unit tt) schemaId payload
       = Throw ("Schema not loaded: " ++ schemaId ++ ". Available: ")%string.
Proof.
  exact (proj2 (proj2 (getSchemaValidator_initialises_once unit Samples.compile
                         Samples.resolve Samples.path_join Samples.readJson
                         (fun _ => Throw "ENOENT: no such file or directory") tt))
           "ENOENT: no such file or directory" eq_refl).
Defined.

(** ** Operation names for the drift check *)

Lemma get_prop_returns (v : JsVal) (k : string) :
  nullish v = false -> get_prop v k = Ok (read v k).
Proof. intro H. unfold get_prop. now rewrite H. Qed.

Lemma names_of_operations (operations : list JsVal) :
  (forall op, In op operations -> nullish op = false) ->
  map_each (fun op => get_prop op "@_name") operations
  = Ok (map (fun op => read op "@_name") operations).
Proof.
  induction operations as [| op rest IH]; intro H; simpl; [reflexivity |].
  unfold get_prop at 1. rewrite (H op (or_introl eq_refl)). simpl.
  rewrite IH by (intros o Ho; apply H; now right). reflexivity.
Qed.

Lemma names_of_operations_throw (operations : list JsVal) (op : JsVal) :
  In op operations -> nullish op = true ->
  exists message,
    map_each (fun op => get_prop op "@_name") operations = Throw message.
Proof.
  induction operations as [| o rest IH]; intros Hin Hop; [destruct Hin |].
  simpl. unfold get_prop at 1. destruct (nullish o) eqn:Eo; simpl.
  - eexists; reflexivity.
  - destruct Hin as [-> | Hin]; [congruence |].
    destruct (IH Hin Hop) as [message Hm]. rewrite Hm. simpl.
    eexists; reflexivity.
Qed.

Lemma extractOperationNames_throws (parsed op : JsVal) :
  nullish parsed = false ->
  truthy (read (read parsed "definitions") "binding") = true ->
  In op (as_array (read (read (read parsed "definitions") "binding") "operation")) ->
  nullish op = true ->
  exists message, Drift.extractOperationNames parsed = Throw message.
Proof.
  intros Htree Hbinding Hin Hop.
  unfold Drift.extractOperationNames. rewrite (get_prop_returns _ _ Htree). simpl.
  rewrite Hbinding. simpl.
  destruct (names_of_operations_throw _ op Hin Hop) as [message Hm].
  rewrite Hm. simpl. eexists; reflexivity.
Qed.

(** X14: every name [extractOperationNames] returns is truthy; a document
    without a binding gives no names; a binding whose operations are all
    there gives their names in document order, the empty and the missing
    ones left out; and a binding with an operation entry that is
    [undefined] or [null] (in particular a binding with no operation at
    all) makes it throw. *)
Theorem extractOperationNames_contract (parsed : JsVal) :
  (forall names op,
      Drift.extractOperationNames parsed = Ok names -> In op names -> truthy op = true)
  /\ (nullish parsed = false ->
      truthy (read (read parsed "definitions") "binding") = false ->
      Drift.extractOperationNames parsed = Ok [])
  /\ (nullish parsed = false ->
      truthy (read (read parsed "definitions") "binding") = true ->
      (forall op,
          In op (as_array (read (read (read parsed "definitions") "binding") "operation")) ->
          nullish op = false) ->
      Drift.extractOperationNames parsed
      = Ok (filter truthy
              (map (fun op => read op "@_name")
                 (as_array (read (read (read parsed "definitions") "binding")
                              "operation")))))
  /\ (nullish parsed = false ->
      truthy (read (read parsed "definitions") "binding") = true ->
      (exists op,
          In op (as_array (read (read (read parsed "definitions") "binding") "operation"))
          /\ nullish op = true) ->
      exists message, Drift.extractOperationNames parsed = Throw message).
Proof.
  split; [| split; [| split]].
  - intros names op. unfold Drift.extractOperationNames.
    destruct (nullish parsed) eqn:Htree;
      [unfold get_prop; rewrite Htree; discriminate |].
    rewrite (get_prop_returns _ _ Htree). simpl.
    destruct (truthy (read (read parsed "definitions") "binding")); simpl.
    + destruct (map_each _ _) as [all |]; simpl; [| discriminate].
      intro H. injection H as <-. intro Hop. now apply filter_In in Hop.
    + intro H. injection H as <-. intros [].
  - intros Htree Hbinding. unfold Drift.extractOperationNames.
    rewrite (get_prop_returns _ _ Htree). simpl. now rewrite Hbinding.
  - intros Htree Hbinding Hops. unfold Drift.extractOperationNames.
    rewrite (get_prop_returns _ _ Htree). simpl. rewrite Hbinding. simpl.
    now rewrite (names_of_operations _ Hops).
  - intros Htree Hbinding [op [Hin Hop]].
    exact (extractOperationNames_throws parsed op Htree Hbinding Hin Hop).
Qed.

Lemma extractOperationNames_contract_witness :
  Drift.extractOperationNames MoreSamples.unbound_wsdl_tree = Ok []
  /\ Drift.extractOperationNames Samples.local_wsdl_tree
     = Ok [JStr "CreateOrder"; JStr "GetOrderStatus"]
  /\ exists message,
       Drift.extractOperationNames MoreSamples.emptied_wsdl_tree = Throw message.
Proof.
  split; [| split].
  - exact (proj1 (proj2 (extractOperationNames_contract MoreSamples.unbound_wsdl_tree))
             eq_refl eq_refl).
  - refine (proj1 (proj2 (proj2 (extractOperationNames_contract Samples.local_wsdl_tree)))
              eq_refl eq_refl _).
    simpl. intros op [<- | [<- | []]]; reflexivity.
  - refine (proj2 (proj2 (proj2 (extractOperationNames_contract
                                   MoreSamples.emptied_wsdl_tree)))
              eq_refl eq_refl _).
    exists JUndefined. simpl. tauto.
Defined.

(** X15: with the baseline on disk, the URL set and a live document that
    was fetched and parsed, a live binding that lists no operation does not
    count as drift: the WSDL check reports an error detail and leaves
    [drifted] false, whatever the baseline declares. *)
Theorem emptied_live_binding_is_not_drift (parse : string -> outcome JsVal)
    (resolve : string -> string) (w : Drift.World)
    (app2Url : string) (liveResponse : Drift.Response) (liveWsdl localWsdl : string)
    (localParsed liveParsed : JsVal) (localOps : list JsVal) :
  Drift.existsSync w (resolve "schemas/wsdl/order-service.wsdl") = true ->
  Drift.env_value (Drift.APP2_STAGING_URL w) = Some app2Url ->
  Drift.fetch w (app2Url ++ "/ws/orders?wsdl") = Ok liveResponse ->
  Drift.ok liveResponse = true ->
  Drift.text liveResponse = Ok liveWsdl ->
  Drift.readFileSync w (resolve "schemas/wsdl/order-service.wsdl") = Ok localWsdl ->
  parse localWsdl = Ok localParsed ->
  parse liveWsdl = Ok liveParsed ->
  Drift.extractOperationNames localParsed = Ok localOps ->
  nullish liveParsed = false ->
  truthy (read (read liveParsed "definitions") "binding") = true ->
  read (read (read liveParsed "definitions") "binding") "operation" = JUndefined ->
  exists message,
    Drift.checkWsdlDrift parse resolve w
    = {| Drift.schema := "App2 WSDL (order-service.wsdl)";
         Drift.drifted := false;
         Drift.details := [("Error checking WSDL drift: " ++ message)%string] |}.
Proof.
  intros Hex Henv Hfetch Hok Htext Hread Hlocal Hlive Hlops Htree Hbinding Hnone.
  destruct (extractOperationNames_throws liveParsed JUndefined Htree Hbinding)
    as [message Hthrow]; [rewrite Hnone; now left | reflexivity |].
  exists message.
  unfold Drift.checkWsdlDrift, Drift.wsdl_attempt.
  rewrite Hex, Henv, Hfetch. simpl. rewrite Hok, Htext. simpl.
  rewrite Hread. simpl. rewrite Hlocal. simpl. rewrite Hlive. simpl.
  rewrite Hlops. simpl. now rewrite Hthrow.
Qed.

Lemma emptied_live_binding_is_not_drift_witness :
  exists message,
    Drift.checkWsdlDrift MoreSamples.parse Samples.resolve MoreSamples.emptied_world
    = {| Drift.schema := "App2 WSDL (order-service.wsdl)";
         Drift.drifted := false;
         Drift.details := [("Error checking WSDL drift: " ++ message)%string] |}.
Proof.
  exact (emptied_live_binding_is_not_drift MoreSamples.parse Samples.resolve
           MoreSamples.emptied_world _ _ _ _ _ _ _
           eq_refl eq_refl eq_refl eq_refl eq_refl eq_refl eq_refl eq_refl eq_refl
           eq_refl eq_refl eq_refl).
Defined.

(** ** The shape of a drift result *)

Lemma existsb_filter {A : Type} (p : A -> bool) (xs : list A) :
  existsb p xs = true -> filter p xs <> [].
Proof.
  intro H. apply existsb_exists in H as [x [Hx Hp]]. intro Hnil.
  assert (Hin : In x (filter p xs)) by (apply filter_In; auto).
  rewrite Hnil in Hin. destruct Hin.
Qed.

Lemma filter_existsb {A : Type} (p : A -> bool) (xs : list A) :
  existsb p xs = false -> filter p xs = [].
Proof.
  intro H. apply filter_none. intros x Hx.
  destruct (p x) eqn:E; [| reflexivity].
  assert (Ht : existsb p xs = true) by (apply existsb_exists; eauto). congruence.
Qed.

Lemma comparison_shape {A : Type} (gone fresh : A -> bool) (m1 m2 : A -> string)
    (xs ys : list A) (s same : string) (r : Drift.DriftResult) :
  r = {| Drift.schema := s;
         Drift.drifted := false || existsb gone xs || existsb fresh ys;
         Drift.details :=
           [] ++ map m1 (filter gone xs) ++ map m2 (filter fresh ys)
           ++ (if false || existsb gone xs || existsb fresh ys then [] else [same]) |} ->
  Drift.schema r = s
  /\ Drift.details r <> []
  /\ (Drift.drifted r = false -> Drift.details r = [same]).
Proof.
  intros ->. simpl. split; [reflexivity |].
  destruct (existsb gone xs) eqn:E1; simpl.
  - split; [| discriminate].
    apply existsb_filter in E1. destruct (filter gone xs); [contradiction | discriminate].
  - rewrite (filter_existsb gone xs E1). simpl.
    destruct (existsb fresh ys) eqn:E2; simpl.
    + split; [| discriminate].
      apply existsb_filter in E2. destruct (filter fresh ys); [contradiction | discriminate].
    + rewrite (filter_existsb fresh ys E2). simpl. split; [discriminate | reflexivity].
Qed.

Lemma wsdl_attempt_shape (parse : string -> outcome JsVal) (w : Drift.World)
    (result finished : Drift.DriftResult) (app2Url wsdlPath : string) :
  Drift.wsdl_attempt parse w result app2Url wsdlPath = Ok finished ->
  (exists detail, finished = Drift.push_drift result detail)
  \/ (exists localOps liveOps,
        finished = Drift.compare_operations result localOps liveOps).
Proof.
  unfold Drift.wsdl_attempt.
  destruct (Drift.fetch w _) as [liveResponse |]; simpl; [| discriminate].
  destruct (Drift.ok liveResponse); simpl;
    [| intro H; injection H as <-; left; eexists; reflexivity].
  destruct (Drift.text liveResponse) as [liveWsdl |]; simpl; [| discriminate].
  destruct (Drift.readFileSync w wsdlPath) as [localWsdl |]; simpl; [| discriminate].
  destruct (parse localWsdl) as [localParsed |]; simpl; [| discriminate].
  destruct (parse liveWsdl) as [liveParsed |]; simpl; [| discriminate].
  destruct (Drift.extractOperationNames localParsed) as [localOps |]; simpl;
    [| discriminate].
  destruct (Drift.extractOperationNames liveParsed) as [liveOps |]; simpl;
    [| discriminate].
  intro H; injection H as <-. right. eexists; eexists; reflexivity.
Qed.

Lemma message_attempt_shape (parseSchema : string -> outcome Drift.MessageSchema)
    (resolve : string -> string) (w : Drift.World)
    (result finished : Drift.DriftResult) (integrationLayerUrl : string) :
  Drift.message_attempt parseSchema resolve w result integrationLayerUrl = Ok finished ->
  (exists detail, finished = Drift.push result detail)
  \/ (exists localRequired liveRequired,
        finished = Drift.compare_required result localRequired liveRequired).
Proof.
  unfold Drift.message_attempt.
  destruct (Drift.fetch w _) as [schemaResponse |]; simpl; [| discriminate].
  destruct (Drift.ok schemaResponse); simpl;
    [| intro H; injection H as <-; left; eexists; reflexivity].
  destruct (Drift.text schemaResponse) as [liveText |]; simpl; [| discriminate].
  destruct (parseSchema liveText) as [liveSchema |]; simpl; [| discriminate].
  destruct (Drift.readFileSync w _) as [localText |]; simpl; [| discriminate].
  destruct (parseSchema localText) as [localSchema |]; simpl; [| discriminate].
  intro H; injection H as <-. right. eexists; eexists; reflexivity.
Qed.

Ltac one_detail :=
  simpl; repeat split;
  first [ discriminate | reflexivity | (intro; discriminate) | (intro; reflexivity) ].

(** X16: in every world, each of the two checks returns a result that
    carries its schema title and at least one detail, and a result that is
    not flagged as drifted carries exactly one detail. *)
Theorem drift_results_carry_a_detail (parse : string -> outcome JsVal)
    (parseSchema : string -> outcome Drift.MessageSchema)
    (resolve : string -> string) (w : Drift.World) :
  (Drift.schema (Drift.checkWsdlDrift parse resolve w) = "App2 WSDL (order-service.wsdl)"
   /\ Drift.details (Drift.checkWsdlDrift parse resolve w) <> []
   /\ (Drift.drifted (Drift.checkWsdlDrift parse resolve w) = false ->
       length (Drift.details (Drift.checkWsdlDrift parse resolve w)) = 1))
  /\ (Drift.schema (Drift.checkMessageSchemaDrift parseSchema resolve w)
      = "Integration Layer Message Schemas"
      /\ Drift.details (Drift.checkMessageSchemaDrift parseSchema resolve w) <> []
      /\ (Drift.drifted (Drift.checkMessageSchemaDrift parseSchema resolve w) = false ->
          length (Drift.details (Drift.checkMessageSchemaDrift parseSchema resolve w)) = 1)).
Proof.
  split.
  - unfold Drift.checkWsdlDrift.
    destruct (Drift.existsSync w _); simpl;
      [| one_detail].
    destruct (Drift.env_value _) as [app2Url |]; simpl;
      [| one_detail].
    destruct (Drift.wsdl_attempt _ _ _ _ _) as [finished | message] eqn:E; simpl;
      [| one_detail].
    destruct (wsdl_attempt_shape _ _ _ _ _ _ E) as [[detail ->] | [localOps [liveOps ->]]].
    + one_detail.
    + destruct (comparison_shape _ _ _ _ _ _ _ _ _
                  (compare_operations_eq
                     {| Drift.schema := "App2 WSDL (order-service.wsdl)";
                        Drift.drifted := false; Drift.details := [] |}
                     localOps liveOps)) as [Hs [Hd Hone]].
      repeat split; try assumption. intro Hclean. now rewrite (Hone Hclean).
  - unfold Drift.checkMessageSchemaDrift.
    destruct (Drift.env_value _) as [integrationLayerUrl |]; simpl;
      [| one_detail].
    destruct (Drift.message_attempt _ _ _ _ _) as [finished | message] eqn:E; simpl;
      [| one_detail].
    destruct (message_attempt_shape _ _ _ _ _ _ E)
      as [[detail ->] | [localRequired [liveRequired ->]]].
    + one_detail.
    + destruct (comparison_shape _ _ _ _ _ _ _ _ _
                  (compare_required_eq
                     {| Drift.schema := "Integration Layer Message Schemas";
                        Drift.drifted := false; Drift.details := [] |}
                     localRequired liveRequired)) as [Hs [Hd Hone]].
      repeat split; try assumption. intro Hclean. now rewrite (Hone Hclean).
Qed.

Lemma existsb_negb_false {A : Type} (p : A -> bool) (xs : list A) :
  existsb (fun x => negb (p x)) xs = false <-> (forall x, In x xs -> p x = true).
Proof.
  split.
  - intros H x Hx. destruct (p x) eqn:E; [reflexivity |].
    assert (Ht : existsb (fun x => negb (p x)) xs = true)
      by (apply existsb_exists; exists x; rewrite E; auto).
    congruence.
  - intro H. apply existsb_none. intros x Hx. now rewrite (H x Hx).
Qed.

(** X17: the verdict of a comparison does not depend on which side is the
    baseline: with the two lists exchanged, [drifted] and the number of
    details are the same, for operation names and for required fields
    alike; and a comparison that starts from a clean result ends clean
    exactly when each list includes every name of the other. *)
Theorem comparison_is_symmetric (r : Drift.DriftResult) :
  (forall a b : list JsVal,
      Drift.drifted (Drift.compare_operations r a b)
      = Drift.drifted (Drift.compare_operations r b a)
      /\ length (Drift.details (Drift.compare_operations r a b))
         = length (Drift.details (Drift.compare_operations r b a))
      /\ (Drift.drifted r = false ->
          (Drift.drifted (Drift.compare_operations r a b) = false
           <-> (forall op, In op a -> includes b op = true)
               /\ (forall op, In op b -> includes a op = true))))
  /\ (forall a b : list string,
        Drift.drifted (Drift.compare_required r a b)
        = Drift.drifted (Drift.compare_required r b a)
        /\ length (Drift.details (Drift.compare_required r a b))
           = length (Drift.details (Drift.compare_required r b a))
        /\ (Drift.drifted r = false ->
            (Drift.drifted (Drift.compare_required r a b) = false
             <-> (forall f, In f a -> In f b) /\ (forall f, In f b -> In f a)))).
Proof.
  split; intros a b.
  - rewrite !compare_operations_eq. simpl.
    set (ea := existsb (fun op => negb (includes b op)) a).
    set (eb := existsb (fun op => negb (includes a op)) b).
    split; [| split].
    + destruct (Drift.drifted r), ea, eb; reflexivity.
    + rewrite !length_app, !length_map.
      destruct (Drift.drifted r), ea, eb; simpl; lia.
    + intros ->. simpl. unfold ea, eb. rewrite orb_false_iff.
      now rewrite !existsb_negb_false.
  - rewrite !compare_required_eq. simpl.
    set (ea := existsb (fun f => negb (includes_str b f)) a).
    set (eb := existsb (fun f => negb (includes_str a f)) b).
    split; [| split].
    + destruct (Drift.drifted r), ea, eb; reflexivity.
    + rewrite !length_app, !length_map.
      destruct (Drift.drifted r), ea, eb; simpl; lia.
    + intros ->. simpl. unfold ea, eb. rewrite orb_false_iff.
      rewrite !existsb_negb_false.
      split; intros [H1 H2]; split; intros f Hf.
      * now apply includes_str_In, H1.
      * now apply includes_str_In, H2.
      * now apply includes_str_In, H1.
      * now apply includes_str_In, H2.
Qed.

(** ** The report and the exit status *)

Lemma summarize_partition (results : list Drift.DriftResult) :
  Report.total (Report.summarize results) = length results
  /\ Report.drifted (Report.summarize results) + Report.clean (Report.summarize results)
     = Report.total (Report.summarize results).
Proof.
  split; [reflexivity |]. unfold Report.summarize. simpl.
  induction results as [| r rest IH]; simpl; [reflexivity |].
  destruct (Drift.drifted r); simpl; lia.
Qed.

(** X18: a run of the drift script ends with status 0 or 1, and with 0
    exactly when the report was written and neither check drifted.  What it
    writes is one file, in [reports/drift], named after the first clock
    reading with colons and dots replaced; the report in it carries the
    second reading, the two results in order (WSDL, messages), and a
    summary whose total is 2 and whose drifted and clean counts add up to
    it.  When the directory cannot be made or the file not written, the
    run ends with status 1 and writes nothing. *)
Theorem drift_run_status (parse : string -> outcome JsVal)
    (parseSchema : string -> outcome Drift.MessageSchema)
    (resolve : string -> string) (path_join : string -> string -> string)
    (stringify : Report.DriftReport -> string) (padEnd : string -> nat -> string)
    (inspect : string -> string)
    (w : Drift.World) (disk : Report.Disk) (clock : string * string)
    (run : Report.Run) :
  Report.main parse parseSchema resolve path_join stringify padEnd inspect w disk clock
  = run ->
  (Report.exit run = 0 \/ Report.exit run = 1)
  /\ (Report.exit run = 0
      <-> Report.written run <> []
          /\ Drift.drifted (Drift.checkWsdlDrift parse resolve w) = false
          /\ Drift.drifted (Drift.checkMessageSchemaDrift parseSchema resolve w) = false)
  /\ (Report.written run = []
      \/ exists report,
           Report.written run
           = [(path_join (resolve "reports/drift")
                 ("drift-report-" ++ Report.dashes (fst clock) ++ ".json")%string,
               stringify report)]
           /\ Report.timestamp report = snd clock
           /\ Report.results report
              = [Drift.checkWsdlDrift parse resolve w;
                 Drift.checkMessageSchemaDrift parseSchema resolve w]
           /\ Report.total (Report.summary report) = 2
           /\ Report.drifted (Report.summary report)
              + Report.clean (Report.summary report) = 2)
  /\ ((exists message, Report.mkdirSync disk (resolve "reports/drift") = Throw message)
      \/ (exists message,
            Report.writeFileSync disk
              (path_join (resolve "reports/drift")
                 ("drift-report-" ++ Report.dashes (fst clock) ++ ".json")%string)
              (stringify
                 {| Report.timestamp := snd clock;
                    Report.results :=
                      [Drift.checkWsdlDrift parse resolve w;
                       Drift.checkMessageSchemaDrift parseSchema resolve w];
                    Report.summary :=
                      Report.summarize
                        [Drift.checkWsdlDrift parse resolve w;
                         Drift.checkMessageSchemaDrift parseSchema resolve w] |})
            = Throw message) ->
      Report.exit run = 1 /\ Report.written run = []).
Proof.
  intros <-. unfold Report.main, Report.generateReport.
  set (results := [Drift.checkWsdlDrift parse resolve w;
                   Drift.checkMessageSchemaDrift parseSchema resolve w]).
  destruct (Report.mkdirSync disk _) as [made | m1] eqn:Emk; simpl.
  - destruct (Report.writeFileSync disk _ _) as [wrote | m2] eqn:Ewr; simpl.
    + destruct (Drift.drifted (Drift.checkWsdlDrift parse resolve w)) eqn:E1;
        destruct (Drift.drifted (Drift.checkMessageSchemaDrift parseSchema resolve w))
          eqn:E2; simpl;
        (split; [auto |]);
        (split; [split; [discriminate || (intros _; repeat split; discriminate)
                        | intros [_ [H1 H2]]; try reflexivity; discriminate] |]);
        (split; [right; eexists; split; [reflexivity |];
                 destruct (summarize_partition results) as [Ht Hp];
                 repeat split; assumption
                | intros [[m H] | [m H]]; discriminate]).
    + split; [auto |].
      split; [split; [discriminate | intros [H _]; now contradiction H] |].
      split; [now left | auto].
  - split; [auto |].
    split; [split; [discriminate | intros [H _]; now contradiction H] |].
    split; [now left | auto].
Qed.

Lemma drift_run_status_witness :
  Report.exit MoreSamples.clean_run = 0
  /\ exists report,
       Report.written MoreSamples.clean_run
       = [("/repo/reports/drift/drift-report-2026-02-22T02-00-00-123Z.json",
           MoreSamples.stringify report)]
       /\ Report.timestamp report = "2026-02-22T02:00:00.124Z"
       /\ Report.total (Report.summary report) = 2
       /\ Report.drifted (Report.summary report) + Report.clean (Report.summary report) = 2.
Proof.
  destruct (drift_run_status Samples.drift_parse Samples.parseSchema Samples.resolve
              Samples.path_join MoreSamples.stringify MoreSamples.padEnd
              MoreSamples.inspect MoreSamples.clean_world MoreSamples.disk
              MoreSamples.clock MoreSamples.clean_run eq_refl)
    as (_ & Hexit & Hwritten & _).
  split.
  - apply Hexit. split; [discriminate |]. split; reflexivity.
  - destruct Hwritten as [Hnone | (report & Hfile & Htime & _ & Htotal & Hsum)].
    + discriminate Hnone.
    + exists report. split; [exact Hfile |]. split; [exact Htime |].
      split; [exact Htotal | exact Hsum].
Defined.

(** X19: replacing the colons and dots of a time stamp keeps its length
    and every other character in place, leaves no colon and no dot, and
    changes nothing when done again. *)
Theorem dashes_sanitises (s : string) :
  String.length (Report.dashes s) = String.length s
  /\ (forall i c, String.get i (Report.dashes s) = Some c ->
                  c <> ":"%char /\ c <> "."%char)
  /\ (forall i c, String.get i s = Some c -> c <> ":"%char -> c <> "."%char ->
                  String.get i (Report.dashes s) = Some c)
  /\ Report.dashes (Report.dashes s) = Report.dashes s.
Proof.
  induction s as [| x s [IHlen [IHnone [IHkeep IHidem]]]]; simpl.
  - repeat split; try discriminate.
  - split; [now rewrite IHlen |].
    assert (Hx : let y := if (Ascii.eqb x ":" || Ascii.eqb x ".")%bool then "-"%char else x in
                 y <> ":"%char /\ y <> "."%char).
    { simpl. destruct (Ascii.eqb_spec x ":"); simpl; [split; discriminate |].
      destruct (Ascii.eqb_spec x "."); simpl; [split; discriminate | auto]. }
    simpl in Hx. split; [| split].
    + intros [| i] c; simpl.
      * intro H. injection H as <-. exact Hx.
      * apply IHnone.
    + intros [| i] c; simpl.
      * intros H Hc Hd. injection H as ->.
        destruct (Ascii.eqb_spec c ":"); [contradiction |].
        destruct (Ascii.eqb_spec c "."); [contradiction | reflexivity].
      * apply IHkeep.
    + rewrite IHidem. f_equal.
      destruct (Ascii.eqb_spec x ":"); simpl; [reflexivity |].
      destruct (Ascii.eqb_spec x "."); simpl; [reflexivity |].
      destruct (Ascii.eqb_spec x ":"); [contradiction |].
      destruct (Ascii.eqb_spec x "."); [contradiction | reflexivity].
Qed.

(** ** The Pact publishing run *)

Lemma prefix_append (a b : string) : String.prefix a (a ++ b) = true.
Proof.
  induction a as [| c a IH]; simpl; [now destruct b |].
  destruct (ascii_dec c c) as [_ | Hne]; [exact IH | now contradiction Hne].
Qed.

Lemma prefix_append_more (a b c : string) : String.prefix (a ++ b) (a ++ b ++ c) = true.
Proof. rewrite <- append_assoc. apply prefix_append. Qed.

Section Publishing.

Variable resolve : string -> string.
Variable path_join : string -> string -> string.
Variable json_parse : string -> outcome JsVal.
Variable encodeURIComponent : string -> outcome string.
Variable inspect : string -> string.

(** One turn of the publishing loop that returns: one line and one request
    more, the request a [PUT] of the file's content to the broker. *)
Lemma publish_file_step (w : Pact.World) (pactDir brokerUrl version file : string)
    (sofar after : list Report.Line * list Pact.Request) :
  Pact.publish_file path_join json_parse encodeURIComponent w pactDir brokerUrl version
    sofar file = Ok after ->
  exists line request,
    after = (fst sofar ++ [line], snd sofar ++ [request])
    /\ Pact.method request = "PUT"
    /\ Pact.headers request = Pact.headers_of w
    /\ String.prefix (brokerUrl ++ "/pacts/provider/") (Pact.url request) = true
    /\ Pact.readFileSync w (path_join pactDir file) = Ok (Pact.body request).
Proof.
  unfold Pact.publish_file.
  destruct (Pact.readFileSync w _) as [pactContent |] eqn:Eread; simpl; [| discriminate].
  destruct (json_parse pactContent) as [pact |]; simpl; [| discriminate].
  destruct (get_prop pact "consumer") as [consumerNode |]; simpl; [| discriminate].
  destruct (get_prop pact "provider") as [providerNode |]; simpl; [| discriminate].
  destruct (encodeURIComponent _) as [providerPart |]; simpl; [| discriminate].
  destruct (encodeURIComponent _) as [consumerPart |]; simpl; [| discriminate].
  intro H. injection H as <-.
  eexists; eexists. split; [reflexivity |].
  cbn [Pact.method Pact.headers Pact.url Pact.body].
  repeat split; try assumption.
  exact (prefix_append_more brokerUrl "/pacts/provider/" _).
Qed.

Lemma publish_loop (w : Pact.World) (pactDir brokerUrl version : string)
    (files : list string) :
  forall (sofar reached : list Report.Line * list Pact.Request) (stopped : option string),
    for_each_kept
      (Pact.publish_file path_join json_parse encodeURIComponent w pactDir brokerUrl version)
      files sofar = (reached, stopped) ->
    exists sent,
      snd reached = snd sofar ++ sent
      /\ (stopped = None -> length sent = length files)
      /\ (stopped <> None -> length sent < length files)
      /\ forall request, In request sent ->
           Pact.method request = "PUT"
           /\ Pact.headers request = Pact.headers_of w
           /\ String.prefix (brokerUrl ++ "/pacts/provider/") (Pact.url request) = true
           /\ exists file, In file files
                /\ Pact.readFileSync w (path_join pactDir file) = Ok (Pact.body request).
Proof.
  induction files as [| file rest IH]; simpl; intros sofar reached stopped H.
  - injection H as <- <-. exists []. rewrite app_nil_r. repeat split.
    + intro Hs. now contradiction Hs.
    + destruct H.
    + destruct H.
    + destruct H.
    + destruct H.
  - destruct (Pact.publish_file _ _ _ _ _ _ _ sofar file) as [after | message] eqn:E.
    + destruct (publish_file_step w pactDir brokerUrl version file sofar after E)
        as [line [request [-> [Hm [Hh [Hp Hb]]]]]].
      destruct (IH _ reached stopped H) as [sent [Hsent [Hdone [Hstop Hall]]]].
      simpl in Hsent. exists (request :: sent).
      split; [now rewrite Hsent, <- app_assoc |].
      split; [intro Hs; simpl; now rewrite (Hdone Hs) |].
      split; [intro Hs; simpl; specialize (Hstop Hs); lia |].
      intros q [<- | Hq].
      * repeat split; try assumption. exists file. auto.
      * destruct (Hall q Hq) as [H1 [H2 [H3 [f [Hf Hread]]]]].
        repeat split; try assumption. exists f. auto.
    + injection H as <- <-. exists []. rewrite app_nil_r.
      split; [reflexivity |]. split; [discriminate |].
      split; [intros _; simpl; lia | intros q []].
Qed.

(** X20: the script sends nothing unless the [pacts] directory exists, could
    be listed, holds a [.json] file, and [PACT_BROKER_URL] is set and not
    empty. *)
Theorem pact_requests_need_a_broker (w : Pact.World) :
  Pact.requests (Pact.main resolve path_join json_parse encodeURIComponent inspect w)
  <> [] ->
  Pact.existsSync w (resolve "pacts") = true
  /\ (exists brokerUrl,
        Pact.PACT_BROKER_URL w = Some brokerUrl /\ brokerUrl <> "")
  /\ exists listing,
       Pact.readdirSync w (resolve "pacts") = Ok listing
       /\ filter (fun f => Schema.endsWith f ".json") listing <> [].
Proof.
  unfold Pact.main.
  destruct (Pact.existsSync w (resolve "pacts")); simpl;
    [| intro H; now contradiction H].
  destruct (Pact.readdirSync w (resolve "pacts")) as [listing |]; simpl;
    [| intro H; now contradiction H].
  destruct (filter _ listing) as [| f files] eqn:Efiles; simpl;
    [intro H; now contradiction H |].
  unfold Drift.env_value.
  destruct (Pact.PACT_BROKER_URL w) as [brokerUrl |]; simpl;
    [| intro H; now contradiction H].
  destruct (brokerUrl =? "") eqn:Eurl; simpl; [intro H; now contradiction H |].
  intros _. split; [reflexivity |]. split.
  - exists brokerUrl. split; [reflexivity | now apply String.eqb_neq].
  - exists listing. split; [reflexivity | intro Hnil; congruence].
Qed.

(** X21: with the broker set and the directory listed, the run ends with
    status 0 exactly when it has sent one request for every [.json] file,
    and with status 1 when a file stopped it, the requests of the files
    before that one already sent.  Every request it sends is a [PUT] of a
    pact file's content to a URL under [{broker}/pacts/provider/], with the
    same headers. *)
Theorem pact_one_request_per_file (w : Pact.World) (brokerUrl : string)
    (listing : list string) :
  Pact.existsSync w (resolve "pacts") = true ->
  Pact.readdirSync w (resolve "pacts") = Ok listing ->
  Drift.env_value (Pact.PACT_BROKER_URL w) = Some brokerUrl ->
  (Pact.exit (Pact.main resolve path_join json_parse encodeURIComponent inspect w) = 0
   <-> length (Pact.requests
                 (Pact.main resolve path_join json_parse encodeURIComponent inspect w))
       = length (filter (fun f => Schema.endsWith f ".json") listing))
  /\ (Pact.exit (Pact.main resolve path_join json_parse encodeURIComponent inspect w) = 1
      <-> length (Pact.requests
                    (Pact.main resolve path_join json_parse encodeURIComponent inspect w))
          < length (filter (fun f => Schema.endsWith f ".json") listing))
  /\ forall request,
       In request
         (Pact.requests
            (Pact.main resolve path_join json_parse encodeURIComponent inspect w)) ->
       Pact.method request = "PUT"
       /\ Pact.headers request = Pact.headers_of w
       /\ String.prefix (brokerUrl ++ "/pacts/provider/") (Pact.url request) = true
       /\ exists file,
            In file (filter (fun f => Schema.endsWith f ".json") listing)
            /\ Pact.readFileSync w (path_join (resolve "pacts") file)
               = Ok (Pact.body request).
Proof.
  intros Hex Hlist Henv. unfold Pact.main. rewrite Hex, Hlist. simpl.
  destruct (filter _ listing) as [| f files] eqn:Efiles.
  - simpl. repeat split; try discriminate; try lia; intros [].
  - cbn [length Nat.eqb]. rewrite Henv.
    destruct (for_each_kept _ (f :: files) _) as [reached stopped] eqn:Eloop.
    destruct (publish_loop w (resolve "pacts") brokerUrl (Pact.version_of w)
                (f :: files) _ reached stopped Eloop)
      as [sent [Hsent [Hdone [Hstop Hall]]]].
    simpl in Hsent.
    destruct stopped as [message |]; simpl; rewrite Hsent.
    + assert (Hlt : length sent < length (f :: files)) by (apply Hstop; discriminate).
      simpl in Hlt. repeat split; try discriminate; try lia; try (intros _; lia);
        apply Hall; assumption.
    + assert (Heq : length sent = length (f :: files)) by (now apply Hdone).
      simpl in Heq. repeat split; try discriminate; try lia; try (intros _; lia);
        apply Hall; assumption.
Qed.

End Publishing.

Lemma pact_requests_need_a_broker_witness :
  Pact.existsSync MoreSamples.broker_world (Samples.resolve "pacts") = true
  /\ (exists brokerUrl,
        Pact.PACT_BROKER_URL MoreSamples.broker_world = Some brokerUrl /\ brokerUrl <> "")
  /\ exists listing,
       Pact.readdirSync MoreSamples.broker_world (Samples.resolve "pacts") = Ok listing
       /\ filter (fun f => Schema.endsWith f ".json") listing <> [].
Proof.
  refine (pact_requests_need_a_broker Samples.resolve Samples.path_join
            MoreSamples.json_parse MoreSamples.encodeURIComponent MoreSamples.inspect
            MoreSamples.broker_world _).
  discriminate.
Defined.

Lemma pact_one_request_per_file_witness :
  Pact.exit (Pact.main Samples.resolve Samples.path_join MoreSamples.json_parse
               MoreSamples.encodeURIComponent MoreSamples.inspect
               MoreSamples.broker_world) = 0
  /\ length (Pact.requests
               (Pact.main Samples.resolve Samples.path_join MoreSamples.json_parse
                  MoreSamples.encodeURIComponent MoreSamples.inspect
                  MoreSamples.broker_world)) = 2.
Proof.
  destruct (pact_one_request_per_file Samples.resolve Samples.path_join
              MoreSamples.json_parse MoreSamples.encodeURIComponent MoreSamples.inspect
              MoreSamples.broker_world "https://broker.example.com"
              ["app1-app2.json"; "notes.txt"; "app1-siebel.json"]
              eq_refl eq_refl eq_refl)
    as (Hdone & _ & _).
  split; [| reflexivity].
  apply Hdone. reflexivity.
Defined.

Section BrokerAnswers.

Variable resolve : string -> string.
Variable path_join : string -> string -> string.
Variable json_parse : string -> outcome JsVal.
Variable encodeURIComponent : string -> outcome string.
Variable inspect : string -> string.

Variable w : Pact.World.
Variable answers : Pact.Request -> outcome Pact.Response.

Lemma publish_file_answers (pactDir brokerUrl version file : string)
    (sofar sofar' : list Report.Line * list Pact.Request) :
  snd sofar = snd sofar' ->
  length (fst sofar) = length (fst sofar') ->
  match Pact.publish_file path_join json_parse encodeURIComponent w pactDir brokerUrl
          version sofar file,
        Pact.publish_file path_join json_parse encodeURIComponent (Pact.answered w answers) pactDir brokerUrl
          version sofar' file with
  | Ok after, Ok after' =>
      snd after = snd after' /\ length (fst after) = length (fst after')
  | Throw message, Throw message' => message = message'
  | _, _ => False
  end.
Proof.
  intros Hq Hl. unfold Pact.publish_file, Pact.headers_of, Pact.answered. simpl.
  destruct (Pact.readFileSync w _) as [pactContent |]; simpl; [| reflexivity].
  destruct (json_parse pactContent) as [pact |]; simpl; [| reflexivity].
  destruct (get_prop pact "consumer") as [consumerNode |]; simpl; [| reflexivity].
  destruct (get_prop pact "provider") as [providerNode |]; simpl; [| reflexivity].
  destruct (encodeURIComponent _) as [providerPart |]; simpl; [| reflexivity].
  destruct (encodeURIComponent _) as [consumerPart |]; simpl; [| reflexivity].
  rewrite Hq, !length_app, Hl. split; reflexivity.
Qed.

Lemma publish_loop_answers (pactDir brokerUrl version : string) (files : list string) :
  forall sofar sofar' : list Report.Line * list Pact.Request,
    snd sofar = snd sofar' ->
    length (fst sofar) = length (fst sofar') ->
    snd (fst (for_each_kept
                (Pact.publish_file path_join json_parse encodeURIComponent w pactDir
                   brokerUrl version) files sofar))
    = snd (fst (for_each_kept
                  (Pact.publish_file path_join json_parse encodeURIComponent (Pact.answered w answers) pactDir
                     brokerUrl version) files sofar'))
    /\ length (fst (fst (for_each_kept
                (Pact.publish_file path_join json_parse encodeURIComponent w pactDir
                   brokerUrl version) files sofar)))
       = length (fst (fst (for_each_kept
                  (Pact.publish_file path_join json_parse encodeURIComponent (Pact.answered w answers) pactDir
                     brokerUrl version) files sofar')))
    /\ snd (for_each_kept
              (Pact.publish_file path_join json_parse encodeURIComponent w pactDir
                 brokerUrl version) files sofar)
       = snd (for_each_kept
                (Pact.publish_file path_join json_parse encodeURIComponent (Pact.answered w answers) pactDir
                   brokerUrl version) files sofar').
Proof.
  induction files as [| file rest IH]; intros sofar sofar' Hq Hl; simpl.
  - auto.
  - pose proof (publish_file_answers pactDir brokerUrl version file sofar sofar' Hq Hl)
      as Hstep.
    destruct (Pact.publish_file _ _ _ w _ _ _ sofar file) as [after | message];
      destruct (Pact.publish_file _ _ _ (Pact.answered w answers) _ _ _ sofar' file) as [after' | message'];
      try contradiction.
    + destruct Hstep as [Hq' Hl']. exact (IH after after' Hq' Hl').
    + subst message'. simpl. auto.
Qed.

(** X22: what the broker answers, or whether it can be reached at all,
    changes neither the exit status of the publishing run, nor the requests
    it sends, nor the number of lines it prints. *)
Theorem pact_broker_answers_do_not_matter :
  Pact.exit (Pact.main resolve path_join json_parse encodeURIComponent inspect (Pact.answered w answers))
  = Pact.exit (Pact.main resolve path_join json_parse encodeURIComponent inspect w)
  /\ Pact.requests (Pact.main resolve path_join json_parse encodeURIComponent inspect (Pact.answered w answers))
     = Pact.requests (Pact.main resolve path_join json_parse encodeURIComponent inspect w)
  /\ length (Pact.console
               (Pact.main resolve path_join json_parse encodeURIComponent inspect (Pact.answered w answers)))
     = length (Pact.console
                 (Pact.main resolve path_join json_parse encodeURIComponent inspect w)).
Proof.
  unfold Pact.main, Pact.version_of, Pact.branch_of. simpl.
  destruct (Pact.existsSync w (resolve "pacts")); simpl; [| auto].
  destruct (Pact.readdirSync w (resolve "pacts")) as [listing |]; simpl; [| auto].
  destruct (Nat.eqb (length (filter _ listing)) 0); [simpl; auto |].
  destruct (Drift.env_value (Pact.PACT_BROKER_URL w)) as [brokerUrl |]; [| simpl; auto].
  match goal with
  | |- context [for_each_kept (Pact.publish_file _ _ _ w ?d ?u ?v) ?fs ?s0] =>
      destruct (publish_loop_answers d u v fs s0 s0 eq_refl eq_refl) as [Hq [Hl Hs]];
      destruct (for_each_kept (Pact.publish_file path_join json_parse
                  encodeURIComponent w d u v) fs s0) as [[l q] e];
      destruct (for_each_kept (Pact.publish_file path_join json_parse
                  encodeURIComponent (Pact.answered w answers) d u v) fs s0) as [[l' q'] e']
  end.
  simpl in Hq, Hl, Hs. subst q' e'.
  destruct e; simpl; rewrite ?length_app, Hl; auto.
Qed.

End BrokerAnswers.

(** ** Loading a WSDL from start to end *)

Lemma element_table_after (this this' : Wsdl.WsdlValidator) (parsed : JsVal)
    (n : string) :
  n <> "" ->
  Wsdl.extractElements this parsed = Ok this' ->
  Wsdl.operations this' = Wsdl.operations this
  /\ JsMap.get (JStr n) (Wsdl.rawElements this')
     = match find (fun e => same_value_zero (read e "@_name") (JStr n))
               (rev (as_array
                       (read (read (read (read parsed "definitions") "types") "schema")
                          "element"))) with
       | Some e => Some e
       | None => JsMap.get (JStr n) (Wsdl.rawElements this)
       end.
Proof.
  intros Hn. unfold Wsdl.extractElements.
  destruct (nullish parsed) eqn:Htree;
    [unfold get_prop; rewrite Htree; discriminate |].
  rewrite (get_prop_returns _ _ Htree). simpl.
  destruct (truthy (read (read (read parsed "definitions") "types") "schema")) eqn:Es;
    simpl; intro H; injection H as <-.
  - exact (record_elements n _ this Hn).
  - split; [reflexivity |]. now rewrite (falsy_has_no_element _ Es).
Qed.

Lemma extractElements_returns (this : Wsdl.WsdlValidator) (parsed : JsVal) :
  nullish parsed = false ->
  exists this', Wsdl.extractElements this parsed = Ok this'
                /\ Wsdl.operations this' = Wsdl.operations this.
Proof.
  intro Htree.
  assert (H : exists this', Wsdl.extractElements this parsed = Ok this').
  { unfold Wsdl.extractElements. rewrite (get_prop_returns _ _ Htree). simpl.
    destruct (truthy _); simpl; eexists; reflexivity. }
  destruct H as [this' H]. exists this'. split; [exact H |].
  refine (proj1 (element_table_after this this' parsed "x" _ H)). discriminate.
Qed.

Lemma add_operations_throw (ops : list JsVal) (op : JsVal) :
  In op ops -> nullish op = true ->
  forall this, exists message, for_each Wsdl.add_operation ops this = Throw message.
Proof.
  induction ops as [| o rest IH]; intros Hin Hop this; [destruct Hin |].
  simpl. destruct (nullish o) eqn:Eo.
  - unfold Wsdl.add_operation, get_prop. rewrite Eo. simpl. eexists; reflexivity.
  - destruct (add_operation_returns this o Eo) as [i [u [_ [_ Hadd]]]].
    rewrite Hadd. simpl. destruct Hin as [-> | Hin]; [congruence |].
    exact (IH Hin Hop _).
Qed.

(** X23: a WSDL whose binding holds an operation entry that is [undefined]
    or [null] (a binding that lists no operation is one) cannot be loaded:
    [loadWsdl] throws.  A WSDL with no binding loads, and leaves the
    operation table as it was. *)
Theorem loadWsdl_needs_bound_operations (parse : string -> outcome JsVal)
    (readFile : string -> outcome string) (this : Wsdl.WsdlValidator)
    (wsdlPath wsdlContent : string) (parsed : JsVal) :
  readFile wsdlPath = Ok wsdlContent ->
  parse wsdlContent = Ok parsed ->
  nullish parsed = false ->
  (truthy (read (read parsed "definitions") "binding") = true ->
   (exists op,
       In op (as_array (read (read (read parsed "definitions") "binding") "operation"))
       /\ nullish op = true) ->
   exists message, Wsdl.loadWsdl parse readFile this wsdlPath = Throw message)
  /\ (truthy (read (read parsed "definitions") "binding") = false ->
      exists this',
        Wsdl.loadWsdl parse readFile this wsdlPath = Ok this'
        /\ Wsdl.operations this' = Wsdl.operations this).
Proof.
  intros Hread Hparse Htree.
  destruct (extractElements_returns this parsed Htree) as [this1 [H1 Hops]].
  unfold Wsdl.loadWsdl. rewrite Hread. simpl. rewrite Hparse. simpl.
  rewrite H1. simpl. unfold Wsdl.extractOperations.
  rewrite (get_prop_returns _ _ Htree). simpl. split.
  - intros Hbinding [op [Hin Hop]]. rewrite Hbinding. simpl.
    exact (add_operations_throw _ op Hin Hop this1).
  - intro Hbinding. rewrite Hbinding. simpl. exists this1. auto.
Qed.

Lemma loadWsdl_needs_bound_operations_witness :
  (exists message,
      Wsdl.loadWsdl MoreSamples.parse MoreSamples.readFile Wsdl.new_WsdlValidator
        "schemas/wsdl/emptied.wsdl" = Throw message)
  /\ exists this',
       Wsdl.loadWsdl MoreSamples.parse MoreSamples.readFile MoreSamples.ping_validator
         "schemas/wsdl/unbound.wsdl" = Ok this'
       /\ Wsdl.operations this' = Wsdl.operations MoreSamples.ping_validator.
Proof.
  split.
  - refine (proj1 (loadWsdl_needs_bound_operations MoreSamples.parse MoreSamples.readFile
                     Wsdl.new_WsdlValidator "schemas/wsdl/emptied.wsdl" _ _
                     eq_refl eq_refl eq_refl)
              eq_refl _).
    exists JUndefined. simpl. tauto.
  - exact (proj2 (loadWsdl_needs_bound_operations MoreSamples.parse MoreSamples.readFile
                    MoreSamples.ping_validator "schemas/wsdl/unbound.wsdl" _ _
                    eq_refl eq_refl eq_refl)
             eq_refl).
Defined.

Lemma append_not_empty (a b : string) : b <> "" -> (a ++ b)%string <> "".
Proof. intro Hb. destruct a; simpl; [exact Hb | discriminate]. Qed.

Lemma wrapper_name_not_empty (n : string) (direction : Wsdl.Direction) :
  Wsdl.wrapper_name n direction <> "".
Proof. destruct direction; simpl; apply append_not_empty; discriminate. Qed.

(** X24: after [loadWsdl] into a new validator, every operation of the
    binding that has a string name is in the operation table, and for each
    direction its field list is read off the last top-level element named
    [{name}Request] (or [{name}Response]): one field for every named item
    of that element's sequence, in document order; no field when the schema
    declares no such element or the element has no sequence. *)
Theorem loadWsdl_builds_the_model (parse : string -> outcome JsVal)
    (readFile : string -> outcome string) (this' : Wsdl.WsdlValidator)
    (wsdlPath wsdlContent : string) (parsed op : JsVal) (n : string) :
  readFile wsdlPath = Ok wsdlContent ->
  parse wsdlContent = Ok parsed ->
  Wsdl.loadWsdl parse readFile Wsdl.new_WsdlValidator wsdlPath = Ok this' ->
  truthy (read (read parsed "definitions") "binding") = true ->
  In op (as_array (read (read (read parsed "definitions") "binding") "operation")) ->
  read op "@_name" = JStr n ->
  exists O,
    JsMap.get (JStr n) (Wsdl.operations this') = Some O
    /\ Wsdl.op_name O = JStr n
    /\ forall direction,
         match find (fun e => same_value_zero (read e "@_name")
                                (JStr (Wsdl.wrapper_name n direction)))
                 (rev (as_array
                         (read (read (read (read parsed "definitions") "types") "schema")
                            "element"))) with
         | Some element =>
             if truthy (Wsdl.sequence_of element)
             then map Wsdl.name (Wsdl.expected_fields O direction)
                  = map (fun item => read item "@_name")
                      (filter Wsdl.has_name (as_array (Wsdl.sequence_of element)))
             else Wsdl.expected_fields O direction = []
         | None => Wsdl.expected_fields O direction = []
         end.
Proof.
  intros Hread Hparse Hload Hbinding Hop Hname.
  unfold Wsdl.loadWsdl in Hload. rewrite Hread in Hload. simpl in Hload.
  rewrite Hparse in Hload. simpl in Hload.
  destruct (Wsdl.extractElements Wsdl.new_WsdlValidator parsed) as [this1 |] eqn:E1;
    simpl in Hload; [| discriminate].
  unfold Wsdl.extractOperations in Hload.
  destruct (get_prop parsed "definitions") as [definitions |] eqn:Edef;
    simpl in Hload; [| discriminate].
  assert (Hdef : definitions = read parsed "definitions").
  { unfold get_prop in Edef. destruct (nullish parsed); [discriminate |].
    now injection Edef as <-. }
  subst definitions. rewrite Hbinding in Hload. simpl in Hload.
  destruct (record_operations this1 n _ this1 this' eq_refl Hload) as [_ Hrec].
  destruct Hrec as [O [Hget [HO [Hin Hout]]]]; [right; exists op; auto |].
  exists O. split; [exact Hget |]. split; [exact HO |].
  assert (Hfields : forall direction,
             Wsdl.getElementFields this1 (Wsdl.wrapper_name n direction)
             = Ok (Wsdl.expected_fields O direction))
    by (intros [|]; assumption).
  intro direction. specialize (Hfields direction).
  destruct (element_table_after Wsdl.new_WsdlValidator this1 parsed
              (Wsdl.wrapper_name n direction)
              (wrapper_name_not_empty n direction) E1) as [_ Htable].
  unfold Wsdl.getElementFields in Hfields. rewrite Htable in Hfields.
  destruct (find _ _) as [element |] eqn:Efind.
  - apply find_some in Efind as [_ Hnamed]. apply same_value_zero_eq in Hnamed.
    assert (Helement : truthy element = true).
    { apply (truthy_read element "@_name"). rewrite Hnamed. simpl.
      apply negb_true_iff, String.eqb_neq, wrapper_name_not_empty. }
    rewrite Helement in Hfields. simpl in Hfields.
    destruct (truthy (Wsdl.sequence_of element)); simpl in Hfields.
    + rewrite map_each_named in Hfields
        by (intros i Hi; now apply filter_In in Hi).
      injection Hfields as <-. now rewrite map_map.
    + now injection Hfields as <-.
  - simpl in Hfields. now injection Hfields as <-.
Qed.

Lemma loadWsdl_builds_the_model_witness :
  exists O,
    JsMap.get (JStr "Ping") (Wsdl.operations MoreSamples.ping_validator) = Some O
    /\ Wsdl.op_name O = JStr "Ping"
    /\ map Wsdl.name (Wsdl.input O) = [JStr "token"; JStr "ttl"]
    /\ Wsdl.output O = [].
Proof.
  destruct (loadWsdl_builds_the_model MoreSamples.parse MoreSamples.readFile
              MoreSamples.ping_validator "schemas/wsdl/ping.wsdl" _ _
              (JObj [("@_name", JStr "Ping")]) "Ping"
              eq_refl eq_refl eq_refl eq_refl (or_introl eq_refl) eq_refl)
    as (O & Hget & Hname & Hfields).
  exists O. split; [exact Hget |]. split; [exact Hname |].
  split; [exact (Hfields Wsdl.DirInput) | exact (Hfields Wsdl.DirOutput)].
Defined.
